(** * Backup lifecycle of the gym-management Electron main process

    A shallow embedding of [electron/main.cjs]: the IPC handlers for
    backup, restore, repair, login and automatic-backup scheduling, the
    helpers they share, and the properties of the written specification
    that concern them.

    The handlers are JavaScript [async] functions that talk to the
    outside world (file system, database service, Google Drive, the cron
    library, the console).  They are embedded as programs of a small
    command monad [Prog]: every external call is a node of the program
    tree, [try]/[catch] is a combinator on trees, and an interpreter runs
    a tree against a [World] and an [Env] that picks the outcome of each
    external call. *)

From Stdlib Require Import Ascii String.
From stdpp Require Import gmap strings list.

Set Warnings "-register-all".

Local Open Scope string_scope.
Local Open Scope list_scope.
Local Open Scope stdpp_scope.

(** ** JavaScript values *)

Module Js.

(** The values that cross the IPC boundary.  Numbers are integers here
    (no handler below does arithmetic); objects keep their keys in
    insertion order, each key once. *)
Inductive jsval : Type :=
| VUndefined
| VNull
| VBool (b : bool)
| VNum (n : Z)
| VStr (s : string)
| VObj (fields : list (string * jsval)).

(** A thrown [Error]; the handlers only ever read its [message]. *)
Record exn : Type := Err { message : string }.

Inductive outcome (A : Type) : Type :=
| Ok (a : A)
| Exn (e : exn).
Arguments Ok {A} a.
Arguments Exn {A} e.

(** Any [TypeError] of the engine; the text of its message is the
    engine's and is not modelled. *)
Definition TypeError : exn := Err "TypeError".

(** [if (v)] *)
Definition truthy (v : jsval) : bool :=
  match v with
  | VUndefined | VNull => false
  | VBool b => b
  | VNum n => negb (n =? 0)%Z
  | VStr s => negb (String.eqb s "")
  | VObj _ => true
  end.

(** [v === 'lit'] *)
Definition is_str (v : jsval) (lit : string) : bool :=
  match v with
  | VStr s => String.eqb s lit
  | _ => false
  end.

Fixpoint assoc (k : string) (fs : list (string * jsval)) : option jsval :=
  match fs with
  | [] => None
  | (k', v) :: fs' => if String.eqb k k' then Some v else assoc k fs'
  end.

Fixpoint remove_key (k : string) (fs : list (string * jsval))
  : list (string * jsval) :=
  match fs with
  | [] => []
  | (k', v) :: fs' =>
      if String.eqb k k' then remove_key k fs' else (k', v) :: remove_key k fs'
  end.

(** [Object.prototype.hasOwnProperty.call(v, k)] *)
Definition has_own (v : jsval) (k : string) : bool :=
  match v with
  | VObj fs => match assoc k fs with Some _ => true | None => false end
  | _ => false
  end.

(** [v.k]: a [TypeError] on [undefined] and [null], [undefined] for a
    missing key. *)
Definition get_prop (v : jsval) (k : string) : outcome jsval :=
  match v with
  | VUndefined | VNull => Exn TypeError
  | VObj fs => Ok (default VUndefined (assoc k fs))
  | _ => Ok VUndefined
  end.

(** [delete v.k]: mutates the object; the embedding returns the mutated
    object. *)
Definition delete_prop (v : jsval) (k : string) : outcome jsval :=
  match v with
  | VUndefined | VNull => Exn TypeError
  | VObj fs => Ok (VObj (remove_key k fs))
  | _ => Ok v
  end.

(** [s.replace(/:/g, '-')] *)
Fixpoint replace_colons (s : string) : string :=
  match s with
  | EmptyString => EmptyString
  | String c s' =>
      String (if Ascii.eqb c ":"%char then "-"%char else c) (replace_colons s')
  end.

(** Line terminators, which [.] in a regular expression does not match. *)
Definition is_line_terminator (c : ascii) : bool :=
  Ascii.eqb c "010"%char || Ascii.eqb c "013"%char.

(** The rest of [s] from its first line terminator on. *)
Fixpoint from_line_terminator (s : string) : string :=
  match s with
  | EmptyString => EmptyString
  | String c s' => if is_line_terminator c then s else from_line_terminator s'
  end.

(** [s.replace(/\..+/, '')]: the leftmost dot that is followed by at
    least one character other than a line terminator is removed together
    with everything after it on its line. *)
Fixpoint strip_dot_rest (s : string) : string :=
  match s with
  | EmptyString => EmptyString
  | String c s' =>
      if Ascii.eqb c "."%char then
        match s' with
        | String d _ =>
            if is_line_terminator d then String c (strip_dot_rest s')
            else from_line_terminator s'
        | EmptyString => String c EmptyString
        end
      else String c (strip_dot_rest s')
  end.

End Js.
Export Js.

(** ** Dates *)

Module IsoDate.

(** The calendar fields of a [Date] in UTC. *)
Record DateTime : Type := mkDateTime {
  year : nat; month : nat; day : nat;
  hour : nat; minute : nat; second : nat; millis : nat
}.

Definition digit (d : nat) : ascii := ascii_of_nat (48 + d).

(** The [width] low decimal digits of [n], zero padded. *)
Fixpoint pad (width n : nat) : string :=
  match width with
  | 0 => EmptyString
  | S w => pad w (n / 10) +:+ String (digit (n mod 10)) EmptyString
  end.

(** Years after 9999 are written with a sign and six digits. *)
Definition iso_year (y : nat) : string :=
  if (y <? 100 * 100)%nat then pad 4 y else "+" +:+ pad 6 y.

Definition iso_date (d : DateTime) : string :=
  iso_year (year d) +:+ "-" +:+ pad 2 (month d) +:+ "-" +:+ pad 2 (day d).

(** [d.toISOString()]: [YYYY-MM-DDTHH:mm:ss.sssZ] *)
Definition toISOString (d : DateTime) : string :=
  iso_date d +:+ "T" +:+ pad 2 (hour d) +:+ ":" +:+ pad 2 (minute d)
    +:+ ":" +:+ pad 2 (second d) +:+ "." +:+ pad 3 (millis d) +:+ "Z".

(** [new Date().toISOString().replace(/:/g, '-').replace(/\..+/, '')],
    the [timestamp] of the backup handlers. *)
Definition timestamp (d : DateTime) : string :=
  strip_dot_rest (replace_colons (toISOString d)).

End IsoDate.
Export IsoDate.

(** ** The outside world *)

(** [path.join(dir, name)] for a directory and a single component. *)
Definition path_join (dir name : string) : string := dir +:+ "/" +:+ name.

(** The part of [s] after its last ["/"]: the base name of a POSIX path
    that does not end in a separator. *)
Fixpoint basename_from (s acc : string) : string :=
  match s with
  | EmptyString => acc
  | String c s' =>
      if Ascii.eqb c "/"%char then basename_from s' EmptyString
      else basename_from s' (acc +:+ String c EmptyString)
  end.

(** [path.basename(p)]: a [TypeError] unless [p] is a string. *)
Definition path_basename (p : jsval) : outcome string :=
  match p with
  | VStr s => Ok (basename_from s EmptyString)
  | _ => Exn TypeError
  end.

(** The OAuth2 client built by [new google.auth.OAuth2(...)]. *)
Record Auth : Type := mkAuth {
  auth_client_id : jsval; auth_client_secret : jsval;
  auth_redirect_uri : jsval; auth_refresh_token : jsval
}.

(** The client returned by [google.drive({ version: 'v3', auth })]. *)
Record Drive : Type := mkDrive { drive_auth : Auth }.

(** What [dialog.showOpenDialog] resolves to. *)
Record OpenDialogResult : Type := mkOpenDialogResult {
  canceled : bool; filePaths : list string
}.

(** Every call the handlers make outside their own code.  A cron task is
    known by its handle, its position in the library's list of tasks;
    the callback given to [cron.schedule] is the closure of
    [scheduleAutoBackup], determined by the [driveCredentials] it
    captured. *)
Inductive Cmd : Type :=
| AppGetPathUserData
| FsExistsSync (p : string)
| FsMkdirSyncRecursive (p : string)
| FsCreateReadStream (p : jsval)
| DateNow
| DbBackup (p : jsval)
| DbRestore (p : string)
| DbRepair
| DbClose
| DbQuery (sql : string) (params : list jsval)
| BcryptCompare (password hash : jsval)
| ShowOpenDialog (title defaultPath : string)
| GoogleOAuth2 (client_id client_secret redirect_uri : jsval)
| AuthSetCredentials (auth : Auth) (refresh_token : jsval)
| GoogleDrive (auth : Auth)
| DriveFilesCreate (drive : Drive) (name : string) (filePath : jsval)
| ConsoleLog (msg : string)
| ConsoleError (msg : string) (error : exn)
| ReadBackupSchedule
| WriteBackupSchedule (task : option nat)
| CronSchedule (pattern : string) (driveCredentials : jsval)
| TaskStop (task : nat)
| TaskStart (task : nat).

(** The type of what a call returns. *)
Definition resp (c : Cmd) : Type :=
  match c with
  | AppGetPathUserData => string
  | FsExistsSync _ => bool
  | FsMkdirSyncRecursive _ => unit
  | FsCreateReadStream _ => unit
  | DateNow => DateTime
  | DbBackup _ => jsval
  | DbRestore _ => unit
  | DbRepair => unit
  | DbClose => unit
  | DbQuery _ _ => list jsval
  | BcryptCompare _ _ => bool
  | ShowOpenDialog _ _ => OpenDialogResult
  | GoogleOAuth2 _ _ _ => Auth
  | AuthSetCredentials _ _ => Auth
  | GoogleDrive _ => Drive
  | DriveFilesCreate _ _ _ => jsval
  | ConsoleLog _ => unit
  | ConsoleError _ _ => unit
  | ReadBackupSchedule => option nat
  | WriteBackupSchedule _ => unit
  | CronSchedule _ _ => nat
  | TaskStop _ => unit
  | TaskStart _ => unit
  end.

(** The calls the handlers [await]: the handler is suspended while the
    call is in flight. *)
Definition awaited (c : Cmd) : bool :=
  match c with
  | DbBackup _ | DbRestore _ | DbRepair | DbQuery _ _ | BcryptCompare _ _
  | ShowOpenDialog _ _ | DriveFilesCreate _ _ _ => true
  | _ => false
  end.

(** The calls into the Storage Backend, [DatabaseService], that read or
    write the database file. *)
Definition storage_call (c : Cmd) : bool :=
  match c with
  | DbBackup _ | DbRestore _ | DbRepair => true
  | _ => false
  end.

(** A call is issued, and later it completes, with an error or without. *)
Inductive Event : Type :=
| Begin (c : Cmd)
| End (c : Cmd) (failure : option exn).

(** A task of the cron library. *)
Record CronTask : Type := mkCronTask {
  pattern : string;
  captured_credentials : jsval;
  running : bool
}.

(** The state the handlers act on: the file system, the cron library's
    tasks, the module variable [backupSchedule], and the history of
    calls (oldest first), which holds the console output too. *)
Record World : Type := mkWorld {
  userData : string;
  dirs : gset string;
  files : gset string;
  tasks : list CronTask;
  backupSchedule : option nat;
  trace : list Event
}.

Definition log (ev : Event) (w : World) : World :=
  mkWorld (userData w) (dirs w) (files w) (tasks w) (backupSchedule w)
          (trace w ++ [ev]).
Definition set_dirs (d : gset string) (w : World) : World :=
  mkWorld (userData w) d (files w) (tasks w) (backupSchedule w) (trace w).
Definition set_files (f : gset string) (w : World) : World :=
  mkWorld (userData w) (dirs w) f (tasks w) (backupSchedule w) (trace w).
Definition set_tasks (t : list CronTask) (w : World) : World :=
  mkWorld (userData w) (dirs w) (files w) t (backupSchedule w) (trace w).
Definition set_backupSchedule (b : option nat) (w : World) : World :=
  mkWorld (userData w) (dirs w) (files w) (tasks w) b (trace w).

Definition set_running (b : bool) (t : CronTask) : CronTask :=
  mkCronTask (pattern t) (captured_credentials t) b.

(** What the handlers cannot decide: the clock, which external calls
    fail and with what error, and what the successful ones answer.  Each
    choice may depend on the whole world, history included. *)
Record Env : Type := mkEnv {
  env_now : World -> DateTime;
  env_fail : World -> Cmd -> option exn;
  env_rows : World -> string -> list jsval -> list jsval;
  env_compare : World -> jsval -> jsval -> bool;
  env_dialog : World -> OpenDialogResult;
  env_response : World -> jsval
}.

Definition failure_of {A : Type} (o : outcome A) : option exn :=
  match o with
  | Ok _ => None
  | Exn e => Some e
  end.

(** A call that fails when the environment says so. *)
Definition fallible {A : Type} (env : Env) (c : Cmd) (w : World)
    (ok : outcome A * World) : outcome A * World :=
  match env_fail env w c with
  | Some e => (Exn e, w)
  | None => ok
  end.

Definition alter_task (f : CronTask -> CronTask) (task : nat) (w : World)
  : World :=
  set_tasks (alter f task (tasks w)) w.

(** Modelled from the spec: [DatabaseService.backup] of [database.cjs],
    which is not among the sources.  The Storage Backend exposes
    [backup(destinationPath) -> path]: a backup that succeeds leaves a
    file at the destination and returns its path; it can fail with an
    error, and a destination that is not a string is a [TypeError]. *)
Definition db_backup (env : Env) (p : jsval) (w : World)
  : outcome jsval * World :=
  match p with
  | VStr s =>
      fallible env (DbBackup p) w (Ok (VStr s), set_files ({[s]} ∪ files w) w)
  | _ => (Exn TypeError, w)
  end.

(** Modelled from the spec: [DatabaseService.restore] of [database.cjs],
    [restore(sourcePath) -> void], which can fail with an error. *)
Definition db_restore (env : Env) (p : string) (w : World)
  : outcome unit * World :=
  fallible env (DbRestore p) w (Ok tt, w).

(** Modelled from the spec: [DatabaseService.repair] of [database.cjs],
    [repair() -> void], which can fail with an error. *)
Definition db_repair (env : Env) (w : World) : outcome unit * World :=
  fallible env DbRepair w (Ok tt, w).

(** Modelled from the spec: [DatabaseService.close] of [database.cjs],
    [close() -> void]. *)
Definition db_close (env : Env) (w : World) : outcome unit * World :=
  fallible env DbClose w (Ok tt, w).

(** Modelled from the spec: [DatabaseService.query] of [database.cjs],
    the opaque [executeQuery]: it answers with rows, or fails. *)
Definition db_query (env : Env) (sql : string) (params : list jsval)
    (w : World) : outcome (list jsval) * World :=
  fallible env (DbQuery sql params) w (Ok (env_rows env w sql params), w).

(** The effect and the answer of a call.  The file system, the dialog,
    bcrypt, the Google client and the cron library are outside the
    repository: what they answer, and whether they fail, is the
    environment's choice.  The cron library: [schedule] registers a task
    and starts it, [start] and [stop] switch it on and off, and none of
    them fails on the three fixed patterns used here.  [mkdirSync]
    records the directory itself; its ancestors are those of
    [userData]. *)
Definition perform (env : Env) (c : Cmd) (w : World)
  : outcome (resp c) * World :=
  match c return outcome (resp c) * World with
  | AppGetPathUserData => (Ok (userData w), w)
  | FsExistsSync p => (Ok (bool_decide (p ∈ dirs w ∪ files w)), w)
  | FsMkdirSyncRecursive p =>
      fallible env (FsMkdirSyncRecursive p) w
        (Ok tt, set_dirs ({[p]} ∪ dirs w) w)
  | FsCreateReadStream p =>
      fallible env (FsCreateReadStream p) w (Ok tt, w)
  | DateNow => (Ok (env_now env w), w)
  | DbBackup p => db_backup env p w
  | DbRestore p => db_restore env p w
  | DbRepair => db_repair env w
  | DbClose => db_close env w
  | DbQuery sql params => db_query env sql params w
  | BcryptCompare password hash =>
      fallible env (BcryptCompare password hash) w
        (Ok (env_compare env w password hash), w)
  | ShowOpenDialog title defaultPath =>
      fallible env (ShowOpenDialog title defaultPath) w
        (Ok (env_dialog env w), w)
  | GoogleOAuth2 client_id client_secret redirect_uri =>
      fallible env (GoogleOAuth2 client_id client_secret redirect_uri) w
        (Ok (mkAuth client_id client_secret redirect_uri VUndefined), w)
  | AuthSetCredentials auth refresh_token =>
      fallible env (AuthSetCredentials auth refresh_token) w
        (Ok (mkAuth (auth_client_id auth) (auth_client_secret auth)
                    (auth_redirect_uri auth) refresh_token), w)
  | GoogleDrive auth =>
      fallible env (GoogleDrive auth) w (Ok (mkDrive auth), w)
  | DriveFilesCreate drive name filePath =>
      fallible env (DriveFilesCreate drive name filePath) w
        (Ok (env_response env w), w)
  | ConsoleLog _ => (Ok tt, w)
  | ConsoleError _ _ => (Ok tt, w)
  | ReadBackupSchedule => (Ok (backupSchedule w), w)
  | WriteBackupSchedule task => (Ok tt, set_backupSchedule task w)
  | CronSchedule pattern driveCredentials =>
      (Ok (length (tasks w)),
       set_tasks (tasks w ++ [mkCronTask pattern driveCredentials true]) w)
  | TaskStop task => (Ok tt, alter_task (set_running false) task w)
  | TaskStart task => (Ok tt, alter_task (set_running true) task w)
  end.

(** A call is logged when it is issued and when it completes. *)
Definition issue (c : Cmd) (w : World) : World := log (Begin c) w.

Definition complete (env : Env) (c : Cmd) (w : World)
  : outcome (resp c) * World :=
  let '(o, w') := perform env c w in (o, log (End c (failure_of o)) w').

Definition exec (env : Env) (c : Cmd) (w : World)
  : outcome (resp c) * World :=
  complete env c (issue c w).

(** ** Programs *)

(** A handler: it returns, throws, or makes a call and goes on with the
    call's outcome. *)
Inductive Prog (R : Type) : Type :=
| Ret (r : R)
| Throw (e : exn)
| Vis (c : Cmd) (k : outcome (resp c) -> Prog R).
Arguments Ret {R} r.
Arguments Throw {R} e.
Arguments Vis {R} c k.

Fixpoint bind {A B : Type} (m : Prog A) (f : A -> Prog B) : Prog B :=
  match m with
  | Ret a => f a
  | Throw e => Throw e
  | Vis c k => Vis c (fun o => bind (k o) f)
  end.

#[global] Instance Prog_ret : MRet Prog := @Ret.
#[global] Instance Prog_bind : MBind Prog := fun A B f m => bind m f.

(** [try { body } catch (error) { handler }] *)
Fixpoint try_catch {R : Type} (body : Prog R) (handler : exn -> Prog R)
  : Prog R :=
  match body with
  | Ret r => Ret r
  | Throw e => handler e
  | Vis c k => Vis c (fun o => try_catch (k o) handler)
  end.

(** A value or an exception, as a program. *)
Definition lift {A : Type} (o : outcome A) : Prog A :=
  match o with
  | Ok a => Ret a
  | Exn e => Throw e
  end.

Definition call (c : Cmd) : Prog (resp c) := Vis c lift.

(** Running a program to its end, every call completing as soon as it is
    issued. *)
Fixpoint run {R : Type} (env : Env) (p : Prog R) (w : World)
  : outcome R * World :=
  match p with
  | Ret r => (Ok r, w)
  | Throw e => (Exn e, w)
  | Vis c k => let '(o, w') := exec env c w in run env (k o) w'
  end.

(** ** The helpers of [main.cjs] *)

Definition prop (v : jsval) (k : string) : Prog jsval := lift (get_prop v k).

(** A parameter declared [= null]: [undefined] becomes [null]. *)
Definition default_null (v : jsval) : jsval :=
  match v with
  | VUndefined => VNull
  | _ => v
  end.

(** A parameter declared [= {}]. *)
Definition default_empty (v : jsval) : jsval :=
  match v with
  | VUndefined => VObj []
  | _ => v
  end.

Definition ensureBackupDirectory : Prog string :=
  userData ← call AppGetPathUserData;
  let backupDir := path_join userData "backups" in
  present ← call (FsExistsSync backupDir);
  (if present : bool then mret tt else call (FsMkdirSyncRecursive backupDir));;
  mret backupDir.

Definition setupGoogleDrive (credentials : jsval) : Prog (option Drive) :=
  try_catch
    (client_id ← prop credentials "client_id";
     client_secret ← prop credentials "client_secret";
     redirect_uri ← prop credentials "redirect_uri";
     auth ← call (GoogleOAuth2 client_id client_secret redirect_uri);
     refresh_token ← prop credentials "refresh_token";
     auth ← (if truthy refresh_token
             then call (AuthSetCredentials auth refresh_token)
             else mret auth);
     drive ← call (GoogleDrive auth);
     mret (Some drive))
    (fun error =>
       call (ConsoleError "Error setting up Google Drive:" error);;
       mret None).

Definition uploadToGoogleDrive (filePath : jsval) (fileName : string)
    (drive : Drive) : Prog jsval :=
  try_catch
    (call (FsCreateReadStream filePath);;
     response ← call (DriveFilesCreate drive fileName filePath);
     data ← prop response "data";
     prop data "id")
    (fun error =>
       call (ConsoleError "Error uploading to Google Drive:" error);;
       Throw error).

(** The [switch] of [scheduleAutoBackup]; [None] is its [default]. *)
Definition cronPattern (schedule : jsval) : option string :=
  if is_str schedule "daily" then Some "0 2 * * *"
  else if is_str schedule "weekly" then Some "0 2 * * 0"
  else if is_str schedule "monthly" then Some "0 2 1 * *"
  else None.

(** [`${v}`] for the values that reach the template. *)
Definition template (v : jsval) : string :=
  match v with
  | VStr s => s
  | _ => EmptyString
  end.

(** The callback [scheduleAutoBackup] hands to [cron.schedule]. *)
Definition autoBackupCallback (driveCredentials : jsval) : Prog unit :=
  try_catch
    (call (ConsoleLog "Starting automatic backup...");;
     backupDir ← ensureBackupDirectory;
     now ← call DateNow;
     let timestamp := timestamp now in
     let backupPath :=
       path_join backupDir ("gym-auto-backup-" +:+ timestamp +:+ ".db") in
     call (DbBackup (VStr backupPath));;
     (if truthy driveCredentials then
        drive ← setupGoogleDrive driveCredentials;
        match drive with
        | Some drive =>
            uploadToGoogleDrive (VStr backupPath)
              ("gym-auto-backup-" +:+ timestamp +:+ ".db") drive;;
            call (ConsoleLog "Backup uploaded to Google Drive successfully")
        | None => mret tt
        end
      else mret tt);;
     call (ConsoleLog "Automatic backup completed successfully"))
    (fun error => call (ConsoleError "Automatic backup failed:" error)).

Definition scheduleAutoBackup (schedule driveCredentials : jsval)
  : Prog unit :=
  let driveCredentials := default_null driveCredentials in
  current ← call ReadBackupSchedule;
  match current with
  | Some task => call (TaskStop task);; call (WriteBackupSchedule None)
  | None => mret tt
  end;;
  if truthy schedule && negb (is_str schedule "manual") then
    match cronPattern schedule with
    | None => mret tt
    | Some cronPattern =>
        task ← call (CronSchedule cronPattern driveCredentials);
        call (WriteBackupSchedule (Some task));;
        call (TaskStart task);;
        call (ConsoleLog ("Automatic backup scheduled: " +:+ template schedule))
    end
  else mret tt.

(** ** The IPC handlers *)

Definition error_result (error : exn) : jsval :=
  VObj [("error", VStr (message error))].

(** [ipcMain.handle('backup-database', ...)] *)
Definition backup_database : Prog jsval :=
  try_catch
    (backupDir ← ensureBackupDirectory;
     now ← call DateNow;
     let timestamp := timestamp now in
     let backupPath :=
       path_join backupDir ("gym-backup-" +:+ timestamp +:+ ".db") in
     result ← call (DbBackup (VStr backupPath));
     mret (VObj [("success", VBool true); ("path", result)]))
    (fun error =>
       call (ConsoleError "Database backup error:" error);;
       mret (error_result error)).

(** [ipcMain.handle('restore-database', ...)] *)
Definition restore_database : Prog jsval :=
  try_catch
    (backupDir ← ensureBackupDirectory;
     result ← call (ShowOpenDialog "استعادة قاعدة البيانات" backupDir);
     match canceled result, filePaths result with
     | false, backupPath :: _ =>
         call (DbRestore backupPath);;
         mret (VObj [("success", VBool true); ("needRestart", VBool true)])
     | _, _ => mret (VObj [("canceled", VBool true)])
     end)
    (fun error =>
       call (ConsoleError "Database restore error:" error);;
       mret (error_result error)).

(** [ipcMain.handle('repair-database', ...)] *)
Definition repair_database : Prog jsval :=
  try_catch
    (call DbRepair;;
     mret (VObj [("success", VBool true)]))
    (fun error =>
       call (ConsoleError "Database repair error:" error);;
       mret (error_result error)).

Definition login_query : string :=
  "SELECT u.*, g.name as gym_name, g.type as gym_type FROM users u JOIN gyms g ON u.gym_id = g.id WHERE u.username = ? AND u.is_active = 1".

Definition login_rejected : jsval :=
  VObj [("success", VBool false);
        ("message", VStr "اسم المستخدم أو كلمة المرور غير صحيحة.")].

Definition login_failed : jsval :=
  VObj [("success", VBool false);
        ("message", VStr "حدث خطأ أثناء تسجيل الدخول.")].

(** [ipcMain.handle('login', ...)] *)
Definition login (username password : jsval) : Prog jsval :=
  try_catch
    (users ← call (DbQuery login_query [username]);
     match users with
     | [] => mret login_rejected
     | userData :: _ =>
         password_hash ← prop userData "password_hash";
         isValidPassword ← call (BcryptCompare password password_hash);
         if isValidPassword : bool then
           userData ← lift (delete_prop userData "password_hash");
           mret (VObj [("success", VBool true); ("user", userData)])
         else mret login_rejected
     end)
    (fun error =>
       call (ConsoleError "Login error:" error);;
       mret login_failed).

(** [ipcMain.handle('backup-database-enhanced', ...)] *)
Definition backup_database_enhanced (options : jsval) : Prog jsval :=
  let options := default_empty options in
  try_catch
    (customPath ← prop options "customPath";
     backupPath ←
       (if truthy customPath then mret customPath
        else
          backupDir ← ensureBackupDirectory;
          now ← call DateNow;
          let timestamp := timestamp now in
          mret (VStr (path_join backupDir
                        ("gym-backup-" +:+ timestamp +:+ ".db"))));
     call (DbBackup backupPath);;
     uploadToDrive ← prop options "uploadToDrive";
     driveCredentials ← prop options "driveCredentials";
     driveFileId ←
       (if truthy uploadToDrive && truthy driveCredentials then
          try_catch
            (drive ← setupGoogleDrive driveCredentials;
             match drive with
             | Some drive =>
                 fileName ← lift (path_basename backupPath);
                 uploadToGoogleDrive backupPath fileName drive
             | None => mret VNull
             end)
            (fun driveError =>
               call (ConsoleError "Google Drive upload failed:" driveError);;
               mret VNull)
        else mret VNull);
     mret (VObj [("success", VBool true); ("path", backupPath);
                 ("driveFileId", driveFileId)]))
    (fun error =>
       call (ConsoleError "Enhanced backup error:" error);;
       mret (error_result error)).

(** [ipcMain.handle('setup-auto-backup', ...)] *)
Definition setup_auto_backup (schedule driveCredentials : jsval)
  : Prog jsval :=
  let driveCredentials := default_null driveCredentials in
  try_catch
    (scheduleAutoBackup schedule driveCredentials;;
     mret (VObj [("success", VBool true)]))
    (fun error =>
       call (ConsoleError "Setup auto backup error:" error);;
       mret (error_result error)).

(** [app.on('will-quit', ...)] *)
Definition will_quit : Prog unit :=
  current ← call ReadBackupSchedule;
  match current with
  | Some task => call (TaskStop task)
  | None => mret tt
  end;;
  call DbClose.

(** ** The cron library *)

Module NodeCron.

(** The minute at which the library looks at its tasks, in local time;
    [dayOfWeek] counts from Sunday, which is 0. *)
Record LocalTime : Type := mkLocalTime {
  lt_minute : nat; lt_hour : nat; lt_dayOfMonth : nat;
  lt_month : nat; lt_dayOfWeek : nat
}.

(** A field of a five-field expression, as far as the three patterns of
    [scheduleAutoBackup] need it: [*] or a number. *)
Inductive Field : Type :=
| Any
| Exactly (n : nat).

Fixpoint split_spaces (s cur : string) : list string :=
  match s with
  | EmptyString => [cur]
  | String c s' =>
      if Ascii.eqb c " "%char then cur :: split_spaces s' EmptyString
      else split_spaces s' (cur +:+ String c EmptyString)
  end.

Definition digit_value (c : ascii) : option nat :=
  let n := nat_of_ascii c in
  if ((48 <=? n) && (n <=? 57))%nat then Some (n - 48)%nat else None.

Fixpoint parse_number (s : string) (acc : nat) : option nat :=
  match s with
  | EmptyString => Some acc
  | String c s' =>
      match digit_value c with
      | Some d => parse_number s' (10 * acc + d)%nat
      | None => None
      end
  end.

Definition parse_field (s : string) : option Field :=
  if String.eqb s "*" then Some Any
  else match s with
       | EmptyString => None
       | _ => Exactly <$> parse_number s 0
       end.

Definition field_matches (f : Field) (n : nat) : bool :=
  match f with
  | Any => true
  | Exactly m => Nat.eqb m n
  end.

(** [minute hour day-of-month month day-of-week]: the task is due in a
    minute that every field matches. *)
Definition due (pattern : string) (t : LocalTime) : bool :=
  match mapM parse_field (split_spaces pattern EmptyString) with
  | Some [mi; h; dom; mon; dow] =>
      field_matches mi (lt_minute t) && field_matches h (lt_hour t)
      && field_matches dom (lt_dayOfMonth t) && field_matches mon (lt_month t)
      && field_matches dow (lt_dayOfWeek t)
  | _ => false
  end.

End NodeCron.
Export NodeCron.

(** The tasks whose callback the library invokes at [t]. *)
Definition due_tasks (t : LocalTime) (w : World) : list CronTask :=
  List.filter (fun task => running task && due (pattern task) t) (tasks w).

Fixpoint run_callbacks (env : Env) (cbs : list CronTask) (w : World)
  : World :=
  match cbs with
  | [] => w
  | task :: cbs' =>
      run_callbacks env cbs'
        (snd (run env (autoBackupCallback (captured_credentials task)) w))
  end.

(** One look of the library at its tasks, each due callback running to
    its end before the next. *)
Definition cron_tick (env : Env) (t : LocalTime) (w : World) : World :=
  run_callbacks env (due_tasks t w) w.

Definition cron_ticks (env : Env) (ts : list LocalTime) (w : World) : World :=
  fold_left (fun w t => cron_tick env t w) ts w.

(** The state of the process when the application starts. *)
Definition initial (userData : string) (dirs files : gset string) : World :=
  mkWorld userData dirs files [] None [].

(** The running tasks. *)
Definition active (w : World) : list CronTask :=
  List.filter running (tasks w).

(** Every running task is the one [backupSchedule] holds. *)
Definition schedule_owned (w : World) : Prop :=
  forall (task : nat) (t : CronTask),
    tasks w !! task = Some t -> running t = true ->
    backupSchedule w = Some task.

(** The tasks once [scheduleAutoBackup] has stopped the task that
    [backupSchedule] holds. *)
Definition stop_current (w : World) : list CronTask :=
  match backupSchedule w with
  | Some task => alter (set_running false) task (tasks w)
  | None => tasks w
  end.

(** The events logged between [w] and a later [w']. *)
Definition new_events (w w' : World) : list Event :=
  drop (length (trace w)) (trace w').

(** The frequencies that start a trigger, and the frequencies the
    specification lists. *)
Definition recurring (schedule : jsval) : bool :=
  is_str schedule "daily" || is_str schedule "weekly"
  || is_str schedule "monthly".

Definition listed_frequency (schedule : jsval) : bool :=
  is_str schedule "manual" || recurring schedule.

Definition is_stop_of (task : nat) (ev : Event) : bool :=
  match ev with
  | Begin (TaskStop task') => Nat.eqb task task'
  | _ => false
  end.

Definition is_upload (ev : Event) : bool :=
  match ev with
  | Begin (DriveFilesCreate _ _ _) => true
  | _ => false
  end.

Definition is_callback_start (ev : Event) : bool :=
  match ev with
  | Begin (ConsoleLog msg) => String.eqb msg "Starting automatic backup..."
  | _ => false
  end.

Definition count (f : Event -> bool) (evs : list Event) : nat :=
  length (List.filter f evs).

(** A quiet environment, for examples: nothing fails, the clock stands
    at 2024-01-15 10:30:45.123 UTC, the user picks [picked] in the file
    dialog, and Drive answers with the identifier ["abc"]. *)
Definition quiet_env : Env :=
  mkEnv (fun _ => mkDateTime 2024 1 15 10 30 45 123)
        (fun _ _ => None)
        (fun _ _ _ => [])
        (fun _ _ _ => true)
        (fun _ => mkOpenDialogResult false ["/backups/old.db"])
        (fun _ => VObj [("data", VObj [("id", VStr "abc")])]).

(** An environment in which exactly the calls that [failing] picks fail,
    with ["boom"]. *)
Definition failing_env (failing : Cmd -> bool) : Env :=
  mkEnv (env_now quiet_env)
        (fun _ c => if failing c then Some (Err "boom") else None)
        (env_rows quiet_env) (env_compare quiet_env)
        (env_dialog quiet_env) (env_response quiet_env).

Definition fresh_world : World := initial "/home/gym" ∅ ∅.

(** The user row of the examples, as the login query returns it. *)
Definition admin_row : jsval :=
  VObj [("id", VNum 1); ("username", VStr "admin");
        ("password_hash", VStr "$2a$12$abcdefghijklmnopqrstuv");
        ("full_name", VStr "Admin"); ("role", VStr "admin");
        ("gym_id", VNum 1); ("is_active", VNum 1);
        ("gym_name", VStr "Gym"); ("gym_type", VStr "male")].

(** An environment in which the login query finds [admin_row] and the
    password matches. *)
Definition login_env : Env :=
  mkEnv (env_now quiet_env) (env_fail quiet_env)
        (fun _ _ _ => [admin_row]) (fun _ _ _ => true)
        (env_dialog quiet_env) (env_response quiet_env).

(** The calls of the local side of a backup: the Storage Backend and the
    creation of the backup directory. *)
Definition local_call (c : Cmd) : bool :=
  match c with
  | DbBackup _ | DbRestore _ | DbRepair | FsMkdirSyncRecursive _ => true
  | _ => false
  end.

(** The calls of the remote sync: building the Drive client and the
    upload. *)
Definition remote_call (c : Cmd) : bool :=
  match c with
  | GoogleOAuth2 _ _ _ | AuthSetCredentials _ _ | GoogleDrive _
  | FsCreateReadStream _ | DriveFilesCreate _ _ _ => true
  | _ => false
  end.

(** The operations of the request façade that the specification names. *)
Inductive Facade : Type :=
| BackupDatabase
| BackupDatabaseEnhanced (options : jsval)
| RestoreDatabase
| RepairDatabase
| SetupAutoBackup (schedule driveCredentials : jsval).

Definition handler (op : Facade) : Prog jsval :=
  match op with
  | BackupDatabase => backup_database
  | BackupDatabaseEnhanced options => backup_database_enhanced options
  | RestoreDatabase => restore_database
  | RepairDatabase => repair_database
  | SetupAutoBackup schedule driveCredentials =>
      setup_auto_backup schedule driveCredentials
  end.

(** What the error policy of the façade asks of one run, from [w] to
    [w'] with result [res]: a failure of a local call is the result,
    as an error object carrying its message; a failure of a remote call
    leaves a successful result with a [null] [driveFileId] and an error
    line on the console. *)
Definition facade_ok (w : World) (res : jsval) (w' : World) : Prop :=
  (forall c e, local_call c = true ->
               In (End c (Some e)) (new_events w w') ->
               res = error_result e)
  /\ (forall c e, remote_call c = true ->
                  In (End c (Some e)) (new_events w w') ->
                  get_prop res "success" = Ok (VBool true)
                  /\ get_prop res "driveFileId" = Ok VNull
                  /\ exists msg e', In (Begin (ConsoleError msg e'))
                                       (new_events w w')).

(** What a run of the enhanced backup owes to a local backup that
    succeeded in it: the destination is a path, the file is there, and
    the result is the success object with that path. *)
Definition local_backup_kept (w : World) (res : jsval) (w' : World) : Prop :=
  forall p, In (End (DbBackup p) None) (new_events w w') ->
    exists path driveFileId,
      p = VStr path /\ path ∈ files w'
      /\ res = VObj [("success", VBool true); ("path", VStr path);
                     ("driveFileId", driveFileId)].

(** Options that ask for an upload, with credentials. *)
Definition upload_options : jsval :=
  VObj [("uploadToDrive", VBool true);
        ("driveCredentials",
         VObj [("client_id", VStr "id"); ("client_secret", VStr "secret");
               ("redirect_uri", VStr "http://localhost");
               ("refresh_token", VStr "token")])].

Definition is_drive_create (c : Cmd) : bool :=
  match c with
  | DriveFilesCreate _ _ _ => true
  | _ => false
  end.

Definition is_db_backup (c : Cmd) : bool :=
  match c with
  | DbBackup _ => true
  | _ => false
  end.

(** The obligations of [facade_ok] and [local_backup_kept], event by
    event. *)
Definition local_failure_reported (res : jsval) (ev : Event) : Prop :=
  match ev with
  | End c (Some e) => local_call c = true -> res = error_result e
  | _ => True
  end.

Definition remote_failure_absorbed (res : jsval) (evs : list Event)
    (ev : Event) : Prop :=
  match ev with
  | End c (Some e) =>
      remote_call c = true ->
      get_prop res "success" = Ok (VBool true)
      /\ get_prop res "driveFileId" = Ok VNull
      /\ exists msg e', In (Begin (ConsoleError msg e')) evs
  | _ => True
  end.

Definition backup_kept (res : jsval) (w' : World) (ev : Event) : Prop :=
  match ev with
  | End (DbBackup p) None =>
      exists path driveFileId,
        p = VStr path /\ path ∈ files w'
        /\ res = VObj [("success", VBool true); ("path", VStr path);
                       ("driveFileId", driveFileId)]
  | _ => True
  end.

(** Characters that are neither [:] nor [.] nor a line terminator. *)
Definition plain (c : ascii) : bool :=
  negb (Ascii.eqb c ":"%char) && negb (Ascii.eqb c "."%char)
  && negb (is_line_terminator c).

Fixpoint all_plain (s : string) : bool :=
  match s with
  | EmptyString => true
  | String c s' => plain c && all_plain s'
  end.

(** [YYYY-MM-DDTHH-mm-ss]: the ISO string to the second, dashes for the
    colons. *)
Definition iso_seconds (d : DateTime) : string :=
  iso_date d +:+ "T" +:+ pad 2 (hour d) +:+ "-" +:+ pad 2 (minute d)
    +:+ "-" +:+ pad 2 (second d).

(** The ISO string with nothing but its colons replaced, the timestamp
    that the specification describes. *)
Definition iso_colons_replaced (d : DateTime) : string :=
  replace_colons (toISOString d).

(** The path of a backup file: in the [backups] directory under
    [userData], named by a prefix and the timestamp of a date. *)
Definition backup_path (w : World) (prefix : string) (d : DateTime) : string :=
  path_join (path_join (userData w) "backups")
            (prefix +:+ timestamp d +:+ ".db").

(** A backup that is asked of the Storage Backend goes to a
    [backup_path], and the backup directory exists by then. *)
Definition named (prefix : string) (w w' : World) (ev : Event) : Prop :=
  match ev with
  | Begin (DbBackup p) =>
      (exists d, p = VStr (backup_path w prefix d))
      /\ path_join (userData w) "backups" ∈ dirs w' ∪ files w'
  | _ => True
  end.

(** A call that failed left an error line on the console. *)
Definition failure_logged (evs : list Event) (ev : Event) : Prop :=
  match ev with
  | End _ (Some _) => exists msg e', In (Begin (ConsoleError msg e')) evs
  | _ => True
  end.

(** An upload happens only with credentials. *)
Definition upload_has_credentials (creds : jsval) (ev : Event) : Prop :=
  match ev with
  | Begin (DriveFilesCreate _ _ _) => truthy creds = true
  | _ => True
  end.

(** No call failed, except perhaps the upload itself. *)
Definition nothing_failed_before_upload (ev : Event) : bool :=
  match ev with
  | End c (Some _) => is_drive_create c
  | _ => true
  end.

(** A manual backup that succeeded is the result, and its file is
    there. *)
Definition manual_backup_returned (res : jsval) (w' : World) (ev : Event)
  : Prop :=
  match ev with
  | End (DbBackup p) None =>
      exists path,
        p = VStr path /\ path ∈ files w'
        /\ res = VObj [("success", VBool true); ("path", VStr path)]
  | _ => True
  end.

(** 02:00 on Monday, 15 January, and on Tuesday, 16 January. *)
Definition monday_2am : LocalTime := mkLocalTime 0 2 15 1 1.
Definition tuesday_2am : LocalTime := mkLocalTime 0 2 16 1 2.

(** A world in which the daily backup is scheduled, without
    credentials. *)
Definition daily_world : World :=
  snd (run quiet_env (scheduleAutoBackup (VStr "daily") VNull) fresh_world).

(** Credentials as the renderer passes them. *)
Definition upload_credentials : jsval :=
  VObj [("client_id", VStr "id"); ("client_secret", VStr "secret");
        ("redirect_uri", VStr "http://localhost");
        ("refresh_token", VStr "token")].

(** ** The event loop *)

(** A handler that was started: it is done, or it is suspended at an
    [await], its call in flight. *)
Inductive Task (R : Type) : Type :=
| Done (o : outcome R)
| Waiting (c : Cmd) (k : outcome (resp c) -> Prog R).
Arguments Done {R} o.
Arguments Waiting {R} c k.

(** A handler runs without interruption up to its next [await]: there
    the call is issued and the handler is suspended. *)
Fixpoint advance {R : Type} (env : Env) (p : Prog R) (w : World)
  : Task R * World :=
  match p with
  | Ret r => (Done (Ok r), w)
  | Throw e => (Done (Exn e), w)
  | Vis c k =>
      if awaited c then (Waiting c k, issue c w)
      else let '(o, w') := exec env c w in advance env (k o) w'
  end.

(** The call in flight completes, and the handler goes on to its next
    [await]. *)
Definition resume {R : Type} (env : Env) (t : Task R) (w : World)
  : Task R * World :=
  match t with
  | Done o => (Done o, w)
  | Waiting c k => let '(o, w') := complete env c w in advance env (k o) w'
  end.

(** The call in flight completes, and so does every later call of the
    handler as soon as it is issued. *)
Definition settle {R : Type} (env : Env) (t : Task R) (w : World)
  : outcome R * World :=
  match t with
  | Done o => (o, w)
  | Waiting c k => let '(o, w') := complete env c w in run env (k o) w'
  end.

(** The callback of a task as the cron library sees it: an [async]
    function, whose promise resolves to [undefined]. *)
Definition callback_handler (driveCredentials : jsval) : Prog jsval :=
  autoBackupCallback driveCredentials;; mret VUndefined.

(** The process: the world, and the handlers that were started. *)
Record Loop : Type := mkLoop {
  world : World;
  pool : list (Task jsval)
}.

(** What the event loop takes up next: a request of the renderer, a
    look of the cron library at its tasks, or the completion of the
    call on which the handler at a position of the pool waits.  Nothing
    in [main.cjs] orders these: there is no lock and no queue. *)
Inductive Turn : Type :=
| Invoke (op : Facade)
| Tick (t : LocalTime)
| Settle (position : nat).

Definition spawn (env : Env) (p : Prog jsval) (l : Loop) : Loop :=
  let '(t, w') := advance env p (world l) in mkLoop w' (pool l ++ [t]).

Fixpoint start_callbacks (env : Env) (cbs : list CronTask) (l : Loop)
  : Loop :=
  match cbs with
  | [] => l
  | task :: cbs' =>
      start_callbacks env cbs'
        (spawn env (callback_handler (captured_credentials task)) l)
  end.

Definition turn (env : Env) (tn : Turn) (l : Loop) : Loop :=
  match tn with
  | Invoke op => spawn env (handler op) l
  | Tick t => start_callbacks env (due_tasks t (world l)) l
  | Settle position =>
      match pool l !! position with
      | Some t =>
          let '(t', w') := resume env t (world l) in
          mkLoop w' (<[position := t']> (pool l))
      | None => l
      end
  end.

Definition turns (env : Env) (tns : list Turn) (l : Loop) : Loop :=
  fold_left (fun l tn => turn env tn l) tns l.

(** The number of Storage Backend calls in flight after a history that
    began with [n] of them in flight. *)
Fixpoint in_flight_after (n : nat) (tr : list Event) : nat :=
  match tr with
  | [] => n
  | Begin c :: tr' =>
      in_flight_after (if storage_call c then S n else n) tr'
  | End c _ :: tr' =>
      in_flight_after (if storage_call c then Nat.pred n else n) tr'
  end.

(** Serialized: no Storage Backend call begins while another is in
    flight. *)
Fixpoint serialized_from (n : nat) (tr : list Event) : bool :=
  match tr with
  | [] => true
  | Begin c :: tr' =>
      if storage_call c then Nat.eqb n 0 && serialized_from (S n) tr'
      else serialized_from n tr'
  | End c _ :: tr' =>
      serialized_from (if storage_call c then Nat.pred n else n) tr'
  end.

Definition serialized (tr : list Event) : bool := serialized_from 0 tr.

Definition is_storage_event (ev : Event) : bool :=
  match ev with
  | Begin c | End c _ => storage_call c
  end.

(** The process after a restore was requested and the user has picked a
    file: the restore of the Storage Backend is in flight. *)
Definition restoring : Loop :=
  turns quiet_env [Invoke RestoreDatabase; Settle 0] (mkLoop daily_world []).

Definition is_mkdir (ev : Event) : bool :=
  match ev with
  | Begin (FsMkdirSyncRecursive _) => true
  | _ => false
  end.

(** A world whose backup directory exists. *)
Definition prepared_world : World :=
  snd (run quiet_env ensureBackupDirectory fresh_world).

Definition is_setup_error (ev : Event) : bool :=
  match ev with
  | Begin (ConsoleError msg _) =>
      String.eqb msg "Error setting up Google Drive:"
  | _ => false
  end.

Definition is_upload_error (ev : Event) : bool :=
  match ev with
  | Begin (ConsoleError msg _) =>
      String.eqb msg "Error uploading to Google Drive:"
  | _ => false
  end.

Definition is_set_credentials (ev : Event) : bool :=
  match ev with
  | Begin (AuthSetCredentials _ _) => true
  | _ => false
  end.

Definition has_failed (ev : Event) : bool :=
  match ev with
  | End _ (Some _) => true
  | _ => false
  end.

(** [options.k] of the enhanced backup, [undefined] when it cannot be
    read. *)
Definition option_of (options : jsval) (k : string) : jsval :=
  match get_prop (default_empty options) k with
  | Ok v => v
  | Exn _ => VUndefined
  end.

Definition is_remote_begin (ev : Event) : bool :=
  match ev with
  | Begin c => remote_call c
  | _ => false
  end.

Definition is_backup_failure (ev : Event) : bool :=
  match ev with
  | End (DbBackup _) (Some _) => true
  | _ => false
  end.

(** With a custom path, the backup goes there and the default path is
    not even computed. *)
Definition custom_path_only (customPath : jsval) (ev : Event) : Prop :=
  match ev with
  | Begin (DbBackup p) => p = customPath
  | Begin AppGetPathUserData | Begin (FsExistsSync _)
  | Begin (FsMkdirSyncRecursive _) | Begin DateNow => False
  | _ => True
  end.

(** What goes to Drive is the file that was just backed up: the stream
    that is read and the upload are of the path of a backup that
    succeeded; and when the handler chose the path itself, the upload is
    named as the file is named in the backup directory. *)
Definition uploads_the_backup (w : World) (customPath : jsval)
    (evs : list Event) (ev : Event) : Prop :=
  match ev with
  | Begin (FsCreateReadStream p) => In (End (DbBackup p) None) evs
  | Begin (DriveFilesCreate _ name p) =>
      In (End (DbBackup p) None) evs
      /\ In (End (FsCreateReadStream p) None) evs
      /\ (truthy customPath = false ->
          p = VStr (path_join (path_join (userData w) "backups") name))
  | _ => True
  end.

(** A failed backup is what the caller is told. *)
Definition failure_is_result (res : jsval) (ev : Event) : Prop :=
  match ev with
  | End (DbBackup _) (Some e) => res = error_result e
  | _ => True
  end.

(** Options with a custom path and no upload. *)
Definition custom_options : jsval :=
  VObj [("customPath", VStr "/media/usb/gym.db")].

Definition is_restore_begin (ev : Event) : bool :=
  match ev with
  | Begin (DbRestore _) => true
  | _ => false
  end.

(** Every restore that is started is of the file [p]. *)
Definition restores_only (p : string) (ev : Event) : Prop :=
  match ev with
  | Begin (DbRestore q) => q = p
  | _ => True
  end.

Definition restore_canceled : jsval := VObj [("canceled", VBool true)].

Definition restore_done : jsval :=
  VObj [("success", VBool true); ("needRestart", VBool true)].

(** An environment in which the user closes the file dialog. *)
Definition canceling_env : Env :=
  mkEnv (env_now quiet_env) (env_fail quiet_env) (env_rows quiet_env)
        (env_compare quiet_env)
        (fun _ => mkOpenDialogResult true [])
        (env_response quiet_env).

Definition is_login_error (ev : Event) : bool :=
  match ev with
  | Begin (ConsoleError msg _) => String.eqb msg "Login error:"
  | _ => false
  end.

Definition is_compare (ev : Event) : bool :=
  match ev with
  | Begin (BcryptCompare _ _) => true
  | _ => false
  end.

(** The calls of a login: the one fixed query with the user name as its
    only parameter, the comparison of the given password with the hash of
    the first row, and the console. *)
Definition login_call (username password : jsval) (rows : list jsval)
    (ev : Event) : Prop :=
  match ev with
  | Begin (DbQuery sql params) => sql = login_query /\ params = [username]
  | Begin (BcryptCompare p h) =>
      p = password
      /\ exists row rest,
           rows = row :: rest /\ get_prop row "password_hash" = Ok h
  | Begin (ConsoleError _ _) => True
  | Begin _ => False
  | End _ _ => True
  end.

Definition login_success (user : jsval) : jsval :=
  VObj [("success", VBool true); ("user", user)].

(** An environment in which the login query finds [admin_row] for the
    user name ["admin"] and nothing for any other, and the password does
    not match. *)
Definition wrong_password_env : Env :=
  mkEnv (env_now quiet_env) (env_fail quiet_env)
        (fun _ _ params =>
           match params with
           | [VStr name] =>
               if String.eqb name "admin" then [admin_row] else []
           | _ => []
           end)
        (fun _ _ _ => false)
        (env_dialog quiet_env) (env_response quiet_env).

(** ** Footprints *)

(** [p] makes only calls that [allowed] admits, whatever the calls
    answer. *)
Fixpoint calls_only {R : Type} (allowed : Cmd -> bool) (p : Prog R) : Prop :=
  match p with
  | Ret _ | Throw _ => True
  | Vis c k => allowed c = true /\ forall o, calls_only allowed (k o)
  end.

Definition task_calls_only {R : Type} (allowed : Cmd -> bool) (t : Task R)
  : Prop :=
  match t with
  | Done _ => True
  | Waiting c k => allowed c = true /\ forall o, calls_only allowed (k o)
  end.

Definition event_cmd (ev : Event) : Cmd :=
  match ev with
  | Begin c | End c _ => c
  end.

(** The calls that read or change [backupSchedule] or a cron task. *)
Definition schedule_call (c : Cmd) : bool :=
  match c with
  | ReadBackupSchedule | WriteBackupSchedule _ | CronSchedule _ _
  | TaskStop _ | TaskStart _ => true
  | _ => false
  end.

Definition off_schedule (c : Cmd) : bool := negb (schedule_call c).

Definition never_awaited (c : Cmd) : bool := negb (awaited c).

(** The calls of [ensureBackupDirectory]. *)
Definition directory_call (c : Cmd) : bool :=
  match c with
  | AppGetPathUserData | FsExistsSync _ | FsMkdirSyncRecursive _ => true
  | _ => false
  end.

(** The calls each operation of the façade can make. *)
Definition footprint (op : Facade) (c : Cmd) : bool :=
  match c with
  | ConsoleError _ _ => true
  | _ =>
      match op with
      | BackupDatabase =>
          directory_call c
          || match c with DateNow | DbBackup _ => true | _ => false end
      | BackupDatabaseEnhanced _ =>
          directory_call c || remote_call c
          || match c with DateNow | DbBackup _ => true | _ => false end
      | RestoreDatabase =>
          directory_call c
          || match c with
             | ShowOpenDialog _ _ | DbRestore _ => true
             | _ => false
             end
      | RepairDatabase => match c with DbRepair => true | _ => false end
      | SetupAutoBackup _ _ =>
          schedule_call c
          || match c with ConsoleLog _ => true | _ => false end
      end
  end.

(** The calls the callback of a cron task can make. *)
Definition callback_footprint (c : Cmd) : bool :=
  footprint BackupDatabase c || remote_call c
  || match c with ConsoleLog _ => true | _ => false end.

(** The handlers in the pool make no call on the schedule. *)
Definition pool_off_schedule (l : Loop) : Prop :=
  Forall (task_calls_only off_schedule) (pool l).

Definition is_close (ev : Event) : bool :=
  match ev with
  | Begin DbClose => true
  | _ => false
  end.

(** A date of the years 0 to 9999, its fields in their ranges. *)
Definition calendar (d : DateTime) : Prop :=
  year d < 100 * 100 /\ month d < 100 /\ day d < 100
  /\ hour d < 100 /\ minute d < 100 /\ second d < 100.

(** A date to the second. *)
Definition to_second (d : DateTime) : list nat :=
  [year d; month d; day d; hour d; minute d; second d].

(** ** The rest of the main process *)

(** The handlers for windows, dialogs, users and raw queries call more
    of the outside than the backup handlers do.  Their calls are those
    of the backup handlers ([Core]) and the ones below; they run against
    a [Desk], the world of the backup handlers with the window beside
    it. *)

(** What a handler returns or prints besides a value: the rows of a
    query, and objects that hold rows. *)
Inductive Reply : Type :=
| Plain (v : jsval)
| Rows (rows : list jsval)
| Fields (fields : list (string * Reply)).

(** [a || b] *)
Definition or_else (a b : jsval) : jsval := if truthy a then a else b.

(** The [buttons] of a message box: what the caller gave, or an array
    literal of the handler. *)
Inductive Buttons : Type :=
| Given (v : jsval)
| Labels (labels : list string).

(** The options object of [dialog.showMessageBox]; [None] is a key the
    object literal does not have. *)
Record MessageBox : Type := mkMessageBox {
  box_type : jsval; box_title : jsval; box_message : jsval;
  box_detail : option jsval; box_buttons : Buttons;
  box_defaultId : option jsval; box_cancelId : option jsval
}.

(** What [dialog.showSaveDialog] resolves to. *)
Record SaveDialogResult : Type := mkSaveDialogResult {
  save_canceled : bool; save_filePath : jsval
}.

(** The calls; [parent] is the [mainWindow] argument of a dialog, set or
    not. *)
Inductive Call : Type :=
| Core (c : Cmd)
| ReadMainWindow
| WindowMinimize
| WindowIsMaximized
| WindowMaximize
| WindowUnmaximize
| WindowClose
| ShowMessageBox (parent : bool) (box : MessageBox)
| ShowMessageBoxSync (parent : bool) (box : MessageBox)
| ShowErrorBox (title content : string)
| ShowSaveDialog (parent : bool) (title defaultPath : string)
| ShowOpenDialogOn (parent : bool) (title defaultPath : string)
| BcryptHash (password : jsval) (saltRounds : Z)
| DbRun (sql : string) (params : list jsval)
| DbQueryAny (query params : jsval)
| DbRunAny (query params : jsval)
| ConsoleLogArgs (args : list Reply)
| AppGetVersion
| ProcessPlatform
| AppQuit
| AppRelaunch
| AppExit
| PreventDefault.

Definition answer (c : Call) : Type :=
  match c with
  | Core c' => resp c'
  | ReadMainWindow | WindowIsMaximized => bool
  | ShowMessageBox _ _ => jsval
  | ShowMessageBoxSync _ _ => Z
  | ShowSaveDialog _ _ _ => SaveDialogResult
  | ShowOpenDialogOn _ _ _ => OpenDialogResult
  | BcryptHash _ _ => string
  | DbRun _ _ => jsval
  | DbQueryAny _ _ | DbRunAny _ _ => Reply
  | AppGetVersion | ProcessPlatform => string
  | _ => unit
  end.

(** A call that was made, and the error it ended with, if any. *)
Inductive Entry : Type :=
| Called (c : Call) (failure : option exn).

(** The world of the backup handlers, the module variable [mainWindow]
    (set or not), whether the window is maximized, and the calls made so
    far, oldest first. *)
Record Desk : Type := mkDesk {
  core : World;
  mainWindow : bool;
  maximized : bool;
  journal : list Entry
}.

Definition set_core (w : World) (d : Desk) : Desk :=
  mkDesk w (mainWindow d) (maximized d) (journal d).
Definition set_maximized (b : bool) (d : Desk) : Desk :=
  mkDesk (core d) (mainWindow d) b (journal d).
Definition record_call (en : Entry) (d : Desk) : Desk :=
  mkDesk (core d) (mainWindow d) (maximized d) (journal d ++ [en]).

(** What the handlers cannot decide, beyond the [Env] of the backup
    handlers: which calls fail, what the user answers in a message box,
    what the save and the open dialog resolve to, what [bcrypt.hash]
    and the database answer, the version and the platform. *)
Record Shell : Type := mkShell {
  shell_core : Env;
  shell_fail : Desk -> Call -> option exn;
  shell_response : Desk -> jsval;
  shell_choice : Desk -> Z;
  shell_save : Desk -> SaveDialogResult;
  shell_open : Desk -> OpenDialogResult;
  shell_hash : Desk -> jsval -> Z -> string;
  shell_changes : Desk -> jsval;
  shell_any : Desk -> Call -> Reply;
  shell_version : string;
  shell_platform : string
}.

Definition shell_fallible {A : Type} (sh : Shell) (c : Call) (d : Desk)
    (ok : outcome A * Desk) : outcome A * Desk :=
  match shell_fail sh d c with
  | Some e => (Exn e, d)
  | None => ok
  end.

(** [mainWindow.method()]: a [TypeError] while [mainWindow] is not
    set. *)
Definition on_window {A : Type} (sh : Shell) (c : Call) (d : Desk)
    (ok : outcome A * Desk) : outcome A * Desk :=
  if mainWindow d then shell_fallible sh c d ok else (Exn TypeError, d).

(** Modelled from the spec: [DatabaseService.run] of [database.cjs], the
    opaque [executeStatement]: it answers, or fails. *)
Definition db_run (sh : Shell) (sql : string) (params : list jsval)
    (d : Desk) : outcome jsval * Desk :=
  shell_fallible sh (DbRun sql params) d (Ok (shell_changes sh d), d).

(** Modelled from the spec: [DatabaseService.query] and
    [DatabaseService.run] of [database.cjs] on what the renderer sends,
    the opaque [executeQuery] and [executeStatement]: they answer, or
    fail. *)
Definition db_any (sh : Shell) (c : Call) (d : Desk)
  : outcome Reply * Desk :=
  shell_fallible sh c d (Ok (shell_any sh d c), d).

(** The effect and the answer of a call.  A call of the backup handlers
    acts on their world.  Electron's window is maximized after
    [maximize] and not after [unmaximize]. *)
Definition shell_perform (sh : Shell) (c : Call) (d : Desk)
  : outcome (answer c) * Desk :=
  match c return outcome (answer c) * Desk with
  | Core c' =>
      let '(o, w') := exec (shell_core sh) c' (core d) in (o, set_core w' d)
  | ReadMainWindow => (Ok (mainWindow d), d)
  | WindowMinimize => on_window sh WindowMinimize d (Ok tt, d)
  | WindowIsMaximized => on_window sh WindowIsMaximized d (Ok (maximized d), d)
  | WindowMaximize => on_window sh WindowMaximize d (Ok tt, set_maximized true d)
  | WindowUnmaximize =>
      on_window sh WindowUnmaximize d (Ok tt, set_maximized false d)
  | WindowClose => on_window sh WindowClose d (Ok tt, d)
  | ShowMessageBox parent box =>
      shell_fallible sh (ShowMessageBox parent box) d
        (Ok (shell_response sh d), d)
  | ShowMessageBoxSync parent box =>
      shell_fallible sh (ShowMessageBoxSync parent box) d
        (Ok (shell_choice sh d), d)
  | ShowErrorBox title content =>
      shell_fallible sh (ShowErrorBox title content) d (Ok tt, d)
  | ShowSaveDialog parent title defaultPath =>
      shell_fallible sh (ShowSaveDialog parent title defaultPath) d
        (Ok (shell_save sh d), d)
  | ShowOpenDialogOn parent title defaultPath =>
      shell_fallible sh (ShowOpenDialogOn parent title defaultPath) d
        (Ok (shell_open sh d), d)
  | BcryptHash password saltRounds =>
      shell_fallible sh (BcryptHash password saltRounds) d
        (Ok (shell_hash sh d password saltRounds), d)
  | DbRun sql params => db_run sh sql params d
  | DbQueryAny query params => db_any sh (DbQueryAny query params) d
  | DbRunAny query params => db_any sh (DbRunAny query params) d
  | ConsoleLogArgs _ => (Ok tt, d)
  | AppGetVersion => (Ok (shell_version sh), d)
  | ProcessPlatform => (Ok (shell_platform sh), d)
  | AppQuit => (Ok tt, d)
  | AppRelaunch => (Ok tt, d)
  | AppExit => (Ok tt, d)
  | PreventDefault => (Ok tt, d)
  end.

Definition shell_exec (sh : Shell) (c : Call) (d : Desk)
  : outcome (answer c) * Desk :=
  let '(o, d') := shell_perform sh c d in
  (o, record_call (Called c (failure_of o)) d').

(** A handler of this part of the main process. *)
Inductive Handler (R : Type) : Type :=
| Return (r : R)
| Raise (e : exn)
| Ask (c : Call) (k : outcome (answer c) -> Handler R).
Arguments Return {R} r.
Arguments Raise {R} e.
Arguments Ask {R} c k.

Fixpoint handler_bind {A B : Type} (m : Handler A) (f : A -> Handler B)
  : Handler B :=
  match m with
  | Return a => f a
  | Raise e => Raise e
  | Ask c k => Ask c (fun o => handler_bind (k o) f)
  end.

#[global] Instance Handler_ret : MRet Handler := @Return.
#[global] Instance Handler_bind : MBind Handler :=
  fun A B f m => handler_bind m f.

(** [try { body } catch (error) { handler }] *)
Fixpoint guarded {R : Type} (body : Handler R) (handler : exn -> Handler R)
  : Handler R :=
  match body with
  | Return r => Return r
  | Raise e => handler e
  | Ask c k => Ask c (fun o => guarded (k o) handler)
  end.

Definition settled {A : Type} (o : outcome A) : Handler A :=
  match o with
  | Ok a => Return a
  | Exn e => Raise e
  end.

Definition ask (c : Call) : Handler (answer c) := Ask c settled.

(** A program of the backup handlers, as a handler of this part. *)
Fixpoint embed {R : Type} (p : Prog R) : Handler R :=
  match p with
  | Ret r => Return r
  | Throw e => Raise e
  | Vis c k => Ask (Core c) (fun o => embed (k o))
  end.

(** A promise that nobody awaits: its rejection reaches no [catch]. *)
Definition detached {A : Type} (m : Handler A) : Handler unit :=
  guarded (m;; mret tt) (fun _ => mret tt).

Fixpoint serve {R : Type} (sh : Shell) (h : Handler R) (d : Desk)
  : outcome R * Desk :=
  match h with
  | Return r => (Ok r, d)
  | Raise e => (Exn e, d)
  | Ask c k => let '(o, d') := shell_exec sh c d in serve sh (k o) d'
  end.

(** [v.k] *)
Definition field (v : jsval) (k : string) : Handler jsval :=
  settled (get_prop v k).

(** [console.error(msg, error)] *)
Definition console_error (msg : string) (error : exn) : Handler unit :=
  ask (Core (ConsoleError msg error)).

(** ** Window control *)

(** [ipcMain.handle('window-minimize', ...)] *)
Definition window_minimize : Handler jsval :=
  present ← ask ReadMainWindow;
  (if present : bool then ask WindowMinimize else mret tt);;
  mret (VBool true).

(** [ipcMain.handle('window-maximize', ...)] *)
Definition window_maximize : Handler jsval :=
  present ← ask ReadMainWindow;
  (if present : bool then
     isMaximized ← ask WindowIsMaximized;
     if isMaximized : bool then ask WindowUnmaximize else ask WindowMaximize
   else mret tt);;
  isMaximized ← ask WindowIsMaximized;
  mret (VBool isMaximized).

(** [ipcMain.handle('window-close', ...)] *)
Definition window_close : Handler jsval :=
  present ← ask ReadMainWindow;
  (if present : bool then ask WindowClose else mret tt);;
  mret (VBool true).

(** [mainWindow.on('close', ...)] *)
Definition on_close : Handler unit :=
  platform ← ask ProcessPlatform;
  if negb (String.eqb platform "darwin") then
    parent ← ask ReadMainWindow;
    choice ←
      ask (ShowMessageBoxSync parent
             (mkMessageBox (VStr "question") (VStr "تأكيد الخروج")
                (VStr "هل أنت متأكد من رغبتك في إغلاق التطبيق؟")
                None (Labels ["نعم"; "لا"])
                (Some (VNum 1)) (Some (VNum 1))));
    if (choice =? 1)%Z then ask PreventDefault else mret tt
  else mret tt.

(** [app.on('window-all-closed', ...)] *)
Definition window_all_closed : Handler unit :=
  platform ← ask ProcessPlatform;
  if negb (String.eqb platform "darwin") then ask AppQuit else mret tt.

(** ** Dialogs *)

(** [options.buttons || [...]] *)
Definition buttons_or (v : jsval) (labels : list string) : Buttons :=
  if truthy v then Given v else Labels labels.

(** [ipcMain.handle('show-message', ...)] *)
Definition show_message (options : jsval) : Handler jsval :=
  parent ← ask ReadMainWindow;
  type ← field options "type";
  title ← field options "title";
  message ← field options "message";
  detail ← field options "detail";
  buttons ← field options "buttons";
  defaultId ← field options "defaultId";
  cancelId ← field options "cancelId";
  ask (ShowMessageBox parent
         (mkMessageBox (or_else type (VStr "info"))
            (or_else title (VStr "رسالة"))
            (or_else message (VStr ""))
            (Some (or_else detail (VStr "")))
            (buttons_or buttons ["موافق"])
            (Some (or_else defaultId (VNum 0)))
            (Some (or_else cancelId (VNum 0))))).

(** [ipcMain.handle('show-error', ...)] *)
Definition show_error (title message : jsval) : Handler jsval :=
  parent ← ask ReadMainWindow;
  ask (ShowMessageBox parent
         (mkMessageBox (VStr "error")
            (or_else title (VStr "خطأ"))
            (or_else message (VStr "حدث خطأ غير متوقع"))
            None (Labels ["موافق"]) None None)).

(** [ipcMain.handle('show-confirm', ...)] *)
Definition show_confirm (options : jsval) : Handler jsval :=
  parent ← ask ReadMainWindow;
  title ← field options "title";
  message ← field options "message";
  detail ← field options "detail";
  buttons ← field options "buttons";
  defaultId ← field options "defaultId";
  cancelId ← field options "cancelId";
  ask (ShowMessageBox parent
         (mkMessageBox (VStr "question")
            (or_else title (VStr "تأكيد"))
            (or_else message (VStr "هل أنت متأكد؟"))
            (Some (or_else detail (VStr "")))
            (buttons_or buttons ["نعم"; "لا"])
            (Some (or_else defaultId (VNum 0)))
            (Some (or_else cancelId (VNum 1))))).

(** [ipcMain.handle('app-version', ...)] *)
Definition app_version : Handler string := ask AppGetVersion.


(** ** Users *)

(** The statement of [create-user]. *)
Definition insert_user : string :=
  "
      INSERT INTO users (username, password_hash, full_name, role, gym_id, is_active)
      VALUES (?, ?, ?, ?, ?, ?)
    ".

(** The statement of [update-user] when a password is given. *)
Definition update_user_with_password : string :=
  "
        UPDATE users
        SET username = ?, password_hash = ?, full_name = ?, role = ?,
            gym_id = ?, is_active = ?
        WHERE id = ?
      ".

(** The statement of [update-user] when no password is given. *)
Definition update_user_keep_password : string :=
  "
        UPDATE users
        SET username = ?, full_name = ?, role = ?, gym_id = ?, is_active = ?
        WHERE id = ?
      ".

(** [ipcMain.handle('create-user', ...)] *)
Definition create_user (userData : jsval) : Handler jsval :=
  guarded
    (password ← field userData "password";
     hashedPassword ← ask (BcryptHash password 12);
     username ← field userData "username";
     ask (ConsoleLogArgs
            [Plain (VStr "Creating user with hashed password:");
             Plain (VObj [("username", username);
                          ("hashedLength",
                           VNum (Z.of_nat (String.length hashedPassword)))])]);;
     username ← field userData "username";
     full_name ← field userData "full_name";
     role ← field userData "role";
     gym_id ← field userData "gym_id";
     is_active ← field userData "is_active";
     result ← ask (DbRun insert_user
                     [username; VStr hashedPassword; full_name; role;
                      gym_id; is_active]);
     mret (VObj [("success", VBool true); ("result", result)]))
    (fun error =>
       console_error "Create user error:" error;;
       mret (VObj [("success", VBool false);
                   ("message", VStr "Failed to create user");
                   ("error", VStr (message error))])).

(** [ipcMain.handle('update-user', ...)] *)
Definition update_user (userId userData : jsval) : Handler jsval :=
  guarded
    (password ← field userData "password";
     result ←
       (if truthy password then
          password ← field userData "password";
          hashedPassword ← ask (BcryptHash password 12);
          username ← field userData "username";
          full_name ← field userData "full_name";
          role ← field userData "role";
          gym_id ← field userData "gym_id";
          is_active ← field userData "is_active";
          ask (DbRun update_user_with_password
                 [username; VStr hashedPassword; full_name; role; gym_id;
                  is_active; userId])
        else
          username ← field userData "username";
          full_name ← field userData "full_name";
          role ← field userData "role";
          gym_id ← field userData "gym_id";
          is_active ← field userData "is_active";
          ask (DbRun update_user_keep_password
                 [username; full_name; role; gym_id; is_active; userId]));
     mret (VObj [("success", VBool true); ("result", result)]))
    (fun error =>
       console_error "Update user error:" error;;
       mret (VObj [("success", VBool false);
                   ("message", VStr "Failed to update user");
                   ("error", VStr (message error))])).

(** ** Raw queries and the debug handlers *)

(** [ipcMain.handle('database-query', ...)] *)
Definition database_query (query params : jsval) : Handler Reply :=
  guarded
    (ask (DbQueryAny query params))
    (fun error =>
       console_error "Database query error:" error;;
       mret (Plain (error_result error))).

(** [ipcMain.handle('database-run', ...)] *)
Definition database_run (query params : jsval) : Handler Reply :=
  guarded
    (ask (DbRunAny query params))
    (fun error =>
       console_error "Database run error:" error;;
       mret (Plain (error_result error))).

(** [ipcMain.handle('debug-users', ...)] *)
Definition debug_users : Handler Reply :=
  guarded
    (users ← ask (DbQueryAny (VStr "SELECT * FROM users") VUndefined);
     gyms ← ask (DbQueryAny (VStr "SELECT * FROM gyms") VUndefined);
     mret (Fields [("users", users); ("gyms", gyms)]))
    (fun error =>
       console_error "Debug error:" error;;
       mret (Plain (error_result error))).

(** [ipcMain.handle('debug-passwords', ...)] *)
Definition debug_passwords : Handler Reply :=
  guarded
    (users ← ask (DbQueryAny
                    (VStr "SELECT username, password_hash FROM users")
                    VUndefined);
     mret (Fields [("users", users)]))
    (fun error =>
       console_error "Debug passwords error:" error;;
       mret (Plain (error_result error))).



(** ** Backups from the menu and the save dialog *)

(** [s.replace(/[:.]/g, '-')] *)
Fixpoint replace_colons_dots (s : string) : string :=
  match s with
  | EmptyString => EmptyString
  | String c s' =>
      String (if Ascii.eqb c ":"%char || Ascii.eqb c "."%char
              then "-"%char else c)
             (replace_colons_dots s')
  end.

(** [s.split('T')[0]] *)
Fixpoint before_T (s : string) : string :=
  match s with
  | EmptyString => EmptyString
  | String c s' =>
      if Ascii.eqb c "T"%char then EmptyString else String c (before_T s')
  end.

(** The [click] of the menu entry for a backup. *)
Definition menu_backup : Handler unit :=
  guarded
    (backupDir ← embed ensureBackupDirectory;
     now ← ask (Core DateNow);
     let date := replace_colons_dots (toISOString now) in
     let backupPath :=
       path_join backupDir ("gym-backup-" +:+ date +:+ ".db") in
     ask (Core (DbBackup (VStr backupPath)));;
     parent ← ask ReadMainWindow;
     detached
       (ask (ShowMessageBox parent
               (mkMessageBox (VStr "info") (VStr "نسخ احتياطي")
                  (VStr "تم إنشاء نسخة احتياطية بنجاح")
                  (Some (VStr ("تم حفظ النسخة الاحتياطية في: "
                               +:+ backupPath)))
                  (Labels ["موافق"]) None None))))
    (fun error =>
       console_error "Backup error:" error;;
       ask (ShowErrorBox "خطأ في النسخ الاحتياطي" (message error))).

(** [v === n] for a number [n] *)
Definition is_num (v : jsval) (n : Z) : bool :=
  match v with
  | VNum m => (m =? n)%Z
  | _ => false
  end.

(** The [click] of the menu entry for a restore. *)
Definition menu_restore : Handler unit :=
  guarded
    (backupDir ← embed ensureBackupDirectory;
     parent ← ask ReadMainWindow;
     result ← ask (ShowOpenDialogOn parent "اختر ملف النسخة الاحتياطية"
                     backupDir);
     match filePaths result with
     | backupPath :: _ =>
         ask (Core (DbRestore backupPath));;
         parent ← ask ReadMainWindow;
         detached
           (answered ←
              ask (ShowMessageBox parent
                     (mkMessageBox (VStr "info")
                        (VStr "استعادة النسخة الاحتياطية")
                        (VStr "تم استعادة النسخة الاحتياطية بنجاح")
                        (Some (VStr "يرجى إعادة تشغيل التطبيق لتطبيق التغييرات"))
                        (Labels ["إعادة تشغيل الآن"; "لاحقاً"])
                        None None));
            response ← field answered "response";
            if is_num response 0 then ask AppRelaunch;; ask AppExit
            else mret tt)
     | [] => mret tt
     end)
    (fun error =>
       console_error "Restore error:" error;;
       ask (ShowErrorBox "خطأ في استعادة النسخة الاحتياطية" (message error))).

(** [ipcMain.handle('choose-backup-path', ...)] *)
Definition choose_backup_path : Handler jsval :=
  guarded
    (parent ← ask ReadMainWindow;
     now ← ask (Core DateNow);
     result ←
       ask (ShowSaveDialog parent "اختر مكان حفظ النسخة الاحتياطية"
              ("gym-backup-" +:+ before_T (toISOString now) +:+ ".db"));
     if save_canceled result then mret (VObj [("canceled", VBool true)])
     else mret (VObj [("success", VBool true);
                      ("filePath", save_filePath result)]))
    (fun error =>
       console_error "Choose backup path error:" error;;
       mret (error_result error)).

(** ** Examples *)

(** The answers of the database in the examples: the gyms for the
    query of [debug-users] for them, the users for every other query,
    and a count of changes for a statement. *)
Definition gym_row : jsval :=
  VObj [("id", VNum 1); ("name", VStr "Gym"); ("type", VStr "male")].

Definition quiet_answer (c : Call) : Reply :=
  match c with
  | DbQueryAny (VStr sql) _ =>
      if String.eqb sql "SELECT * FROM gyms" then Rows [gym_row]
      else Rows [admin_row]
  | _ => Plain (VObj [("changes", VNum 1)])
  end.

Definition quiet_shell : Shell :=
  mkShell quiet_env (fun _ _ => None)
          (fun _ => VObj [("response", VNum 0)])
          (fun _ => 1%Z)
          (fun _ => mkSaveDialogResult false (VStr "/media/usb/gym.db"))
          (fun _ => mkOpenDialogResult false ["/backups/old.db"])
          (fun _ _ _ => "$2a$12$abcdefghijklmnopqrstuv")
          (fun _ => VObj [("changes", VNum 1)])
          (fun _ => quiet_answer)
          "1.0.0" "linux".

(** The process before [createWindow] has run, and after. *)
Definition no_window : Desk := mkDesk fresh_world false false [].
Definition with_window : Desk := mkDesk fresh_world true false [].

(** The calls made between [d] and a later [d']. *)
Definition new_calls (d d' : Desk) : list Entry :=
  drop (length (journal d)) (journal d').

Definition is_message_box (en : Entry) : bool :=
  match en with
  | Called (ShowMessageBox _ _) _ => true
  | _ => false
  end.

Definition is_window_method (en : Entry) : bool :=
  match en with
  | Called (WindowMinimize | WindowIsMaximized | WindowMaximize
           | WindowUnmaximize | WindowClose) None => true
  | _ => false
  end.

(** [v.k], [undefined] when it cannot be read. *)
Definition value_of (v : jsval) (k : string) : jsval :=
  match get_prop v k with
  | Ok x => x
  | Exn _ => VUndefined
  end.

Definition user_failed (what : string) (e : exn) : jsval :=
  VObj [("success", VBool false); ("message", VStr what);
        ("error", VStr (message e))].

Definition user_done (result : jsval) : jsval :=
  VObj [("success", VBool true); ("result", result)].

(** The calls of [create-user], when [bcrypt.hash] answers [hash]. *)
Definition create_user_call (userData : jsval) (hash : string) (en : Entry)
  : Prop :=
  match en with
  | Called (BcryptHash password saltRounds) _ =>
      password = value_of userData "password" /\ saltRounds = 12%Z
  | Called (ConsoleLogArgs args) _ =>
      args = [Plain (VStr "Creating user with hashed password:");
              Plain (VObj [("username", value_of userData "username");
                           ("hashedLength",
                            VNum (Z.of_nat (String.length hash)))])]
  | Called (DbRun sql params) _ =>
      sql = insert_user
      /\ params = [value_of userData "username"; VStr hash;
                   value_of userData "full_name"; value_of userData "role";
                   value_of userData "gym_id";
                   value_of userData "is_active"]
  | Called (Core (ConsoleError _ _)) _ => True
  | _ => False
  end.

(** The calls of [update-user], when [bcrypt.hash] answers [hash]. *)
Definition update_user_call (userId userData : jsval) (hash : string)
    (en : Entry) : Prop :=
  match en with
  | Called (BcryptHash password saltRounds) _ =>
      truthy (value_of userData "password") = true
      /\ password = value_of userData "password" /\ saltRounds = 12%Z
  | Called (DbRun sql params) _ =>
      if truthy (value_of userData "password") then
        sql = update_user_with_password
        /\ params = [value_of userData "username"; VStr hash;
                     value_of userData "full_name";
                     value_of userData "role"; value_of userData "gym_id";
                     value_of userData "is_active"; userId]
      else
        sql = update_user_keep_password
        /\ params = [value_of userData "username";
                     value_of userData "full_name";
                     value_of userData "role"; value_of userData "gym_id";
                     value_of userData "is_active"; userId]
  | Called (Core (ConsoleError _ _)) _ => True
  | _ => False
  end.

(** A failed call decides the result. *)
Definition failure_answered (res : jsval) (what : string) (en : Entry)
  : Prop :=
  match en with
  | Called _ (Some e) => res = user_failed what e
  | _ => True
  end.

Definition new_user : jsval :=
  VObj [("username", VStr "coach"); ("password", VStr "secret");
        ("full_name", VStr "Coach"); ("role", VStr "staff");
        ("gym_id", VNum 1); ("is_active", VNum 1)].




(** A failed call is answered with its message. *)
Definition failure_returned (res : Reply) (en : Entry) : Prop :=
  match en with
  | Called _ (Some e) => res = Plain (error_result e)
  | _ => True
  end.

(** The query goes to the database as the renderer sent it. *)
Definition passed_on (query params : jsval) (en : Entry) : Prop :=
  match en with
  | Called (DbQueryAny q p) _ | Called (DbRunAny q p) _ =>
      q = query /\ p = params
  | Called (Core (ConsoleError _ _)) _ => True
  | _ => False
  end.

Definition has_failure (en : Entry) : bool :=
  match en with
  | Called _ (Some _) => true
  | _ => false
  end.

(** [YYYY-MM-DDTHH-mm-ss-sssZ]: the ISO string with dashes for its
    colons and its dot. *)
Definition iso_dashed (d : DateTime) : string :=
  iso_seconds d +:+ "-" +:+ pad 3 (millis d) +:+ "Z".

(** The calls of the backup from the menu, at the clock [now]. *)
Definition menu_backup_call (w : World) (now : DateTime)
    (calls : list Entry) (en : Entry) : Prop :=
  match en with
  | Called (Core (DbBackup p)) _ =>
      p = VStr (path_join (path_join (userData w) "backups")
                  ("gym-backup-" +:+ iso_dashed now +:+ ".db"))
  | Called (ShowMessageBox _ box) _ =>
      box_type box = VStr "info"
      /\ exists p,
           box_detail box
           = Some (VStr ("تم حفظ النسخة الاحتياطية في: " +:+ p))
           /\ In (Called (Core (DbBackup (VStr p))) None) calls
  | Called (ShowErrorBox _ content) _ =>
      exists c e, In (Called c (Some e)) calls /\ content = message e
  | _ => True
  end.

Definition is_backup_call (en : Entry) : bool :=
  match en with
  | Called (Core (DbBackup _)) _ => true
  | _ => false
  end.

Definition is_error_box (en : Entry) : bool :=
  match en with
  | Called (ShowErrorBox _ _) _ => true
  | _ => false
  end.

(** The calls of [choose-backup-path], at the clock [now]. *)
Definition choose_path_call (now : DateTime) (en : Entry) : Prop :=
  match en with
  | Called (ShowSaveDialog _ _ defaultPath) _ =>
      defaultPath = "gym-backup-" +:+ iso_date now +:+ ".db"
  | Called ReadMainWindow _ | Called (Core DateNow) _
  | Called (Core (ConsoleError _ _)) _ => True
  | _ => False
  end.

Definition is_prevent (en : Entry) : bool :=
  match en with
  | Called PreventDefault _ => true
  | _ => false
  end.

Definition count_calls (f : Entry -> bool) (calls : list Entry) : nat :=
  length (List.filter f calls).

Definition is_quit (en : Entry) : bool :=
  match en with
  | Called AppQuit _ => true
  | _ => false
  end.

Definition is_sync_box (en : Entry) : bool :=
  match en with
  | Called (ShowMessageBoxSync _ _) _ => true
  | _ => false
  end.

(** The dialog of the close handler keeps the window open by default:
    its default and its cancel button are both button 1. *)
Definition stays_open_by_default (en : Entry) : Prop :=
  match en with
  | Called (ShowMessageBoxSync _ box) _ =>
      box_defaultId box = Some (VNum 1) /\ box_cancelId box = Some (VNum 1)
  | _ => True
  end.

(** No ["T"] in [s]. *)
Fixpoint no_T (s : string) : bool :=
  match s with
  | EmptyString => true
  | String c s' => negb (Ascii.eqb c "T"%char) && no_T s'
  end.

Definition mac_shell : Shell :=
  mkShell quiet_env (shell_fail quiet_shell) (shell_response quiet_shell)
          (shell_choice quiet_shell) (shell_save quiet_shell)
          (shell_open quiet_shell)
          (shell_hash quiet_shell) (shell_changes quiet_shell)
          (shell_any quiet_shell) "1.0.0" "darwin".

Definition is_relaunch (en : Entry) : bool :=
  match en with
  | Called AppRelaunch _ => true
  | _ => false
  end.

Definition is_exit (en : Entry) : bool :=
  match en with
  | Called AppExit _ => true
  | _ => false
  end.

Definition is_restore_call (en : Entry) : bool :=
  match en with
  | Called (Core (DbRestore _)) _ => true
  | _ => false
  end.

(** The calls of the restore from the menu, when the user picks
    [picked]. *)
Definition menu_restore_call (picked : OpenDialogResult)
    (calls : list Entry) (en : Entry) : Prop :=
  match en with
  | Called (Core (DbRestore p)) _ => hd_error (filePaths picked) = Some p
  | Called (ShowMessageBox _ _) _ | Called AppRelaunch _
  | Called AppExit _ =>
      exists p, In (Called (Core (DbRestore p)) None) calls
  | Called (ShowErrorBox _ content) _ =>
      exists c e, In (Called c (Some e)) calls /\ content = message e
  | _ => True
  end.

(** The clock as [backup-database] reads it: once
    [ensureBackupDirectory] has returned. *)
Definition manual_clock (env : Env) (w : World) : DateTime :=
  env_now env (issue DateNow (snd (run env ensureBackupDirectory w))).

(** The clock as the callback of a cron task reads it: after its first
    line on the console, once [ensureBackupDirectory] has returned. *)
Definition scheduled_clock (env : Env) (w : World) : DateTime :=
  env_now env
    (issue DateNow
       (snd (run env ensureBackupDirectory
               (snd (exec env (ConsoleLog "Starting automatic backup...")
                       w))))).

(** A backup that is asked of the Storage Backend goes to the
    [backup_path] of the clock [now], and the backup directory exists by
    then. *)
Definition stamped (prefix : string) (now : DateTime) (w w' : World)
    (ev : Event) : Prop :=
  match ev with
  | Begin (DbBackup p) =>
      p = VStr (backup_path w prefix now)
      /\ path_join (userData w) "backups" ∈ dirs w' ∪ files w'
  | _ => True
  end.

Definition is_backup_begin (ev : Event) : bool :=
  match ev with
  | Begin (DbBackup _) => true
  | _ => false
  end.

(** An environment like [quiet_env] whose clock stands later in the
    same second, at 2024-01-15 10:30:45.987 UTC. *)
Definition later_env : Env :=
  mkEnv (fun _ => mkDateTime 2024 1 15 10 30 45 987)
        (env_fail quiet_env) (env_rows quiet_env) (env_compare quiet_env)
        (env_dialog quiet_env) (env_response quiet_env).

(** No ["/"] in [s]. *)
Fixpoint no_slash (s : string) : bool :=
  match s with
  | EmptyString => true
  | String c s' => negb (Ascii.eqb c "/"%char) && no_slash s'
  end.

(* ================================================================= *)
(** * Properties *)

(** ** Lists and strings *)

Lemma alter_at_end {A : Type} (f : A -> A) (l : list A) (x : A) (n : nat) :
  n = length l -> alter f n (l ++ [x]) = l ++ [f x].
Proof.
  intros ->. induction l as [|a l IH]; cbn; [reflexivity | by rewrite IH].
Qed.

Lemma filter_none {A : Type} (f : A -> bool) (l : list A) :
  Forall (fun x => f x = false) l -> List.filter f l = [].
Proof.
  induction 1 as [|x l Hx _ IH]; cbn; [reflexivity | by rewrite Hx].
Qed.

Lemma new_events_app (w w' : World) (evs : list Event) :
  trace w' = trace w ++ evs -> new_events w w' = evs.
Proof. unfold new_events. intros ->. by rewrite drop_app_length. Qed.

(** ** Scheduling *)

Ltac run_step := unfold mbind, Prog_bind, mret, Prog_ret; cbn.

Ltac world :=
  cbn [userData dirs files tasks backupSchedule trace log issue alter_task
       set_dirs set_files set_tasks set_backupSchedule].

Ltac events :=
  unfold new_events; world; rewrite <- ?app_assoc;
  rewrite drop_app_length; cbn [app].

Lemma recurring_cases (s : jsval) :
  recurring s = true ->
  s = VStr "daily" \/ s = VStr "weekly" \/ s = VStr "monthly".
Proof.
  unfold recurring. destruct s; cbn; try discriminate.
  intros H. apply orb_true_iff in H as [H|H];
    [apply orb_true_iff in H as [H|H]|];
    apply String.eqb_eq in H; subst; auto.
Qed.

Lemma cronPattern_recurring (s : jsval) :
  recurring s = true <-> exists p, cronPattern s = Some p.
Proof.
  unfold recurring, cronPattern. split.
  - destruct (is_str s "daily"); [eauto|].
    destruct (is_str s "weekly"); [eauto|].
    destruct (is_str s "monthly"); [eauto|discriminate].
  - destruct (is_str s "daily"); [reflexivity|].
    destruct (is_str s "weekly"); [reflexivity|].
    destruct (is_str s "monthly"); [reflexivity|]. intros [p Hp]. discriminate.
Qed.

Lemma cronPattern_guard (s : jsval) (p : string) :
  cronPattern s = Some p -> truthy s && negb (is_str s "manual") = true.
Proof.
  intros Hp. assert (Hr : recurring s = true)
    by (apply cronPattern_recurring; eauto).
  by destruct (recurring_cases _ Hr) as [->|[->| ->]].
Qed.

(** What one call of [scheduleAutoBackup] does to the world: it returns
    normally, leaves the file system alone, stops the task that
    [backupSchedule] held (each stop logged once), and registers a new
    running task exactly when the schedule is one of the three of the
    [switch]. *)
Lemma scheduleAutoBackup_spec (env : Env) (s c : jsval) (w : World) :
  exists w',
    run env (scheduleAutoBackup s c) w = (Ok tt, w')
    /\ userData w' = userData w /\ dirs w' = dirs w /\ files w' = files w
    /\ tasks w' =
         match cronPattern s with
         | Some p => stop_current w ++ [mkCronTask p (default_null c) true]
         | None => stop_current w
         end
    /\ backupSchedule w' =
         match cronPattern s with
         | Some _ => Some (length (tasks w))
         | None => None
         end
    /\ forall task,
         count (is_stop_of task) (new_events w w') =
         match backupSchedule w with
         | Some current => if Nat.eqb task current then 1 else 0
         | None => 0
         end.
Proof.
  unfold scheduleAutoBackup, stop_current. run_step.
  destruct (cronPattern s) as [p|] eqn:Hp.
  - rewrite (cronPattern_guard _ _ Hp).
    destruct (backupSchedule w) as [current|] eqn:Hb; cbn;
      eexists; (split; [reflexivity|]); world;
      (split; [reflexivity|]); (split; [reflexivity|]);
      (split; [reflexivity|]); (split; [|split]).
    + apply (alter_at_end (set_running true)). by rewrite length_alter.
    + rewrite length_alter. reflexivity.
    + intros task; events. unfold count; cbn.
      by destruct (task =? current)%nat.
    + by apply (alter_at_end (set_running true)).
    + reflexivity.
    + intros task; events. reflexivity.
  - destruct (backupSchedule w) as [current|] eqn:Hb; cbn;
      destruct (truthy s && negb (is_str s "manual")); cbn;
      eexists; (split; [reflexivity|]); world; rewrite ?Hb;
      (split; [reflexivity|]); (split; [reflexivity|]);
      (split; [reflexivity|]); (split; [reflexivity|]);
      (split; [reflexivity|]);
      intros task; events; try reflexivity;
      unfold count; cbn; by destruct (task =? current)%nat.
Qed.

Lemma stop_current_inactive (w : World) :
  schedule_owned w -> Forall (fun t => running t = false) (stop_current w).
Proof.
  intros Hown. apply Forall_lookup. intros i t Hi.
  unfold stop_current in Hi.
  destruct (backupSchedule w) as [current|] eqn:Hb.
  - destruct (decide (i = current)) as [->|Hne].
    + rewrite list_lookup_alter_eq in Hi.
      destruct (tasks w !! current); inversion Hi; reflexivity.
    + rewrite list_lookup_alter_ne in Hi by done.
      destruct (running t) eqn:Hr; [|reflexivity].
      specialize (Hown i t Hi Hr). congruence.
  - destruct (running t) eqn:Hr; [|reflexivity].
    specialize (Hown i t Hi Hr). congruence.
Qed.

Lemma stop_current_length (w : World) :
  length (stop_current w) = length (tasks w).
Proof.
  unfold stop_current. destruct (backupSchedule w); [apply length_alter|done].
Qed.

Lemma filter_app_single {A : Type} (f : A -> bool) (l : list A) (x : A) :
  List.filter f (l ++ [x]) = List.filter f l ++ (if f x then [x] else []).
Proof. rewrite List.filter_app. reflexivity. Qed.

(** The state after a call, when it started from a state in which
    [backupSchedule] owns the running tasks: the only running task is
    the new one, if any. *)
Lemma scheduleAutoBackup_active (env : Env) (s c : jsval) (w : World) :
  schedule_owned w ->
  let w' := snd (run env (scheduleAutoBackup s c) w) in
  active w' =
    match cronPattern s with
    | Some p => [mkCronTask p (default_null c) true]
    | None => []
    end.
Proof.
  intros Hown. destruct (scheduleAutoBackup_spec env s c w)
    as (w' & Hrun & _ & _ & _ & Ht & _).
  rewrite Hrun. cbn. unfold active. rewrite Ht.
  pose proof (filter_none running _ (stop_current_inactive w Hown)) as Hnone.
  destruct (cronPattern s); [|exact Hnone].
  rewrite filter_app_single, Hnone. reflexivity.
Qed.

(** [backupSchedule] owns the running tasks after every call. *)
Lemma scheduleAutoBackup_owned (env : Env) (s c : jsval) (w : World) :
  schedule_owned w ->
  schedule_owned (snd (run env (scheduleAutoBackup s c) w)).
Proof.
  intros Hown. destruct (scheduleAutoBackup_spec env s c w)
    as (w' & Hrun & _ & _ & _ & Ht & Hb & _).
  rewrite Hrun. cbn. intros i t Hi Hr. rewrite Ht in Hi. rewrite Hb.
  pose proof (stop_current_inactive w Hown) as Hstopped.
  rewrite Forall_lookup in Hstopped.
  destruct (cronPattern s) as [p|].
  - apply lookup_app_Some in Hi as [Hi|[Hlen Hi]].
    + specialize (Hstopped i t Hi). congruence.
    + rewrite stop_current_length in *.
      apply list_lookup_singleton_Some in Hi as [Hz _].
      f_equal. lia.
  - specialize (Hstopped i t Hi). congruence.
Qed.

Lemma at_most_one_running (l : list CronTask) :
  (forall i j ti tj,
     l !! i = Some ti -> l !! j = Some tj ->
     running ti = true -> running tj = true -> i = j) ->
  length (List.filter running l) <= 1.
Proof.
  induction l as [|a l IH]; intros Huniq; cbn; [lia|].
  destruct (running a) eqn:Ha.
  - rewrite filter_none; [cbn; lia|].
    apply Forall_lookup. intros j tj Hj.
    destruct (running tj) eqn:Hr; [|reflexivity].
    specialize (Huniq 0 (S j) a tj eq_refl Hj Ha Hr). discriminate.
  - apply IH. intros i j ti tj Hi Hj Hri Hrj.
    specialize (Huniq (S i) (S j) ti tj Hi Hj Hri Hrj). lia.
Qed.

(** While [backupSchedule] owns the running tasks, at most one task
    runs. *)
Lemma owned_at_most_one (w : World) :
  schedule_owned w -> length (active w) <= 1.
Proof.
  intros Hown. apply at_most_one_running.
  intros i j ti tj Hi Hj Hri Hrj.
  pose proof (Hown i ti Hi Hri). pose proof (Hown j tj Hj Hrj). congruence.
Qed.

Lemma initial_owned (u : string) (d f : gset string) :
  schedule_owned (initial u d f).
Proof. intros i t Hi. cbn in Hi. discriminate. Qed.

(** C2. For the frequencies daily, weekly and monthly, two calls of
    [scheduleAutoBackup] in succession leave exactly one running task:
    the second call stops the task the first one started (its [stop] is
    called once) before it starts its own, which is then the only
    running task and the one [backupSchedule] holds; and at most one
    task was running before, between and after the calls. *)
Theorem C2_two_schedules_one_trigger
    (env1 env2 : Env) (s1 s2 c1 c2 : jsval) (w : World) :
  schedule_owned w -> recurring s1 = true -> recurring s2 = true ->
  let w1 := snd (run env1 (scheduleAutoBackup s1 c1) w) in
  let w2 := snd (run env2 (scheduleAutoBackup s2 c2) w1) in
  length (active w) <= 1 /\ length (active w1) = 1 /\ length (active w2) = 1
  /\ (exists first t,
        backupSchedule w1 = Some first
        /\ tasks w2 !! first = Some t /\ running t = false
        /\ count (is_stop_of first) (new_events w1 w2) = 1)
  /\ (exists task p,
        cronPattern s2 = Some p
        /\ backupSchedule w2 = Some task
        /\ tasks w2 !! task = Some (mkCronTask p (default_null c2) true)
        /\ active w2 = [mkCronTask p (default_null c2) true]).
Proof.
  intros Hown Hr1 Hr2 w1 w2.
  pose proof (scheduleAutoBackup_owned env1 s1 c1 w Hown) as Hown1.
  pose proof (scheduleAutoBackup_active env1 s1 c1 w Hown) as Hact1.
  pose proof (scheduleAutoBackup_active env2 s2 c2 _ Hown1) as Hact2.
  fold w1 in Hown1, Hact1, Hact2. fold w2 in Hact2. cbn zeta in Hact1, Hact2.
  apply cronPattern_recurring in Hr1 as [p1 Hp1].
  apply cronPattern_recurring in Hr2 as [p2 Hp2].
  rewrite Hp1 in Hact1. rewrite Hp2 in Hact2.
  destruct (scheduleAutoBackup_spec env1 s1 c1 w)
    as (w1' & Hrun1 & _ & _ & _ & Ht1 & Hb1 & _).
  assert (w1 = w1') as Hw1 by (unfold w1; by rewrite Hrun1).
  destruct (scheduleAutoBackup_spec env2 s2 c2 w1)
    as (w2' & Hrun2 & _ & _ & _ & Ht2 & Hb2 & Hstops).
  assert (w2 = w2') as Hw2 by (unfold w2; by rewrite Hrun2).
  rewrite <- Hw1 in Ht1, Hb1. rewrite <- Hw2 in Ht2, Hb2, Hstops.
  rewrite Hp1 in Ht1, Hb1. rewrite Hp2 in Ht2, Hb2.
  assert (Hlen1 : length (tasks w1) = S (length (tasks w))).
  { rewrite Ht1, length_app, stop_current_length. cbn. lia. }
  assert (Hstop1 : stop_current w1
                   = stop_current w ++ [mkCronTask p1 (default_null c1) false]).
  { unfold stop_current at 1. rewrite Hb1, Ht1.
    apply (alter_at_end (set_running false)). by rewrite stop_current_length. }
  split; [by apply owned_at_most_one|].
  split; [by rewrite Hact1|]. split; [by rewrite Hact2|]. split.
  - exists (length (tasks w)), (mkCronTask p1 (default_null c1) false).
    split; [exact Hb1|]. split; [|split; [reflexivity|]].
    + rewrite Ht2, Hstop1, <- app_assoc.
      rewrite lookup_app_r by (rewrite stop_current_length; lia).
      rewrite stop_current_length, Nat.sub_diag. reflexivity.
    + rewrite Hstops, Hb1, Nat.eqb_refl. reflexivity.
  - exists (length (tasks w1)), p2. split; [exact Hp2|].
    split; [exact Hb2|]. split; [|exact Hact2].
    rewrite Ht2. rewrite lookup_app_r by (rewrite stop_current_length; lia).
    rewrite stop_current_length, Nat.sub_diag. reflexivity.
Qed.

Lemma C2_witness :
  length (active (snd (run quiet_env (scheduleAutoBackup (VStr "weekly") VNull)
            (snd (run quiet_env (scheduleAutoBackup (VStr "daily") VNull)
                    fresh_world))))) = 1.
Proof.
  apply (C2_two_schedules_one_trigger quiet_env quiet_env
           (VStr "daily") (VStr "weekly") VNull VNull fresh_world).
  - apply initial_owned.
  - reflexivity.
  - reflexivity.
Defined.

Lemma filter_nil_inv {A : Type} (f : A -> bool) (l : list A) :
  List.filter f l = [] -> Forall (fun x => f x = false) l.
Proof.
  induction l as [|a l IH]; cbn; [constructor|].
  destruct (f a) eqn:Ha; [discriminate|]. intros H. constructor; auto.
Qed.

(** With no running task, a look of the cron library at its tasks does
    nothing at all. *)
Lemma cron_tick_idle (env : Env) (t : LocalTime) (w : World) :
  active w = [] -> cron_tick env t w = w.
Proof.
  intros Hidle. unfold cron_tick, due_tasks.
  rewrite filter_none; [reflexivity|].
  apply filter_nil_inv in Hidle.
  eapply Forall_impl; [exact Hidle|]. cbn. by intros task ->.
Qed.

Lemma cron_ticks_idle (env : Env) (ts : list LocalTime) (w : World) :
  active w = [] -> cron_ticks env ts w = w.
Proof.
  intros Hidle. unfold cron_ticks.
  induction ts as [|t ts IH]; cbn; [reflexivity|].
  by rewrite cron_tick_idle.
Qed.

Lemma manual_no_pattern : cronPattern (VStr "manual") = None.
Proof. reflexivity. Qed.

(** C3. [scheduleAutoBackup('manual')] after a call with a recurring
    frequency: the task that call started is running until then, its
    [stop] is called exactly once, afterwards no task runs and
    [backupSchedule] is [null], and however often the cron library
    looks at its tasks from then on, nothing happens: no backup, no
    call, no change of the world. *)
Theorem C3_manual_deactivates
    (env1 env2 : Env) (s1 c1 c2 : jsval) (w : World) :
  schedule_owned w -> recurring s1 = true ->
  let w1 := snd (run env1 (scheduleAutoBackup s1 c1) w) in
  let w2 := snd (run env2 (scheduleAutoBackup (VStr "manual") c2) w1) in
  (exists task t,
     backupSchedule w1 = Some task
     /\ tasks w1 !! task = Some t /\ running t = true
     /\ count (is_stop_of task) (new_events w1 w2) = 1
     /\ (exists t', tasks w2 !! task = Some t' /\ running t' = false))
  /\ active w2 = [] /\ backupSchedule w2 = None
  /\ files w2 = files w
  /\ forall env ts, cron_ticks env ts w2 = w2.
Proof.
  intros Hown Hr1 w1 w2.
  pose proof (scheduleAutoBackup_owned env1 s1 c1 w Hown) as Hown1.
  pose proof (scheduleAutoBackup_active env2 (VStr "manual") c2 _ Hown1)
    as Hact2.
  fold w1 in Hown1, Hact2. fold w2 in Hact2. cbn zeta in Hact2.
  rewrite manual_no_pattern in Hact2.
  apply cronPattern_recurring in Hr1 as [p1 Hp1].
  destruct (scheduleAutoBackup_spec env1 s1 c1 w)
    as (w1' & Hrun1 & _ & _ & Hf1 & Ht1 & Hb1 & _).
  assert (w1 = w1') as Hw1 by (unfold w1; by rewrite Hrun1).
  destruct (scheduleAutoBackup_spec env2 (VStr "manual") c2 w1)
    as (w2' & Hrun2 & _ & _ & Hf2 & Ht2 & Hb2 & Hstops).
  assert (w2 = w2') as Hw2 by (unfold w2; by rewrite Hrun2).
  rewrite <- Hw1 in Ht1, Hb1, Hf1. rewrite <- Hw2 in Ht2, Hb2, Hstops, Hf2.
  rewrite Hp1 in Ht1, Hb1. rewrite manual_no_pattern in Ht2, Hb2.
  assert (Hstop1 : stop_current w1
                   = stop_current w ++ [mkCronTask p1 (default_null c1) false]).
  { unfold stop_current at 1. rewrite Hb1, Ht1.
    apply (alter_at_end (set_running false)). by rewrite stop_current_length. }
  split; [|split; [exact Hact2|split; [exact Hb2|split]]].
  - exists (length (tasks w)), (mkCronTask p1 (default_null c1) true).
    split; [exact Hb1|]. split; [|split; [reflexivity|split]].
    + rewrite Ht1. rewrite lookup_app_r by (rewrite stop_current_length; lia).
      rewrite stop_current_length, Nat.sub_diag. reflexivity.
    + rewrite Hstops, Hb1, Nat.eqb_refl. reflexivity.
    + exists (mkCronTask p1 (default_null c1) false). split; [|reflexivity].
      rewrite Ht2, Hstop1.
      rewrite lookup_app_r by (rewrite stop_current_length; lia).
      rewrite stop_current_length, Nat.sub_diag. reflexivity.
  - congruence.
  - intros env ts. by apply cron_ticks_idle.
Qed.

Lemma C3_witness :
  active (snd (run quiet_env (scheduleAutoBackup (VStr "manual") VNull)
            (snd (run quiet_env (scheduleAutoBackup (VStr "weekly") VNull)
                    fresh_world)))) = [].
Proof.
  apply (C3_manual_deactivates quiet_env quiet_env
           (VStr "weekly") VNull VNull fresh_world).
  - apply initial_owned.
  - reflexivity.
Defined.

(** ** Running programs *)

Lemma run_bind {A B : Type} (env : Env) (m : Prog A) (f : A -> Prog B)
    (w : World) :
  run env (bind m f) w =
  match run env m w with
  | (Ok a, w') => run env (f a) w'
  | (Exn e, w') => (Exn e, w')
  end.
Proof.
  revert w. induction m as [a|e|c k IH]; intros w; cbn; try reflexivity.
  destruct (exec env c w) as [o w']. apply IH.
Qed.

Lemma run_try_catch {R : Type} (env : Env) (m : Prog R)
    (h : exn -> Prog R) (w : World) :
  run env (try_catch m h) w =
  match run env m w with
  | (Ok a, w') => (Ok a, w')
  | (Exn e, w') => run env (h e) w'
  end.
Proof.
  revert w. induction m as [a|e|c k IH]; intros w; cbn; try reflexivity.
  destruct (exec env c w) as [o w']. apply IH.
Qed.

Lemma default_null_idem (v : jsval) :
  default_null (default_null v) = default_null v.
Proof. by destruct v. Qed.

(** The handler adds nothing to [scheduleAutoBackup] but the result
    object. *)
Lemma setup_auto_backup_run (env : Env) (s c : jsval) (w : World) :
  run env (setup_auto_backup s c) w =
  (Ok (VObj [("success", VBool true)]),
   snd (run env (scheduleAutoBackup s c) w)).
Proof.
  unfold setup_auto_backup. rewrite run_try_catch.
  unfold mbind, Prog_bind. rewrite run_bind.
  assert (Hsame : scheduleAutoBackup s (default_null c)
                  = scheduleAutoBackup s c).
  { unfold scheduleAutoBackup. by rewrite default_null_idem. }
  rewrite Hsame.
  destruct (scheduleAutoBackup_spec env s c w) as (w' & Hrun & _).
  rewrite Hrun. reflexivity.
Qed.

Lemma unlisted_no_pattern (s : jsval) :
  listed_frequency s = false -> cronPattern s = None.
Proof.
  unfold listed_frequency. intros H.
  apply orb_false_iff in H as [_ H].
  destruct (cronPattern s) as [p|] eqn:Hp; [|reflexivity].
  assert (recurring s = true) by (apply cronPattern_recurring; eauto).
  congruence.
Qed.

(** C5, as the code has it.  A frequency outside manual, daily, weekly
    and monthly is not rejected: the handler returns
    [{ success: true }], never an error object; it stops the task that
    [backupSchedule] held, starts none, and leaves [backupSchedule]
    [null]. *)
Theorem C5_unlisted_frequency_accepted
    (env : Env) (s c : jsval) (w : World) :
  listed_frequency s = false ->
  exists w',
    run env (setup_auto_backup s c) w = (Ok (VObj [("success", VBool true)]), w')
    /\ has_own (VObj [("success", VBool true)]) "error" = false
    /\ tasks w' = stop_current w
    /\ backupSchedule w' = None
    /\ (schedule_owned w -> active w' = []).
Proof.
  intros Hun. apply unlisted_no_pattern in Hun.
  rewrite setup_auto_backup_run. eexists. split; [reflexivity|].
  split; [reflexivity|].
  pose proof (scheduleAutoBackup_active env s c w) as Hact.
  destruct (scheduleAutoBackup_spec env s c w)
    as (w' & Hrun & _ & _ & _ & Ht & Hb & _).
  rewrite Hrun in *. cbn in *. rewrite Hun in *. auto.
Qed.

Lemma C5_witness :
  exists w',
    run quiet_env (setup_auto_backup (VStr "hourly") VNull) fresh_world
    = (Ok (VObj [("success", VBool true)]), w').
Proof.
  destruct (C5_unlisted_frequency_accepted quiet_env (VStr "hourly") VNull
              fresh_world eq_refl) as (w' & Hrun & _).
  exists w'. exact Hrun.
Defined.

(** C5 as the specification states it does not hold: the frequency
    ["hourly"] is answered with [{ success: true }], which is no error
    result. *)
Lemma C5_counterexample :
  listed_frequency (VStr "hourly") = false
  /\ fst (run quiet_env (setup_auto_backup (VStr "hourly") VNull) fresh_world)
     = Ok (VObj [("success", VBool true)])
  /\ forall e : exn,
       fst (run quiet_env (setup_auto_backup (VStr "hourly") VNull)
              fresh_world)
       <> Ok (error_result e).
Proof.
  split; [reflexivity|]. split; [reflexivity|]. intros e. discriminate.
Qed.

(** ** Login *)

Ltac env_case :=
  match goal with
  | |- context [env_fail ?e ?w ?c] =>
      let H := fresh "Hfail" in destruct (env_fail e w c) eqn:H
  end.

Ltac exec_step :=
  unfold exec, complete, perform, db_backup, db_restore, db_repair, db_close,
    db_query, fallible; cbn.

Lemma assoc_remove_key (k : string) (fs : list (string * jsval)) :
  assoc k (remove_key k fs) = None.
Proof.
  induction fs as [|[k' v] fs IH]; cbn; [reflexivity|].
  destruct (String.eqb k k') eqn:Hk; [exact IH|]. cbn. by rewrite Hk.
Qed.

Lemma delete_prop_gone (v v' : jsval) (k : string) :
  delete_prop v k = Ok v' -> has_own v' k = false.
Proof.
  destruct v; cbn; intros H; inversion H; subst; cbn; try reflexivity.
  by rewrite assoc_remove_key.
Qed.

(** C10. The login handler always returns a result object, and whenever
    that object has [success: true], its [user] is the row of the query
    with the key [password_hash] deleted: the hash does not cross the
    IPC boundary. *)
Theorem C10_login_hides_hash
    (env : Env) (username password : jsval) (w : World) :
  exists res w',
    run env (login username password) w = (Ok res, w')
    /\ (get_prop res "success" = Ok (VBool true) ->
        exists user,
          get_prop res "user" = Ok user
          /\ has_own user "password_hash" = false).
Proof.
  unfold login. run_step. exec_step.
  env_case; cbn.
  { do 2 eexists. split; [reflexivity|]. discriminate. }
  destruct (env_rows _ _ _ _) as [|row rows] eqn:Hrows; cbn.
  { do 2 eexists. split; [reflexivity|]. discriminate. }
  unfold prop. destruct (get_prop row "password_hash") eqn:Hget; cbn.
  2:{ exec_step. do 2 eexists. split; [reflexivity|]. discriminate. }
  exec_step. env_case; cbn.
  { do 2 eexists. split; [reflexivity|]. discriminate. }
  destruct (env_compare _ _ _ _); cbn.
  2:{ do 2 eexists. split; [reflexivity|]. discriminate. }
  destruct (delete_prop row "password_hash") as [user|e] eqn:Hdel; cbn.
  2:{ exec_step. do 2 eexists. split; [reflexivity|]. discriminate. }
  do 2 eexists. split; [reflexivity|]. intros _. exists user.
  split; [reflexivity|]. eapply delete_prop_gone, Hdel.
Qed.

Lemma C10_witness :
  exists res w',
    run login_env (login (VStr "admin") (VStr "secret")) fresh_world
    = (Ok res, w')
    /\ (get_prop res "success" = Ok (VBool true) ->
        exists user,
          get_prop res "user" = Ok user
          /\ has_own user "password_hash" = false).
Proof.
  apply (C10_login_hides_hash login_env (VStr "admin") (VStr "secret")
           fresh_world).
Defined.

(** The successful login of [admin_row]: the user object is the row
    without its hash. *)
Example login_admin :
  has_own admin_row "password_hash" = true
  /\ fst (run login_env (login (VStr "admin") (VStr "secret")) fresh_world)
     = Ok (VObj [("success", VBool true);
                 ("user",
                  VObj [("id", VNum 1); ("username", VStr "admin");
                        ("full_name", VStr "Admin"); ("role", VStr "admin");
                        ("gym_id", VNum 1); ("is_active", VNum 1);
                        ("gym_name", VStr "Gym");
                        ("gym_type", VStr "male")])]).
Proof. split; reflexivity. Qed.

(** ** The façade *)

Ltac in_cases H :=
  repeat (destruct H as [H|H]; [try (inversion H; subst; clear H)|]);
  try contradiction.

Ltac find_in := cbn; repeat (first [left; reflexivity | right]).

(** The term that keeps a run from reducing further. *)
Ltac blocker t :=
  lazymatch t with
  | run _ ?p _ => blocker p
  | try_catch ?p _ => blocker p
  | bind ?p _ => blocker p
  | lift ?o => blocker o
  | (if ?b then _ else _) => blocker b
  | (match ?x with Some _ => _ | None => _ end) => blocker x
  | (match ?x with Ok _ => _ | Exn _ => _ end) => blocker x
  | (match ?x with (_, _) => _ end) => blocker x
  | (match ?x with [] => _ | _ :: _ => _ end) => blocker x
  | (match ?x with
     | VUndefined => _ | VNull => _ | VBool _ => _
     | VNum _ => _ | VStr _ => _ | VObj _ => _
     end) => blocker x
  | andb ?a _ => blocker a
  | negb ?a => blocker a
  | exec _ (DbBackup ?a) _ => blocker a
  | canceled ?r => r
  | filePaths ?r => r
  | _ => t
  end.

(** One step of a run: a call is performed (what the clock answered
    is kept as a variable), or the choice that the run waits for is
    split into its cases. *)
Ltac forget_clock :=
  repeat match goal with
         | |- context [env_now ?e ?w] =>
             let now := fresh "now" in generalize (env_now e w); intro now
         end.

Ltac step :=
  first
  [ progress exec_step; forget_clock
  | lazymatch goal with
    | |- exists res w', ?R = _ /\ _ =>
        let b := blocker R in
        lazymatch b with
        | (_, _) => fail
        | _ => first [ is_var b; destruct b | destruct b eqn:? ]; cbn
        end
    end ].

Lemma facade_ok_by_events (w w' : World) (res : jsval) :
  Forall (local_failure_reported res) (new_events w w') ->
  Forall (remote_failure_absorbed res (new_events w w')) (new_events w w') ->
  facade_ok w res w'.
Proof.
  intros Hlocal Hremote. split; intros c e Hc Hin.
  - rewrite Forall_forall in Hlocal.
    apply (Hlocal (End c (Some e))); [by apply list_elem_of_In|exact Hc].
  - rewrite Forall_forall in Hremote.
    apply (Hremote (End c (Some e))); [by apply list_elem_of_In|exact Hc].
Qed.

Lemma local_backup_kept_by_events (w w' : World) (res : jsval) :
  Forall (backup_kept res w') (new_events w w') ->
  local_backup_kept w res w'.
Proof.
  intros Hkept p Hin. rewrite Forall_forall in Hkept.
  apply (Hkept (End (DbBackup p) None)). by apply list_elem_of_In.
Qed.

(** The end of a run: the result is read off, and each obligation is
    checked against the events of the run, one event at a time. *)
Ltac each_event tac :=
  repeat (apply List.Forall_cons; [cbn; first [exact I | tac]|]);
  apply List.Forall_nil.

Ltac forget_choices :=
  repeat match goal with
         | H : _ = _ |- _ => clear H
         end.

Ltac facade_leaf :=
  forget_choices; apply facade_ok_by_events; events;
  [ each_event ltac:(intros; first [discriminate | reflexivity])
  | each_event ltac:(intros; first
      [ discriminate
      | split; [reflexivity|split; [reflexivity|do 2 eexists; find_in]] ]) ].

Ltac leaf := do 2 eexists; split; [reflexivity|]; facade_leaf.

Lemma backup_database_ok (env : Env) (w : World) :
  exists res w',
    run env backup_database w = (Ok res, w') /\ facade_ok w res w'.
Proof.
  unfold backup_database, ensureBackupDirectory. run_step.
  repeat step; leaf.
Qed.

Lemma repair_database_ok (env : Env) (w : World) :
  exists res w',
    run env repair_database w = (Ok res, w') /\ facade_ok w res w'.
Proof.
  unfold repair_database. run_step.
  repeat step; leaf.
Qed.

Lemma restore_database_ok (env : Env) (w : World) :
  exists res w',
    run env restore_database w = (Ok res, w') /\ facade_ok w res w'.
Proof.
  unfold restore_database, ensureBackupDirectory. run_step.
  repeat step; leaf.
Qed.

Lemma setup_auto_backup_ok (env : Env) (s c : jsval) (w : World) :
  exists res w',
    run env (setup_auto_backup s c) w = (Ok res, w') /\ facade_ok w res w'.
Proof.
  unfold setup_auto_backup, scheduleAutoBackup. run_step.
  destruct (backupSchedule w); cbn;
    destruct (truthy s && negb (is_str s "manual")); cbn;
    try destruct (cronPattern s); cbn; leaf.
Qed.

Ltac kept_leaf :=
  forget_choices; apply local_backup_kept_by_events; events;
  each_event ltac:(do 2 eexists; (split; [reflexivity|]);
                   (split; [world; set_solver|reflexivity])).

(** The enhanced backup, every path of it: it returns a result, keeps
    the error policy, and stands by a local backup that succeeded. *)
Lemma backup_database_enhanced_spec
    (env : Env) (options : jsval) (w : World) :
  exists res w',
    run env (backup_database_enhanced options) w = (Ok res, w')
    /\ (facade_ok w res w' /\ local_backup_kept w res w').
Proof.
  unfold backup_database_enhanced, ensureBackupDirectory, setupGoogleDrive,
    uploadToGoogleDrive, prop. run_step.
  destruct options; cbn; repeat step.
  all: do 2 eexists; (split; [reflexivity|]); split;
    [facade_leaf|kept_leaf].
Qed.

(** C8. Each of the five façade operations always returns a result
    object and never throws.  When a call of the local side (the
    Storage Backend, or the creation of the backup directory) fails in
    the run, the result is the error object carrying the message of that
    very failure.  When a call of the remote sync fails, the result is
    still a success, its [driveFileId] is [null], and an error line went
    to the console. *)
Theorem C8_facade_failures (env : Env) (op : Facade) (w : World) :
  exists res w',
    run env (handler op) w = (Ok res, w')
    /\ (forall c e, local_call c = true ->
                    In (End c (Some e)) (new_events w w') ->
                    res = VObj [("error", VStr (message e))])
    /\ (forall c e, remote_call c = true ->
                    In (End c (Some e)) (new_events w w') ->
                    get_prop res "success" = Ok (VBool true)
                    /\ get_prop res "driveFileId" = Ok VNull
                    /\ exists msg e', In (Begin (ConsoleError msg e'))
                                         (new_events w w')).
Proof.
  destruct op as [|options| | |schedule driveCredentials]; cbn [handler].
  - apply backup_database_ok.
  - destruct (backup_database_enhanced_spec env options w)
      as (res & w' & Hrun & Hok & _). eauto.
  - apply restore_database_ok.
  - apply repair_database_ok.
  - apply setup_auto_backup_ok.
Qed.

Lemma C8_witness :
  fst (run (failing_env is_db_backup) (handler BackupDatabase) fresh_world)
  = Ok (VObj [("error", VStr "boom")]).
Proof.
  destruct (C8_facade_failures (failing_env is_db_backup) BackupDatabase
              fresh_world) as (res & w' & Hrun & Hlocal & _).
  rewrite Hrun. cbn [fst]. f_equal.
  apply (Hlocal
           (DbBackup
              (VStr "/home/gym/backups/gym-backup-2024-01-15T10-30-45.db"))
           (Err "boom") eq_refl).
  replace w' with
    (snd (run (failing_env is_db_backup) (handler BackupDatabase)
            fresh_world)) by (rewrite Hrun; reflexivity).
  vm_compute. find_in.
Defined.

(** C1. In every run of the enhanced backup in which the local backup
    succeeds and a call of the remote sync (building the Drive client,
    or the upload itself) fails, the handler returns
    [{ success: true, path, driveFileId: null }], and the file at the
    returned path exists: the failure of the upload does not fail the
    operation. *)
Theorem C1_upload_failure_is_not_fatal
    (env : Env) (options : jsval) (w : World) (p : jsval) (c : Cmd) (e : exn) :
  let r := run env (backup_database_enhanced options) w in
  In (End (DbBackup p) None) (new_events w (snd r)) ->
  remote_call c = true ->
  In (End c (Some e)) (new_events w (snd r)) ->
  exists path,
    p = VStr path
    /\ fst r = Ok (VObj [("success", VBool true); ("path", VStr path);
                         ("driveFileId", VNull)])
    /\ path ∈ files (snd r).
Proof.
  destruct (backup_database_enhanced_spec env options w)
    as (res & w' & Hrun & [_ Hremote] & Hkept).
  rewrite Hrun. cbn. intros Hlocal Hc Hfail.
  destruct (Hkept p Hlocal) as (path & id & -> & Hfile & ->).
  destruct (Hremote c e Hc Hfail) as (_ & Hnull & _).
  cbn in Hnull. inversion Hnull. subst. eauto.
Qed.

Lemma C1_witness :
  let r := run (failing_env is_drive_create)
               (backup_database_enhanced upload_options) fresh_world in
  exists path,
    VStr "/home/gym/backups/gym-backup-2024-01-15T10-30-45.db" = VStr path
    /\ fst r = Ok (VObj [("success", VBool true); ("path", VStr path);
                         ("driveFileId", VNull)])
    /\ path ∈ files (snd r).
Proof.
  apply (C1_upload_failure_is_not_fatal (failing_env is_drive_create)
           upload_options fresh_world
           (VStr "/home/gym/backups/gym-backup-2024-01-15T10-30-45.db")
           (DriveFilesCreate
              (mkDrive (mkAuth (VStr "id") (VStr "secret")
                               (VStr "http://localhost") (VStr "token")))
              "gym-backup-2024-01-15T10-30-45.db"
              (VStr "/home/gym/backups/gym-backup-2024-01-15T10-30-45.db"))
           (Err "boom")).
  - vm_compute. find_in.
  - reflexivity.
  - vm_compute. find_in.
Defined.

(** ** Timestamps *)

Lemma append_cons (x : ascii) (a b : string) :
  String x a +:+ b = String x (a +:+ b).
Proof. reflexivity. Qed.

Lemma append_assoc (a b c : string) : (a +:+ b) +:+ c = a +:+ (b +:+ c).
Proof.
  induction a as [|x a IH]; [reflexivity|].
  rewrite !append_cons. f_equal. exact IH.
Qed.

Lemma all_plain_app (a b : string) :
  all_plain (a +:+ b) = all_plain a && all_plain b.
Proof.
  induction a as [|x a IH]; [reflexivity|].
  rewrite append_cons. cbn. rewrite IH. apply andb_assoc.
Qed.

Lemma plain_spec (c : ascii) :
  plain c = true ->
  Ascii.eqb c ":"%char = false /\ Ascii.eqb c "."%char = false
  /\ is_line_terminator c = false.
Proof.
  unfold plain. destruct (Ascii.eqb c ":"), (Ascii.eqb c "."),
    (is_line_terminator c); cbn; intros H; try discriminate; auto.
Qed.

Lemma plain_digit (n : nat) : plain (digit (n mod 10)) = true.
Proof.
  assert (Hlt : n mod 10 < 10) by (apply Nat.mod_upper_bound; lia).
  remember (n mod 10) as m eqn:Hm. clear Hm.
  do 10 (destruct m as [|m]; [reflexivity|]). lia.
Qed.

Lemma all_plain_pad (width n : nat) : all_plain (pad width n) = true.
Proof.
  revert n. induction width as [|width IH]; intros n; [reflexivity|].
  change (pad (S width) n)
    with (pad width (n / 10) +:+ String (digit (n mod 10)) EmptyString).
  rewrite all_plain_app, IH.
  change (all_plain (String (digit (n mod 10)) EmptyString))
    with (plain (digit (n mod 10)) && true).
  by rewrite plain_digit.
Qed.

Lemma all_plain_iso_date (d : DateTime) : all_plain (iso_date d) = true.
Proof.
  unfold iso_date, iso_year.
  destruct (year d <? 100 * 100)%nat;
    rewrite ?all_plain_app, ?all_plain_pad; reflexivity.
Qed.

Lemma replace_colons_app (a b : string) :
  replace_colons (a +:+ b) = replace_colons a +:+ replace_colons b.
Proof.
  induction a as [|x a IH]; [reflexivity|].
  rewrite append_cons. cbn. rewrite append_cons. f_equal. exact IH.
Qed.

Lemma replace_colons_plain (s : string) :
  all_plain s = true -> replace_colons s = s.
Proof.
  induction s as [|c s IH]; cbn; [reflexivity|].
  intros H. apply andb_true_iff in H as [Hc Hs]. rewrite (IH Hs).
  apply plain_spec in Hc as (Hc & _). by rewrite Hc.
Qed.

Lemma from_line_terminator_plain (s : string) :
  all_plain s = true -> from_line_terminator s = EmptyString.
Proof.
  induction s as [|c s IH]; cbn; [reflexivity|].
  intros H. apply andb_true_iff in H as [Hc Hs].
  apply plain_spec in Hc as (_ & _ & Hc). rewrite Hc. by apply IH.
Qed.

(** A dot after a plain prefix and before a plain, non-empty rest: the
    dot and the rest go, the prefix stays. *)
Lemma strip_dot_rest_plain (a : string) (c : ascii) (b : string) :
  all_plain a = true -> all_plain (String c b) = true ->
  strip_dot_rest (a +:+ String "."%char (String c b)) = a.
Proof.
  intros Ha Hb. induction a as [|x a IH].
  - change (EmptyString +:+ String "."%char (String c b))
      with (String "."%char (String c b)).
    cbn in Hb. apply andb_true_iff in Hb as [Hc Hb].
    apply plain_spec in Hc as (_ & _ & Hc).
    cbn. rewrite Hc. by apply from_line_terminator_plain.
  - rewrite append_cons.
    cbn in Ha. apply andb_true_iff in Ha as [Hx Ha].
    apply plain_spec in Hx as (_ & Hx & _).
    cbn. rewrite Hx. f_equal. exact (IH Ha).
Qed.

Lemma pad_succ_cons (width n : nat) :
  exists c s, pad (S width) n = String c s.
Proof.
  revert n. induction width as [|width IH]; intros n.
  - cbn. eauto.
  - destruct (IH (n / 10)) as (c & s & Heq).
    change (pad (S (S width)) n)
      with (pad (S width) (n / 10) +:+ String (digit (n mod 10)) EmptyString).
    rewrite Heq. cbn. eauto.
Qed.

(** The timestamp of a backup file is the ISO string cut after the
    seconds, with dashes for the colons. *)
Lemma timestamp_iso_seconds (d : DateTime) : timestamp d = iso_seconds d.
Proof.
  unfold timestamp, toISOString, iso_seconds.
  rewrite !replace_colons_app.
  rewrite !(replace_colons_plain (pad _ _)) by apply all_plain_pad.
  rewrite (replace_colons_plain (iso_date d)) by apply all_plain_iso_date.
  change (replace_colons "T") with "T".
  change (replace_colons ":") with "-".
  change (replace_colons ".") with ".".
  change (replace_colons "Z") with "Z".
  destruct (pad_succ_cons 2 (millis d)) as (c & s & Hms).
  assert (Hplain : all_plain (pad 3 (millis d) +:+ "Z") = true)
    by (rewrite all_plain_app, all_plain_pad; reflexivity).
  rewrite Hms in *.
  rewrite <- !append_assoc.
  set (prefix := (((((iso_date d +:+ "T") +:+ pad 2 (hour d)) +:+ "-")
                    +:+ pad 2 (minute d)) +:+ "-") +:+ pad 2 (second d)).
  rewrite !(append_assoc prefix).
  change ("." +:+ String c s +:+ "Z")
    with (String "."%char (String c (s +:+ "Z"))).
  apply strip_dot_rest_plain; [|exact Hplain].
  unfold prefix.
  rewrite !all_plain_app, !all_plain_pad, all_plain_iso_date. reflexivity.
Qed.

Example timestamp_demo :
  toISOString (mkDateTime 2024 1 15 10 30 45 123) = "2024-01-15T10:30:45.123Z"
  /\ timestamp (mkDateTime 2024 1 15 10 30 45 123) = "2024-01-15T10-30-45"
  /\ iso_colons_replaced (mkDateTime 2024 1 15 10 30 45 123)
     = "2024-01-15T10-30-45.123Z".
Proof. repeat split; reflexivity. Qed.

Lemma length_append (a b : string) :
  String.length (a +:+ b) = String.length a + String.length b.
Proof.
  induction a as [|x a IH]; [reflexivity|].
  rewrite append_cons. cbn. by rewrite IH.
Qed.

(** For no date at all is the timestamp of the code the ISO string with
    only its colons replaced: the latter is longer by the fraction and
    the [Z]. *)
Lemma timestamp_shorter (d : DateTime) :
  iso_colons_replaced d = timestamp d +:+ "." +:+ pad 3 (millis d) +:+ "Z"
  /\ timestamp d <> iso_colons_replaced d.
Proof.
  assert (Hfull : iso_colons_replaced d
                  = timestamp d +:+ "." +:+ pad 3 (millis d) +:+ "Z").
  { rewrite timestamp_iso_seconds.
    unfold iso_colons_replaced, toISOString, iso_seconds.
    rewrite !replace_colons_app.
    rewrite !(replace_colons_plain (pad _ _)) by apply all_plain_pad.
    rewrite (replace_colons_plain (iso_date d)) by apply all_plain_iso_date.
    change (replace_colons "T") with "T".
    change (replace_colons ":") with "-".
    change (replace_colons ".") with ".".
    change (replace_colons "Z") with "Z".
    by rewrite !append_assoc. }
  split; [exact Hfull|]. rewrite Hfull. intros Heq.
  apply (f_equal String.length) in Heq.
  rewrite !length_append in Heq. cbn in Heq. lia.
Qed.

(** ** Backups, manual and scheduled *)

Ltac forget_failures :=
  repeat match goal with
         | H : env_fail _ _ _ = _ |- _ => clear H
         end.

Ltac callback_step :=
  first
  [ progress exec_step; forget_clock
  | lazymatch goal with
    | |- exists w', ?R = _ /\ _ =>
        let b := blocker R in
        lazymatch b with
        | (_, _) => fail
        | _ => first [ is_var b; destruct b | destruct b eqn:? ]; cbn
        end
    end ].

Lemma truthy_get_prop (v : jsval) (k : string) (e : exn) :
  truthy v = true -> get_prop v k = Exn e -> False.
Proof. destruct v; cbn; intros; discriminate. Qed.

Lemma elem_of_grown (x y : string) (X Y : gset string) :
  x ∈ X ∪ Y -> x ∈ X ∪ ({[y]} ∪ Y).
Proof.
  intros [H|H]%elem_of_union; apply elem_of_union; [by left|right].
  apply elem_of_union. by right.
Qed.

Lemma elem_of_made (x : string) (X Y : gset string) :
  x ∈ ({[x]} ∪ X) ∪ Y.
Proof. apply elem_of_union_l, elem_of_union_l. by apply elem_of_singleton. Qed.

Lemma elem_of_made_grown (x y : string) (X Y : gset string) :
  x ∈ ({[x]} ∪ X) ∪ ({[y]} ∪ Y).
Proof. apply elem_of_made. Qed.

Ltac dir_exists :=
  first
  [ apply elem_of_made
  | apply elem_of_made_grown
  | match goal with
    | H : bool_decide _ = true |- _ =>
        first [ exact (bool_decide_eq_true_1 _ H)
              | apply elem_of_grown; exact (bool_decide_eq_true_1 _ H) ]
    end ].

Ltac named_leaf :=
  each_event ltac:(split; [eexists; reflexivity|dir_exists]).

Lemma autoBackupCallback_spec (env : Env) (creds : jsval) (w : World) :
  exists w',
    run env (autoBackupCallback creds) w = (Ok tt, w')
    /\ (userData w' = userData w /\ tasks w' = tasks w
        /\ backupSchedule w' = backupSchedule w)
    /\ count is_callback_start (new_events w w') = 1
    /\ Forall (failure_logged (new_events w w')) (new_events w w')
    /\ Forall (upload_has_credentials creds) (new_events w w')
    /\ Forall (named "gym-auto-backup-" w w') (new_events w w')
    /\ (truthy creds = true ->
        forallb nothing_failed_before_upload (new_events w w') = true ->
        existsb is_upload (new_events w w') = true).
Proof.
  unfold autoBackupCallback, ensureBackupDirectory, setupGoogleDrive,
    uploadToGoogleDrive, prop. run_step.
  repeat callback_step.
  all: eexists; (split; [reflexivity|]); forget_failures.
  all: split; [world; auto|].
  all: events.
  all: split; [reflexivity|].
  all: split; [each_event ltac:(do 2 eexists; find_in)|].
  all: split; [each_event ltac:(assumption)|].
  all: split; [named_leaf|].
  all: cbn; intros;
    first [ reflexivity | discriminate | congruence
          | exfalso; eapply truthy_get_prop; eassumption ].
Qed.

Lemma elem_of_added (x : string) (X : gset string) : x ∈ {[x]} ∪ X.
Proof. apply elem_of_union_l. by apply elem_of_singleton. Qed.

(** The manual backup, every path of it: where the backup goes, and
    what is returned when it succeeds. *)
Lemma backup_database_named (env : Env) (w : World) :
  exists res w',
    run env backup_database w = (Ok res, w')
    /\ Forall (named "gym-backup-" w w') (new_events w w')
    /\ Forall (manual_backup_returned res w') (new_events w w').
Proof.
  unfold backup_database, ensureBackupDirectory. run_step.
  repeat step.
  all: do 2 eexists; (split; [reflexivity|]); forget_failures; events.
  all: split; [named_leaf|].
  all: each_event ltac:(eexists; (split; [reflexivity|]);
                        (split; [apply elem_of_added|reflexivity])).
Qed.


Ltac exact_step :=
  first
  [ progress exec_step
  | lazymatch goal with
    | |- exists res w', ?R = _ /\ _ =>
        let b := blocker R in
        lazymatch b with
        | (_, _) => fail
        | _ => first [ is_var b; destruct b | destruct b eqn:? ]; cbn
        end
    end ].

Ltac stamped_leaf :=
  each_event ltac:(split; [reflexivity|dir_exists]).

Lemma backup_database_stamped (env : Env) (w : World) :
  exists res w',
    run env backup_database w = (Ok res, w')
    /\ Forall (stamped "gym-backup-" (manual_clock env w) w w')
              (new_events w w')
    /\ Forall (manual_backup_returned res w') (new_events w w')
    /\ (existsb has_failed (new_events w w') = false ->
        count is_backup_begin (new_events w w') = 1).
Proof.
  unfold manual_clock, backup_database, ensureBackupDirectory. run_step.
  repeat exact_step.
  all: do 2 eexists; (split; [reflexivity|]); forget_failures; events.
  all: split; [stamped_leaf|].
  all: split;
    [ each_event ltac:(eexists; (split; [reflexivity|]);
                       (split; [apply elem_of_added|reflexivity])) |].
  all: cbn; intros Hquiet; first [discriminate | reflexivity].
Qed.

Ltac exact_callback_step :=
  first
  [ progress exec_step
  | lazymatch goal with
    | |- exists w', ?R = _ /\ _ =>
        let b := blocker R in
        lazymatch b with
        | (_, _) => fail
        | _ => first [ is_var b; destruct b | destruct b eqn:? ]; cbn
        end
    end ].

Lemma autoBackupCallback_stamped (env : Env) (creds : jsval) (w : World) :
  exists w',
    run env (autoBackupCallback creds) w = (Ok tt, w')
    /\ Forall (stamped "gym-auto-backup-" (scheduled_clock env w) w w')
              (new_events w w')
    /\ (existsb has_failed (new_events w w') = false ->
        count is_backup_begin (new_events w w') = 1).
Proof.
  unfold scheduled_clock, autoBackupCallback, ensureBackupDirectory,
    setupGoogleDrive, uploadToGoogleDrive, prop. run_step.
  repeat exact_callback_step.
  all: eexists; (split; [reflexivity|]); forget_failures.
  all: events.
  all: split; [stamped_leaf|].
  all: cbn; intros Hquiet; first [discriminate | reflexivity].
Qed.

(** C7, as the code has it.  The manual backup asks the Storage
    Backend for the file [gym-backup-<stamp>.db], the scheduled backup
    for [gym-auto-backup-<stamp>.db], where [<stamp>] is the ISO string
    of the clock the handler reads, cut after the seconds, with dashes
    for its colons ([YYYY-MM-DDTHH-mm-ss]: the fraction and the [Z] are
    dropped too); both files lie in the directory [backups] under
    [userData], which exists by the time of the backup (it is created
    when absent); a manual backup that succeeds returns the path of a
    file that exists; and when no call fails, each of the two asks for
    exactly one backup. *)
Theorem C7_backup_file_names (env : Env) (creds : jsval) (w : World) :
  let dir := path_join (userData w) "backups" in
  let manual := run env backup_database w in
  let scheduled := run env (autoBackupCallback creds) w in
  (forall p,
     In (Begin (DbBackup p)) (new_events w (snd manual)) ->
     p = VStr (path_join dir
                 ("gym-backup-" +:+ iso_seconds (manual_clock env w)
                  +:+ ".db"))
     /\ dir ∈ dirs (snd manual) ∪ files (snd manual))
  /\ (forall p,
        In (End (DbBackup p) None) (new_events w (snd manual)) ->
        exists path,
          p = VStr path /\ path ∈ files (snd manual)
          /\ fst manual = Ok (VObj [("success", VBool true);
                                    ("path", VStr path)]))
  /\ (forall p,
        In (Begin (DbBackup p)) (new_events w (snd scheduled)) ->
        p = VStr (path_join dir
                    ("gym-auto-backup-"
                     +:+ iso_seconds (scheduled_clock env w) +:+ ".db"))
        /\ dir ∈ dirs (snd scheduled) ∪ files (snd scheduled))
  /\ (existsb has_failed (new_events w (snd manual)) = false ->
      count is_backup_begin (new_events w (snd manual)) = 1)
  /\ (existsb has_failed (new_events w (snd scheduled)) = false ->
      count is_backup_begin (new_events w (snd scheduled)) = 1).
Proof.
  intros dir manual scheduled.
  destruct (backup_database_stamped env w)
    as (res & w1 & Hrun1 & Hnamed1 & Hret1 & Hasked1).
  destruct (autoBackupCallback_stamped env creds w)
    as (w2 & Hrun2 & Hnamed2 & Hasked2).
  unfold manual, scheduled. rewrite Hrun1, Hrun2. cbn [fst snd].
  rewrite Forall_forall in Hnamed1, Hret1, Hnamed2.
  split; [|split; [|split; [|split]]].
  - intros p Hin%list_elem_of_In.
    destruct (Hnamed1 _ Hin) as [-> Hdir]. split; [|exact Hdir].
    unfold backup_path. by rewrite timestamp_iso_seconds.
  - intros p Hin%list_elem_of_In.
    destruct (Hret1 _ Hin) as (path & -> & Hfile & ->). eauto.
  - intros p Hin%list_elem_of_In.
    destruct (Hnamed2 _ Hin) as [-> Hdir]. split; [|exact Hdir].
    unfold backup_path. by rewrite timestamp_iso_seconds.
  - exact Hasked1.
  - exact Hasked2.
Qed.

Lemma C7_witness :
  exists path,
    VStr "/home/gym/backups/gym-backup-2024-01-15T10-30-45.db" = VStr path
    /\ path ∈ files (snd (run quiet_env backup_database fresh_world))
    /\ fst (run quiet_env backup_database fresh_world)
       = Ok (VObj [("success", VBool true); ("path", VStr path)]).
Proof.
  apply (C7_backup_file_names quiet_env VNull fresh_world).
  vm_compute. find_in.
Defined.

(** C7 as the specification states it does not hold.  At
    2024-01-15 10:30:45.123 UTC the ISO string with only its colons
    replaced is [2024-01-15T10-30-45.123Z]; the manual backup writes
    [gym-backup-2024-01-15T10-30-45.db], and no file of the name
    [gym-backup-2024-01-15T10-30-45.123Z.db]. *)
Lemma C7_counterexample :
  let w' := snd (run quiet_env backup_database fresh_world) in
  iso_colons_replaced (env_now quiet_env fresh_world)
  = "2024-01-15T10-30-45.123Z"
  /\ "/home/gym/backups/gym-backup-2024-01-15T10-30-45.db" ∈ files w'
  /\ "/home/gym/backups/gym-backup-2024-01-15T10-30-45.123Z.db" ∉ files w'.
Proof.
  cbn zeta. split; [reflexivity|].
  assert (Hfiles : files (snd (run quiet_env backup_database fresh_world))
                   = {["/home/gym/backups/gym-backup-2024-01-15T10-30-45.db"]}
                     ∪ ∅) by reflexivity.
  rewrite Hfiles. split.
  - apply elem_of_added.
  - intros [H|H]%elem_of_union.
    + apply elem_of_singleton in H. discriminate.
    + by apply not_elem_of_empty in H.
Qed.

(** ** Ticks of the cron library *)

Lemma trace_perform (env : Env) (c : Cmd) (w : World) :
  trace (snd (perform env c w)) = trace w.
Proof.
  destruct c; cbn;
    unfold db_backup, db_restore, db_repair, db_close, db_query, fallible;
    try (destruct (env_fail env w _); reflexivity); try reflexivity.
  destruct p; try reflexivity. destruct (env_fail env w _); reflexivity.
Qed.

Lemma trace_exec (env : Env) (c : Cmd) (w : World) :
  trace (snd (exec env c w))
  = trace w ++ [Begin c; End c (failure_of (fst (exec env c w)))].
Proof.
  unfold exec, complete.
  pose proof (trace_perform env c (issue c w)) as Htrace.
  destruct (perform env c (issue c w)) as [o w'].
  cbn in *. rewrite Htrace. by rewrite <- app_assoc.
Qed.

(** A run only adds to the history. *)
Lemma run_extends {R : Type} (env : Env) (p : Prog R) (w : World) :
  trace (snd (run env p w)) = trace w ++ new_events w (snd (run env p w)).
Proof.
  revert w. induction p as [r|e|c k IH]; intros w; cbn.
  - unfold new_events. by rewrite drop_all, app_nil_r.
  - unfold new_events. by rewrite drop_all, app_nil_r.
  - pose proof (trace_exec env c w) as Hexec.
    destruct (exec env c w) as [o w1]. cbn in Hexec.
    rewrite IH. unfold new_events at 2. rewrite IH, Hexec.
    rewrite <- !app_assoc. by rewrite drop_app_length.
Qed.

Lemma count_app (f : Event -> bool) (a b : list Event) :
  count f (a ++ b) = count f a + count f b.
Proof. unfold count. by rewrite List.filter_app, length_app. Qed.

Lemma failure_logged_app (a b : list Event) :
  Forall (failure_logged a) a -> Forall (failure_logged b) b ->
  Forall (failure_logged (a ++ b)) (a ++ b).
Proof.
  intros Ha Hb. apply Forall_app. split.
  - eapply Forall_impl; [exact Ha|]. intros [c|c [e|]]; cbn; try done.
    intros (msg & e' & Hin). exists msg, e'. apply in_or_app. by left.
  - eapply Forall_impl; [exact Hb|]. intros [c|c [e|]]; cbn; try done.
    intros (msg & e' & Hin). exists msg, e'. apply in_or_app. by right.
Qed.

(** The callbacks of one tick, whatever fails in them: the tasks and
    [backupSchedule] are as before, every callback was started, and
    every failure left a line on the console. *)
Lemma run_callbacks_spec (env : Env) (cbs : list CronTask) (w : World) :
  tasks (run_callbacks env cbs w) = tasks w
  /\ backupSchedule (run_callbacks env cbs w) = backupSchedule w
  /\ trace (run_callbacks env cbs w)
     = trace w ++ new_events w (run_callbacks env cbs w)
  /\ count is_callback_start (new_events w (run_callbacks env cbs w))
     = length cbs
  /\ Forall (failure_logged (new_events w (run_callbacks env cbs w)))
            (new_events w (run_callbacks env cbs w)).
Proof.
  revert w. induction cbs as [|task cbs IH]; intros w.
  - cbn [run_callbacks]. unfold new_events.
    rewrite drop_all, app_nil_r. repeat split; constructor.
  - change (run_callbacks env (task :: cbs) w)
      with (run_callbacks env cbs
              (snd (run env (autoBackupCallback (captured_credentials task))
                      w))).
    destruct (autoBackupCallback_spec env (captured_credentials task) w)
      as (w1 & Hrun & (_ & Ht & Hb) & Hcount & Hlogged & _).
    pose proof (run_extends env (autoBackupCallback (captured_credentials task))
                  w) as Hext.
    rewrite Hrun in *. cbn [snd] in *.
    destruct (IH w1) as (Ht' & Hb' & Hext' & Hcount' & Hlogged').
    set (w' := run_callbacks env cbs w1) in *.
    assert (Hnew : new_events w w' = new_events w w1 ++ new_events w1 w').
    { unfold new_events at 1. rewrite Hext', Hext, <- app_assoc.
      by rewrite drop_app_length. }
    rewrite Hnew. repeat split.
    + congruence.
    + congruence.
    + rewrite Hext', Hext. by rewrite app_assoc.
    + rewrite count_app, Hcount, Hcount'. reflexivity.
    + by apply failure_logged_app.
Qed.

Lemma active_tasks (w w' : World) : tasks w' = tasks w -> active w' = active w.
Proof. unfold active. by intros ->. Qed.

Lemma due_tasks_tasks (t : LocalTime) (w w' : World) :
  tasks w' = tasks w -> due_tasks t w' = due_tasks t w.
Proof. unfold due_tasks. by intros ->. Qed.

(** C6. Whatever fails in a scheduled backup, the callback returns
    normally: the error is caught and logged, not propagated.  After a
    tick the tasks are what they were, as running as before, and
    [backupSchedule] is unchanged; every call that failed during the
    tick has left an error line on the console; and at the next tick
    the callback of every task that is then due is started again. *)
Theorem C6_scheduled_failures_contained
    (env1 env2 : Env) (t1 t2 : LocalTime) (w : World) :
  let w1 := cron_tick env1 t1 w in
  let w2 := cron_tick env2 t2 w1 in
  (forall creds w0, fst (run env1 (autoBackupCallback creds) w0) = Ok tt)
  /\ tasks w1 = tasks w /\ active w1 = active w
  /\ backupSchedule w1 = backupSchedule w
  /\ (forall c e,
        In (End c (Some e)) (new_events w w1) ->
        exists msg e', In (Begin (ConsoleError msg e')) (new_events w w1))
  /\ count is_callback_start (new_events w w1) = length (due_tasks t1 w)
  /\ count is_callback_start (new_events w1 w2) = length (due_tasks t2 w).
Proof.
  intros w1 w2.
  destruct (run_callbacks_spec env1 (due_tasks t1 w) w)
    as (Ht & Hb & _ & Hcount & Hlogged).
  destruct (run_callbacks_spec env2 (due_tasks t2 w1) w1)
    as (_ & _ & _ & Hcount2 & _).
  fold (cron_tick env1 t1 w) in Ht, Hb, Hcount, Hlogged. fold w1 in Ht, Hb, Hcount, Hlogged.
  fold (cron_tick env2 t2 w1) in Hcount2. fold w2 in Hcount2.
  split; [|repeat split].
  - intros creds w0.
    destruct (autoBackupCallback_spec env1 creds w0) as (w' & Hrun & _).
    by rewrite Hrun.
  - exact Ht.
  - by apply active_tasks.
  - exact Hb.
  - intros c e Hin. rewrite Forall_forall in Hlogged.
    apply (Hlogged (End c (Some e))). by apply list_elem_of_In.
  - exact Hcount.
  - by rewrite Hcount2, (due_tasks_tasks t2 w w1).
Qed.

Lemma C6_witness :
  let w1 := cron_tick (failing_env is_db_backup) monday_2am daily_world in
  let w2 := cron_tick quiet_env tuesday_2am w1 in
  count is_callback_start (new_events w1 w2) = 1.
Proof.
  cbn zeta.
  destruct (C6_scheduled_failures_contained (failing_env is_db_backup)
              quiet_env monday_2am tuesday_2am daily_world)
    as (_ & _ & _ & _ & _ & _ & Hnext).
  rewrite Hnext. reflexivity.
Defined.

(** The failing tick of the witness: the backup fails, the failure is
    on the console, the task keeps running. *)
Example failing_tick :
  let w1 := cron_tick (failing_env is_db_backup) monday_2am daily_world in
  In (End (DbBackup
             (VStr "/home/gym/backups/gym-auto-backup-2024-01-15T10-30-45.db"))
          (Some (Err "boom")))
     (new_events daily_world w1)
  /\ In (Begin (ConsoleError "Automatic backup failed:" (Err "boom")))
        (new_events daily_world w1)
  /\ active w1 = [mkCronTask "0 2 * * *" VNull true].
Proof.
  cbn zeta. split; [|split].
  - vm_compute. find_in.
  - vm_compute. find_in.
  - reflexivity.
Qed.

(** ** The three patterns *)

(** What the three expressions mean to the cron library: 02:00 every
    day; 02:00 on Sundays; 02:00 on the first of the month. *)
Lemma due_daily (t : LocalTime) :
  due "0 2 * * *" t = true <-> lt_minute t = 0 /\ lt_hour t = 2.
Proof.
  change (due "0 2 * * *" t)
    with ((0 =? lt_minute t)%nat && (2 =? lt_hour t)%nat
          && true && true && true).
  rewrite !andb_true_r, andb_true_iff, !Nat.eqb_eq. intuition lia.
Qed.

Lemma due_weekly (t : LocalTime) :
  due "0 2 * * 0" t = true
  <-> lt_minute t = 0 /\ lt_hour t = 2 /\ lt_dayOfWeek t = 0.
Proof.
  change (due "0 2 * * 0" t)
    with ((0 =? lt_minute t)%nat && (2 =? lt_hour t)%nat
          && true && true && (0 =? lt_dayOfWeek t)%nat).
  rewrite !andb_true_r, !andb_true_iff, !Nat.eqb_eq. intuition lia.
Qed.

Lemma due_monthly (t : LocalTime) :
  due "0 2 1 * *" t = true
  <-> lt_minute t = 0 /\ lt_hour t = 2 /\ lt_dayOfMonth t = 1.
Proof.
  change (due "0 2 1 * *" t)
    with ((0 =? lt_minute t)%nat && (2 =? lt_hour t)%nat
          && (1 =? lt_dayOfMonth t)%nat && true && true).
  rewrite !andb_true_r, !andb_true_iff, !Nat.eqb_eq. intuition lia.
Qed.

Lemma existsb_upload_inv (creds : jsval) (evs : list Event) :
  Forall (upload_has_credentials creds) evs ->
  existsb is_upload evs = true -> truthy creds = true.
Proof.
  induction 1 as [|ev evs Hev _ IH]; cbn; [discriminate|].
  destruct (is_upload ev) eqn:Hup; [|exact IH]. intros _.
  destruct ev as [[]|]; try discriminate. exact Hev.
Qed.

(** C4. A recurring frequency is mapped to its fixed expression: daily
    to ["0 2 * * *"], weekly to ["0 2 * * 0"], monthly to
    ["0 2 1 * *"], which the cron library takes for 02:00 of every
    day, of every Sunday, and of the first day of every month.
    [scheduleAutoBackup] registers a running task with
    that expression, held by [backupSchedule], whose callback is the
    backup callback closed over the credentials of the call; from a
    state in which [backupSchedule] owns the running tasks, a tick runs
    exactly that callback when the expression is due, and nothing
    otherwise.  In a run of the callback an upload to Drive happens
    only if the credentials are present, and it does happen with
    credentials when no call before the upload fails. *)
Theorem C4_recurring_schedule (env : Env) (s c : jsval) (w : World) :
  recurring s = true ->
  let w' := snd (run env (scheduleAutoBackup s c) w) in
  let creds := default_null c in
  (cronPattern (VStr "daily") = Some "0 2 * * *"
   /\ cronPattern (VStr "weekly") = Some "0 2 * * 0"
   /\ cronPattern (VStr "monthly") = Some "0 2 1 * *")
  /\ (forall t,
        (due "0 2 * * *" t = true <-> lt_minute t = 0 /\ lt_hour t = 2)
        /\ (due "0 2 * * 0" t = true
            <-> lt_minute t = 0 /\ lt_hour t = 2 /\ lt_dayOfWeek t = 0)
        /\ (due "0 2 1 * *" t = true
            <-> lt_minute t = 0 /\ lt_hour t = 2 /\ lt_dayOfMonth t = 1))
  /\ (exists task p,
        cronPattern s = Some p
        /\ backupSchedule w' = Some task
        /\ tasks w' !! task = Some (mkCronTask p creds true)
        /\ (schedule_owned w ->
            forall env' t,
              cron_tick env' t w' =
              if due p t
              then snd (run env' (autoBackupCallback creds) w')
              else w'))
  /\ (forall env' w0,
        let evs := new_events w0 (snd (run env' (autoBackupCallback creds) w0))
        in
        (existsb is_upload evs = true -> truthy creds = true)
        /\ (truthy creds = true ->
            forallb nothing_failed_before_upload evs = true ->
            existsb is_upload evs = true)).
Proof.
  intros Hr w' creds. split; [repeat split|].
  split; [intros t; split; [apply due_daily|split;
                            [apply due_weekly|apply due_monthly]]|].
  split.
  - apply cronPattern_recurring in Hr as [p Hp].
    destruct (scheduleAutoBackup_spec env s c w)
      as (w1 & Hrun & _ & _ & _ & Ht & Hb & _).
    assert (w' = w1) as -> by (unfold w'; by rewrite Hrun).
    rewrite Hp in Ht, Hb.
    exists (length (tasks w)), p. split; [exact Hp|]. split; [exact Hb|].
    split.
    + rewrite Ht, lookup_app_r by (rewrite stop_current_length; lia).
      by rewrite stop_current_length, Nat.sub_diag.
    + intros Hown env' t. unfold cron_tick, due_tasks. rewrite Ht.
      rewrite List.filter_app.
      rewrite (filter_none _ (stop_current w)).
      * cbn. destruct (due p t); reflexivity.
      * eapply Forall_impl; [exact (stop_current_inactive w Hown)|].
        cbn. by intros task ->.
  - intros env' w0 evs.
    destruct (autoBackupCallback_spec env' creds w0)
      as (w1 & Hrun & _ & _ & _ & Hcreds & _ & Hupload).
    unfold evs. rewrite Hrun. cbn [snd]. split; [|exact Hupload].
    by apply existsb_upload_inv.
Qed.

Lemma C4_witness :
  let w' := snd (run quiet_env
                   (scheduleAutoBackup (VStr "weekly") upload_credentials)
                   fresh_world) in
  backupSchedule w' = Some 0
  /\ tasks w' !! 0 = Some (mkCronTask "0 2 * * 0" upload_credentials true).
Proof.
  cbn zeta.
  destruct (C4_recurring_schedule quiet_env (VStr "weekly") upload_credentials
              fresh_world eq_refl)
    as (_ & _ & (task & p & Hp & Hb & Ht & _) & _).
  inversion Hp. subst p. cbn in Hb. inversion Hb. subst task.
  split; [reflexivity|exact Ht].
Defined.

(** ** Interleaving *)

(** When every call completes as soon as it is issued, the event loop
    does what [run] does. *)
Lemma advance_settle {R : Type} (env : Env) (p : Prog R) (w : World) :
  settle env (fst (advance env p w)) (snd (advance env p w)) = run env p w.
Proof.
  revert w. induction p as [r|e|c k IH]; intros w; cbn; try reflexivity.
  destruct (awaited c); cbn.
  - unfold exec. destruct (complete env c (issue c w)). reflexivity.
  - destruct (exec env c w) as [o w']. apply IH.
Qed.

Lemma serialized_from_app (n : nat) (a b : list Event) :
  serialized_from n (a ++ b)
  = serialized_from n a && serialized_from (in_flight_after n a) b.
Proof.
  revert n. induction a as [|[c|c f] a IH]; intros n; cbn; [reflexivity| |].
  - destruct (storage_call c); [|apply IH].
    rewrite IH. by rewrite andb_assoc.
  - apply IH.
Qed.

Lemma in_flight_after_app (n : nat) (a b : list Event) :
  in_flight_after n (a ++ b) = in_flight_after (in_flight_after n a) b.
Proof.
  revert n. induction a as [|[c|c f] a IH]; intros n; cbn;
    [reflexivity|apply IH|apply IH].
Qed.

Lemma advance_sync {R : Type} (env : Env) (c : Cmd)
    (k : outcome (resp c) -> Prog R) (w : World) :
  awaited c = false ->
  advance env (Vis c k) w
  = advance env (k (fst (exec env c w))) (snd (exec env c w)).
Proof. cbn [advance]. intros ->. by destruct (exec env c w). Qed.

Lemma advance_await {R : Type} (env : Env) (c : Cmd)
    (k : outcome (resp c) -> Prog R) (w : World) :
  awaited c = true -> advance env (Vis c k) w = (Waiting c k, issue c w).
Proof. cbn [advance]. by intros ->. Qed.

(** The head of the program of an [advance] is brought to the form of a
    call, and the call is made. *)
Ltac advance_step :=
  match goal with
  | |- context [advance ?e ?p ?w] =>
      let p' := eval lazy head in p in
      change (advance e p w) with (advance e p' w);
      first [ rewrite advance_await by reflexivity
            | rewrite advance_sync by reflexivity;
              unfold exec, complete;
              cbn [perform fst snd failure_of] ]
  end.

(** A tick with a task due, the backup directory in place: the callback
    runs up to its backup, which is issued there and then; nothing else
    touches the Storage Backend on the way. *)
Lemma callback_issues_backup (env : Env) (creds : jsval) (w : World) :
  path_join (userData w) "backups" ∈ dirs w ∪ files w ->
  exists path k w' evs,
    advance env (callback_handler creds) w
    = (Waiting (DbBackup (VStr path)) k, w')
    /\ trace w' = trace w ++ evs ++ [Begin (DbBackup (VStr path))]
    /\ forallb (fun ev => negb (is_storage_event ev)) evs = true
    /\ (userData w' = userData w /\ dirs w' = dirs w /\ files w' = files w
        /\ tasks w' = tasks w).
Proof.
  intros Hdir. pose proof (bool_decide_eq_true_2 _ Hdir) as Hthere.
  do 3 eexists.
  exists [Begin (ConsoleLog "Starting automatic backup...");
          End (ConsoleLog "Starting automatic backup...") None;
          Begin AppGetPathUserData; End AppGetPathUserData None;
          Begin (FsExistsSync (path_join (userData w) "backups"));
          End (FsExistsSync (path_join (userData w) "backups")) None;
          Begin DateNow; End DateNow None].
  split.
  - do 3 advance_step. world. rewrite Hthere.
    do 2 advance_step. reflexivity.
  - world. split; [|repeat split].
    rewrite <- !app_assoc. reflexivity.
Qed.

(** C9, as the code has it.  The event loop does not serialize the
    Storage Backend: no lock, no queue.  Whenever a
    Storage Backend call is in flight (a restore, say), the backup
    directory is there, and a tick finds one task due, the callback of
    that task issues its backup in that very tick: it is suspended on
    it, the call that was in flight still is, and the history is not
    serialized. *)
Theorem C9_storage_calls_interleave
    (env : Env) (l : Loop) (t : LocalTime) (task : CronTask) (n : nat) :
  in_flight_after 0 (trace (world l)) = S n ->
  due_tasks t (world l) = [task] ->
  path_join (userData (world l)) "backups"
    ∈ dirs (world l) ∪ files (world l) ->
  let l' := turn env (Tick t) l in
  (exists path k,
     pool l' = pool l ++ [Waiting (DbBackup (VStr path)) k]
     /\ last (trace (world l')) = Some (Begin (DbBackup (VStr path))))
  /\ in_flight_after 0 (trace (world l')) = S (S n)
  /\ serialized (trace (world l')) = false.
Proof.
  intros Hflight Hdue Hdir l'.
  destruct (callback_issues_backup env (captured_credentials task) (world l)
              Hdir) as (path & k & w' & evs & Hadv & Htrace & Hquiet & _).
  assert (Hl' : l' = mkLoop w' (pool l ++ [Waiting (DbBackup (VStr path)) k])).
  { unfold l', turn. rewrite Hdue. cbn [start_callbacks]. unfold spawn.
    by rewrite Hadv. }
  rewrite Hl'. cbn [world pool].
  assert (Hkeep : forall m, in_flight_after m evs = m
                            /\ serialized_from m evs = true).
  { clear -Hquiet. induction evs as [|[c|c f] evs IH]; intros m;
      [done| |]; cbn in Hquiet |- *;
      apply andb_true_iff in Hquiet as [Hc Hquiet];
      apply negb_true_iff in Hc; rewrite Hc; by apply IH. }
  split; [|split].
  - exists path, k. split; [reflexivity|].
    rewrite Htrace, app_assoc. apply last_snoc.
  - rewrite Htrace, !in_flight_after_app, Hflight.
    rewrite (proj1 (Hkeep _)). reflexivity.
  - unfold serialized. rewrite Htrace, !serialized_from_app, Hflight.
    rewrite (proj1 (Hkeep _)). cbn. by rewrite !andb_false_r.
Qed.

Lemma C9_witness :
  let l' := turn quiet_env (Tick monday_2am) restoring in
  in_flight_after 0 (trace (world restoring)) = 1
  /\ in_flight_after 0 (trace (world l')) = 2
  /\ serialized (trace (world l')) = false.
Proof.
  cbn zeta. split; [reflexivity|].
  apply (C9_storage_calls_interleave quiet_env restoring monday_2am
           (mkCronTask "0 2 * * *" VNull true) 0).
  - reflexivity.
  - reflexivity.
  - apply (bool_decide_eq_true_1 _). vm_compute. reflexivity.
Defined.

(** C9 as the specification states it does not hold.  A restore is
    requested and the user picks a file; while the restore of the
    Storage Backend is in flight, the daily backup falls due: its
    backup begins before the restore has completed. *)
Lemma C9_counterexample :
  let l' := turn quiet_env (Tick monday_2am) restoring in
  List.filter is_storage_event (new_events daily_world (world l'))
  = [Begin (DbRestore "/backups/old.db");
     Begin (DbBackup
              (VStr "/home/gym/backups/gym-auto-backup-2024-01-15T10-30-45.db"))]
  /\ serialized (trace (world l')) = false.
Proof. cbn zeta. split; vm_compute; reflexivity. Qed.

(** ** The backup directory *)

(** [ensureBackupDirectory], case by case: the directory is there and
    nothing is created; it is absent and is created; it is absent and
    cannot be created, and the error of [mkdirSync] is thrown on. *)
Lemma ensureBackupDirectory_cases (env : Env) (w : World) :
  let dir := path_join (userData w) "backups" in
  exists o w',
    run env ensureBackupDirectory w = (o, w')
    /\ userData w' = userData w /\ files w' = files w
    /\ tasks w' = tasks w /\ backupSchedule w' = backupSchedule w
    /\ ((dir ∈ dirs w ∪ files w /\ o = Ok dir /\ dirs w' = dirs w
         /\ count is_mkdir (new_events w w') = 0)
        \/ ((dir ∉ dirs w ∪ files w) /\ o = Ok dir
            /\ dirs w' = {[dir]} ∪ dirs w
            /\ count is_mkdir (new_events w w') = 1)
        \/ ((dir ∉ dirs w ∪ files w) /\ dirs w' = dirs w
            /\ exists e, o = Exn e
                         /\ In (End (FsMkdirSyncRecursive dir) (Some e))
                               (new_events w w'))).
Proof.
  intros dir. unfold ensureBackupDirectory. run_step. exec_step.
  destruct (bool_decide (path_join (userData w) "backups"
                           ∈ dirs w ∪ files w)) eqn:Hthere; cbn.
  - apply bool_decide_eq_true_1 in Hthere.
    do 2 eexists. split; [reflexivity|]. world.
    repeat (split; [reflexivity|]). left.
    repeat (split; [done|]). events. reflexivity.
  - apply bool_decide_eq_false_1 in Hthere. exec_step. env_case; cbn.
    + do 2 eexists. split; [reflexivity|]. world.
      repeat (split; [reflexivity|]). right. right.
      repeat (split; [done|]). eexists. split; [reflexivity|].
      events. find_in.
    + do 2 eexists. split; [reflexivity|]. world.
      repeat (split; [reflexivity|]). right. left.
      repeat (split; [done|]). events. reflexivity.
Qed.

Lemma elem_of_union_mono (x : string) (A A' B B' : gset string) :
  x ∈ A ∪ B -> A ⊆ A' -> B ⊆ B' -> x ∈ A' ∪ B'.
Proof.
  intros [H|H]%elem_of_union HA HB; apply elem_of_union;
    [left; by apply HA|right; by apply HB].
Qed.

(** X1. Once [ensureBackupDirectory] has succeeded, every later call
    returns the same path and creates nothing, whatever the environment
    and whatever was written in between, as long as nothing was
    deleted: [mkdirSync] is not called again. *)
Theorem ensureBackupDirectory_idempotent
    (env1 env2 : Env) (w w2 : World) (dir : string) :
  fst (run env1 ensureBackupDirectory w) = Ok dir ->
  let w1 := snd (run env1 ensureBackupDirectory w) in
  userData w2 = userData w1 ->
  dirs w1 ⊆ dirs w2 -> files w1 ⊆ files w2 ->
  dir = path_join (userData w) "backups"
  /\ dir ∈ dirs w1 ∪ files w1
  /\ fst (run env2 ensureBackupDirectory w2) = Ok dir
  /\ dirs (snd (run env2 ensureBackupDirectory w2)) = dirs w2
  /\ count is_mkdir (new_events w2 (snd (run env2 ensureBackupDirectory w2)))
     = 0.
Proof.
  intros Hok w1 Hdata Hdirs Hfiles.
  destruct (ensureBackupDirectory_cases env1 w)
    as (o & w1' & Hrun & Hu & Hf & _ & _ & Hcase).
  assert (w1 = w1') as Hw1 by (unfold w1; by rewrite Hrun).
  rewrite Hrun in Hok. cbn in Hok. subst o. rewrite <- Hw1 in *.
  assert (Hin : dir = path_join (userData w) "backups"
                /\ dir ∈ dirs w1 ∪ files w1).
  { destruct Hcase as [(Hin & Heq & Hd & _)|[(Hout & Heq & Hd & _)|
                       (_ & _ & e & Heq & _)]]; [| |discriminate].
    - inversion Heq. split; [reflexivity|]. rewrite Hd, Hf. exact Hin.
    - inversion Heq. split; [reflexivity|]. rewrite Hd.
      apply elem_of_union_l, elem_of_union_l. by apply elem_of_singleton. }
  destruct Hin as [Hdir Hin]. split; [exact Hdir|]. split; [exact Hin|].
  destruct (ensureBackupDirectory_cases env2 w2)
    as (o2 & w3 & Hrun2 & _ & _ & _ & _ & Hcase2).
  rewrite Hrun2. cbn [fst snd]. rewrite Hdata, Hu, <- Hdir in Hcase2.
  destruct Hcase2 as [(_ & -> & Hd & Hc)|[(Hout & _)|(Hout & _)]].
  - auto.
  - exfalso. apply Hout. by eapply elem_of_union_mono.
  - exfalso. apply Hout. by eapply elem_of_union_mono.
Qed.

Lemma ensureBackupDirectory_idempotent_witness :
  fst (run (failing_env (fun _ => true)) ensureBackupDirectory prepared_world)
  = Ok "/home/gym/backups".
Proof.
  apply (ensureBackupDirectory_idempotent quiet_env
           (failing_env (fun _ => true)) fresh_world prepared_world
           "/home/gym/backups").
  - reflexivity.
  - reflexivity.
  - reflexivity.
  - reflexivity.
Defined.

(** ** The Drive client and the upload *)

(** X2. [setupGoogleDrive] never throws and touches neither the file
    system nor the schedule.  It returns [null] exactly when it wrote
    its error line to the console, and it does so whenever a call
    inside it fails, and for credentials that are [null] or
    [undefined].  A client it
    returns was built from the [client_id], [client_secret] and
    [redirect_uri] of the credentials, and [setCredentials] was called,
    once, exactly when the [refresh_token] is truthy. *)
Theorem setupGoogleDrive_never_throws (env : Env) (creds : jsval) (w : World) :
  exists d w',
    run env (setupGoogleDrive creds) w = (Ok d, w')
    /\ (dirs w' = dirs w /\ files w' = files w /\ tasks w' = tasks w
        /\ backupSchedule w' = backupSchedule w)
    /\ (d = None <-> count is_setup_error (new_events w w') = 1)
    /\ (existsb has_failed (new_events w w') = true -> d = None)
    /\ (creds = VNull \/ creds = VUndefined -> d = None)
    /\ (forall drive, d = Some drive ->
        get_prop creds "client_id" = Ok (auth_client_id (drive_auth drive))
        /\ get_prop creds "client_secret"
           = Ok (auth_client_secret (drive_auth drive))
        /\ get_prop creds "redirect_uri"
           = Ok (auth_redirect_uri (drive_auth drive))
        /\ exists token,
             get_prop creds "refresh_token" = Ok token
             /\ auth_refresh_token (drive_auth drive)
                = (if truthy token then token else VUndefined)
             /\ count is_set_credentials (new_events w w')
                = (if truthy token then 1 else 0)).
Proof.
  unfold setupGoogleDrive, prop. run_step.
  repeat step.
  all: do 2 eexists; (split; [reflexivity|]); forget_failures.
  all: split; [world; auto|].
  all: events.
  all: split; [cbn; split; intros; first [reflexivity|discriminate]|].
  all: split; [cbn; intros; first [reflexivity|discriminate]|].
  all: split;
    [ intros [Hnull|Hnull]; subst;
      first [reflexivity | cbn in *; discriminate] |].
  all: intros drive Hdrive; inversion Hdrive; subst; cbn.
  all: repeat (split; [reflexivity|]).
  all: eexists; (split; [reflexivity|]).
  all: match goal with H : truthy _ = _ |- _ => rewrite H end.
  all: split; reflexivity.
Qed.

Lemma setupGoogleDrive_never_throws_witness :
  fst (run quiet_env (setupGoogleDrive VNull) fresh_world) = Ok None.
Proof.
  destruct (setupGoogleDrive_never_throws quiet_env VNull fresh_world)
    as (d & w' & Hrun & _ & _ & _ & Hnull & _).
  rewrite Hrun. cbn [fst]. f_equal. apply Hnull. by left.
Defined.

(** X3. [uploadToGoogleDrive] changes nothing in the file system or
    the schedule.  When a call inside it fails, the error thrown is the
    error of that call, unchanged, after exactly one error line with it
    on the console; a response without [data] is a [TypeError], logged
    and thrown alike.  When it returns, nothing failed, nothing was
    logged as an error, and the file was handed to Drive under the
    given name. *)
Theorem uploadToGoogleDrive_rethrows
    (env : Env) (filePath : jsval) (fileName : string) (drive : Drive)
    (w : World) :
  exists o w',
    run env (uploadToGoogleDrive filePath fileName drive) w = (o, w')
    /\ (dirs w' = dirs w /\ files w' = files w /\ tasks w' = tasks w
        /\ backupSchedule w' = backupSchedule w)
    /\ (forall c e, In (End c (Some e)) (new_events w w') -> o = Exn e)
    /\ match o with
       | Ok id =>
           count is_upload_error (new_events w w') = 0
           /\ existsb has_failed (new_events w w') = false
           /\ In (End (DriveFilesCreate drive fileName filePath) None)
                 (new_events w w')
       | Exn e =>
           count is_upload_error (new_events w w') = 1
           /\ In (Begin (ConsoleError "Error uploading to Google Drive:" e))
                 (new_events w w')
       end.
Proof.
  unfold uploadToGoogleDrive, prop. run_step.
  repeat step.
  all: do 2 eexists; (split; [reflexivity|]); forget_failures.
  all: split; [world; auto|].
  all: events.
  all: split;
    [ let Hin := fresh "Hin" in
      intros ? ? Hin; in_cases Hin; reflexivity |].
  all: cbn; repeat split; try reflexivity; find_in.
Qed.

Lemma uploadToGoogleDrive_rethrows_witness :
  fst (run (failing_env is_drive_create)
         (uploadToGoogleDrive (VStr "/tmp/a.db") "a.db"
            (mkDrive (mkAuth VNull VNull VNull VNull))) fresh_world)
  = Exn (Err "boom").
Proof.
  destruct (uploadToGoogleDrive_rethrows (failing_env is_drive_create)
              (VStr "/tmp/a.db") "a.db"
              (mkDrive (mkAuth VNull VNull VNull VNull)) fresh_world)
    as (o & w' & Hrun & _ & Hsame & _).
  rewrite Hrun. cbn [fst].
  apply (Hsame (DriveFilesCreate (mkDrive (mkAuth VNull VNull VNull VNull))
                  "a.db" (VStr "/tmp/a.db"))).
  replace w' with
    (snd (run (failing_env is_drive_create)
            (uploadToGoogleDrive (VStr "/tmp/a.db") "a.db"
               (mkDrive (mkAuth VNull VNull VNull VNull))) fresh_world))
    by (rewrite Hrun; reflexivity).
  vm_compute. find_in.
Defined.

(** ** The enhanced backup, option by option *)

Lemma no_slash_app (a b : string) :
  no_slash (a +:+ b) = no_slash a && no_slash b.
Proof.
  induction a as [|x a IH]; [reflexivity|].
  rewrite append_cons. cbn. rewrite IH. by rewrite andb_assoc.
Qed.

Lemma no_slash_pad (width n : nat) : no_slash (pad width n) = true.
Proof.
  revert n. induction width as [|width IH]; intros n; [reflexivity|].
  change (pad (S width) n)
    with (pad width (n / 10) +:+ String (digit (n mod 10)) EmptyString).
  rewrite no_slash_app, IH.
  assert (Hlt : n mod 10 < 10) by (apply Nat.mod_upper_bound; lia).
  remember (n mod 10) as m eqn:Hm. clear Hm.
  do 10 (destruct m as [|m]; [reflexivity|]). lia.
Qed.

Lemma no_slash_timestamp (d : DateTime) : no_slash (timestamp d) = true.
Proof.
  rewrite timestamp_iso_seconds. unfold iso_seconds, iso_date, iso_year.
  destruct (year d <? 100 * 100)%nat; rewrite ?no_slash_app, ?no_slash_pad;
    reflexivity.
Qed.

Lemma basename_from_app (a b acc : string) :
  basename_from (a +:+ b) acc = basename_from b (basename_from a acc).
Proof.
  revert acc. induction a as [|x a IH]; intros acc; [reflexivity|].
  rewrite append_cons. cbn. destruct (Ascii.eqb x "/"%char); apply IH.
Qed.

Lemma basename_from_plain (s acc : string) :
  no_slash s = true -> basename_from s acc = acc +:+ s.
Proof.
  revert acc. induction s as [|x s IH]; intros acc H; cbn.
  - clear H. induction acc as [|y acc IHacc]; [reflexivity|].
    rewrite append_cons. by rewrite <- IHacc.
  - cbn in H. apply andb_true_iff in H as [Hx Hs].
    apply negb_true_iff in Hx. rewrite Hx, IH by exact Hs.
    rewrite append_assoc. reflexivity.
Qed.

(** [path.basename(path.join(dir, name))] is [name] for a name without
    a separator. *)
Lemma basename_join (dir name : string) :
  no_slash name = true ->
  basename_from (path_join dir name) EmptyString = name.
Proof.
  intros H. unfold path_join.
  rewrite basename_from_app.
  change ("/" +:+ name) with (String "/"%char name). cbn.
  by rewrite basename_from_plain.
Qed.

Lemma basename_backup (dir : string) (d : DateTime) :
  basename_from (path_join dir ("gym-backup-" +:+ timestamp d +:+ ".db"))
                EmptyString
  = "gym-backup-" +:+ timestamp d +:+ ".db".
Proof.
  apply basename_join. rewrite !no_slash_app, no_slash_timestamp. reflexivity.
Qed.

Lemma backup_database_enhanced_options
    (env : Env) (options : jsval) (w : World) :
  exists res w',
    run env (backup_database_enhanced options) w = (Ok res, w')
    /\ (truthy (option_of options "customPath") = true ->
        Forall (custom_path_only (option_of options "customPath"))
               (new_events w w'))
    /\ (truthy (option_of options "customPath") = true ->
        has_own res "error" = false ->
        get_prop res "path" = Ok (option_of options "customPath"))
    /\ (existsb is_remote_begin (new_events w w') = true ->
        truthy (option_of options "uploadToDrive") = true
        /\ truthy (option_of options "driveCredentials") = true)
    /\ (existsb is_remote_begin (new_events w w') = false ->
        has_own res "error" = false ->
        get_prop res "driveFileId" = Ok VNull)
    /\ (existsb is_backup_failure (new_events w w') = true ->
        existsb is_remote_begin (new_events w w') = false)
    /\ Forall (failure_is_result res) (new_events w w')
    /\ Forall (uploads_the_backup w (option_of options "customPath")
                 (new_events w w'))
              (new_events w w')
    /\ (files w' = files w \/ exists p, files w' = {[p]} ∪ files w)
    /\ (truthy (option_of options "uploadToDrive") = true ->
        truthy (option_of options "driveCredentials") = true ->
        existsb has_failed (new_events w w') = false ->
        count is_upload (new_events w w') = 1).
Proof.
  unfold backup_database_enhanced, ensureBackupDirectory, setupGoogleDrive,
    uploadToGoogleDrive, prop, option_of.
  run_step. destruct options; cbn; repeat step.
  all: do 2 eexists; (split; [reflexivity|]); forget_failures.
  all: events.
  all: split;
    [ intros Hcustom;
      first [ discriminate
            | each_event ltac:(first [reflexivity | contradiction]) ] |].
  all: split;
    [ cbn; intros Hcustom Hok; first [discriminate | reflexivity] |].
  all: split;
    [ cbn; intros Hremote;
      first [discriminate | split; first [reflexivity | assumption]] |].
  all: split;
    [ cbn; intros Hlocal Hok; first [discriminate | reflexivity] |].
  all: split;
    [ cbn; intros Hfailed; first [discriminate | reflexivity] |].
  all: split; [ each_event ltac:(reflexivity) |].
  all: split;
    [ each_event ltac:(first
        [ solve [find_in]
        | split; [find_in|split; [find_in|]];
          intros Hdefault;
          first [ discriminate
                | rewrite ?basename_backup; reflexivity
                | match goal with
                  | H : truthy ?v = true |- _ =>
                      exfalso; revert Hdefault;
                      change (truthy v = false -> False);
                      rewrite H; discriminate
                  end ] ]) |].
  all: split; [first [left; reflexivity | right; eexists; reflexivity]|].
  all: cbn; intros Hup Hcred Hquiet;
    first [ discriminate | reflexivity
          | exfalso; eapply truthy_get_prop; eassumption ].
Qed.

(** X4. A custom path is used as it is: the backup is written to exactly
    that path and returned as [path]; the backup directory is neither
    looked up nor created, and the clock is not read. *)
Theorem backup_custom_path_verbatim
    (env : Env) (options : jsval) (w : World)
    (Hcustom : truthy (option_of options "customPath") = true) :
  exists res w',
    run env (backup_database_enhanced options) w = (Ok res, w')
    /\ Forall (custom_path_only (option_of options "customPath"))
              (new_events w w')
    /\ (has_own res "error" = false ->
        get_prop res "path" = Ok (option_of options "customPath")).
Proof.
  destruct (backup_database_enhanced_options env options w)
    as (res & w' & Hrun & Hevents & Hpath & _).
  exists res, w'. auto.
Qed.

Lemma backup_custom_path_verbatim_witness :
  exists res w',
    run quiet_env (backup_database_enhanced custom_options) fresh_world
    = (Ok res, w')
    /\ Forall (custom_path_only (VStr "/media/usb/gym.db"))
              (new_events fresh_world w')
    /\ (has_own res "error" = false ->
        get_prop res "path" = Ok (VStr "/media/usb/gym.db")).
Proof.
  apply (backup_custom_path_verbatim quiet_env custom_options fresh_world).
  reflexivity.
Defined.

(** X5. Unless both [uploadToDrive] and [driveCredentials] are given, the
    enhanced backup makes no call of the remote sync, and a successful
    result carries [driveFileId: null]. *)
Theorem backup_uploads_only_on_request
    (env : Env) (options : jsval) (w : World)
    (Hno : truthy (option_of options "uploadToDrive")
           && truthy (option_of options "driveCredentials") = false) :
  exists res w',
    run env (backup_database_enhanced options) w = (Ok res, w')
    /\ existsb is_remote_begin (new_events w w') = false
    /\ (has_own res "error" = false ->
        get_prop res "driveFileId" = Ok VNull).
Proof.
  destruct (backup_database_enhanced_options env options w)
    as (res & w' & Hrun & _ & _ & Hremote & Hnull & _).
  exists res, w'. split; [exact Hrun|].
  destruct (existsb is_remote_begin (new_events w w')) eqn:Hcalls.
  - destruct (Hremote eq_refl) as [Hup Hcred].
    rewrite Hup, Hcred in Hno. discriminate.
  - auto.
Qed.

Lemma backup_uploads_only_on_request_witness :
  exists res w',
    run quiet_env
        (backup_database_enhanced
           (VObj [("uploadToDrive", VBool true)])) fresh_world
    = (Ok res, w')
    /\ existsb is_remote_begin (new_events fresh_world w') = false
    /\ (has_own res "error" = false ->
        get_prop res "driveFileId" = Ok VNull).
Proof.
  apply (backup_uploads_only_on_request quiet_env
           (VObj [("uploadToDrive", VBool true)]) fresh_world).
  reflexivity.
Defined.

(** X6. When the local backup fails, the enhanced backup returns
    [{error: message}] with the message of that failure and makes no call
    of the remote sync, whatever the options ask for. *)
Theorem backup_failure_stops_upload
    (env : Env) (options : jsval) (w w' : World) (res : outcome jsval)
    (p : jsval) (e : exn)
    (Hrun : run env (backup_database_enhanced options) w = (res, w'))
    (Hfailed : In (End (DbBackup p) (Some e)) (new_events w w')) :
  res = Ok (error_result e)
  /\ existsb is_remote_begin (new_events w w') = false.
Proof.
  destruct (backup_database_enhanced_options env options w)
    as (res0 & w0 & Hrun0 & _ & _ & _ & _ & Hstop & Hresult & _).
  rewrite Hrun0 in Hrun. inversion Hrun. subst. split.
  - rewrite List.Forall_forall in Hresult.
    specialize (Hresult _ Hfailed). cbn in Hresult. now subst.
  - apply Hstop. apply existsb_exists.
    exists (End (DbBackup p) (Some e)). auto.
Qed.

Lemma backup_failure_stops_upload_witness :
  let r := run (failing_env is_db_backup)
               (backup_database_enhanced upload_options) fresh_world in
  fst r = Ok (error_result (Err "boom"))
  /\ existsb is_remote_begin (new_events fresh_world (snd r)) = false.
Proof.
  apply (backup_failure_stops_upload (failing_env is_db_backup)
           upload_options fresh_world _ _
           (VStr "/home/gym/backups/gym-backup-2024-01-15T10-30-45.db")
           (Err "boom")).
  - apply surjective_pairing.
  - vm_compute. find_in.
Defined.

(** X7. What the enhanced backup uploads is the file it has just backed
    up: the stream it reads and the file it sends to Drive are of the
    path of a backup that succeeded in this run, and when the handler
    chose the path itself (no [customPath]) the upload is named as the
    file is named in the backup directory.  When an upload is asked for
    and no call fails, exactly one upload is made.  The handler adds at
    most one file, the backup, to the file system. *)
Theorem backup_uploads_the_backup
    (env : Env) (options : jsval) (w : World) :
  exists res w',
    run env (backup_database_enhanced options) w = (Ok res, w')
    /\ Forall (uploads_the_backup w (option_of options "customPath")
                 (new_events w w'))
              (new_events w w')
    /\ (truthy (option_of options "uploadToDrive") = true ->
        truthy (option_of options "driveCredentials") = true ->
        existsb has_failed (new_events w w') = false ->
        count is_upload (new_events w w') = 1)
    /\ (files w' = files w \/ exists p, files w' = {[p]} ∪ files w).
Proof.
  destruct (backup_database_enhanced_options env options w)
    as (res & w' & Hrun & _ & _ & _ & _ & _ & _ & Hupload & Hfiles & Hdone).
  exists res, w'. auto.
Qed.

(** ** Restoring *)

(** X8. What the restore handler does with the answer of the file
    dialog.  When the dialog was canceled or no file was chosen, no
    restore is started and, unless a call failed, the result is
    [{canceled: true}].  Otherwise only the first chosen file is restored,
    and the result is [{success: true, needRestart: true}] exactly when
    that restore succeeded.  In every case a failed call gives
    [{error: message}], and no file is added. *)
Theorem restore_database_choice
    (env : Env) (w : World) (d : OpenDialogResult)
    (Hdialog : forall w0, env_dialog env w0 = d) :
  exists res w',
    run env restore_database w = (Ok res, w')
    /\ match canceled d, filePaths d with
       | false, p :: _ =>
           Forall (restores_only p) (new_events w w')
           /\ (res = restore_done <->
               In (End (DbRestore p) None) (new_events w w'))
           /\ res <> restore_canceled
       | _, _ =>
           existsb is_restore_begin (new_events w w') = false
           /\ (existsb has_failed (new_events w w') = false ->
               res = restore_canceled)
       end
    /\ (existsb has_failed (new_events w w') = true ->
        has_own res "error" = true)
    /\ files w' = files w.
Proof.
  unfold restore_database, ensureBackupDirectory. run_step.
  repeat step.
  all: repeat match goal with
              | H : env_dialog _ _ = _ |- _ => rewrite Hdialog in H; subst d
              end.
  all: do 2 eexists; (split; [reflexivity|]); forget_failures.
  all: events.
  all: (split; [|split; [cbn; intros Hf; first [discriminate|reflexivity]
                        | world; reflexivity]]).
  all: try match goal with
           | r : OpenDialogResult |- _ => destruct r as [[] [|? ?]]
           end.
  all: cbn -[In].
  all: try (split; [reflexivity|cbn; intros Hf;
                                first [discriminate|reflexivity]]).
  all: split; [each_event ltac:(reflexivity)|].
  all: split; [|discriminate].
  all: split; [intros Hres; first [discriminate | find_in]|].
  all: intros Hin; first [reflexivity | exfalso; cbn in Hin; in_cases Hin].
Qed.

Lemma restore_database_choice_witness :
  exists res w',
    run canceling_env restore_database fresh_world = (Ok res, w')
    /\ (existsb is_restore_begin (new_events fresh_world w') = false
        /\ (existsb has_failed (new_events fresh_world w') = false ->
            res = restore_canceled))
    /\ (existsb has_failed (new_events fresh_world w') = true ->
        has_own res "error" = true)
    /\ files w' = files fresh_world.
Proof.
  apply (restore_database_choice canceling_env fresh_world
           (mkOpenDialogResult true [])).
  reflexivity.
Defined.

(** ** Login, case by case *)

Lemma get_prop_delete_other (v v' : jsval) (k k' : string) :
  delete_prop v k' = Ok v' -> String.eqb k' k = false ->
  get_prop v' k = get_prop v k.
Proof.
  destruct v; cbn; intros H Hk; inversion H; subst; try reflexivity.
  cbn. f_equal. f_equal. clear H.
  induction fields as [|[k0 v0] fs IH]; cbn; [reflexivity|].
  destruct (String.eqb k' k0) eqn:Hk0.
  - apply String.eqb_eq in Hk0. subst k0.
    rewrite String.eqb_sym in Hk. rewrite Hk. exact IH.
  - cbn. destruct (String.eqb k k0); [reflexivity|exact IH].
Qed.

(** X9. The login handler never lets an error out: its result is a
    success with a user, the one rejection message, or the one generic
    failure message, never an object with an [error] key; whenever a call
    fails the result is the generic failure; and the generic failure is
    returned exactly when the error was written to the console. *)
Theorem login_failure_is_generic
    (env : Env) (username password : jsval) (w : World) :
  exists res w',
    run env (login username password) w = (Ok res, w')
    /\ (res = login_failed \/ res = login_rejected
        \/ exists user, res = login_success user)
    /\ has_own res "error" = false
    /\ (existsb has_failed (new_events w w') = true -> res = login_failed)
    /\ (res = login_failed <-> count is_login_error (new_events w w') = 1)
    /\ files w' = files w /\ dirs w' = dirs w /\ tasks w' = tasks w.
Proof.
  unfold login, prop. run_step. repeat step.
  all: do 2 eexists; (split; [reflexivity|]); forget_failures.
  all: events.
  all: split; [first [ left; reflexivity | right; left; reflexivity
                     | right; right; eexists; reflexivity ]|].
  all: split; [reflexivity|].
  all: split; [cbn; intros Hf; first [discriminate | reflexivity]|].
  all: split; [cbn; split; intros Hf; first [discriminate | reflexivity]|].
  all: world; auto.
Qed.

(** X10. What a login asks of the outside: only the one fixed query, with
    the user name as its single parameter (the SQL text never depends on
    the input), and a comparison of the given password with the hash of
    the first row.  A success returns that first row with every field
    other than [password_hash] unchanged. *)
Theorem login_calls
    (env : Env) (username password : jsval) (w : World) (rows : list jsval)
    (Hrows : forall w0, env_rows env w0 login_query [username] = rows) :
  exists res w',
    run env (login username password) w = (Ok res, w')
    /\ Forall (login_call username password rows) (new_events w w')
    /\ (rows = [] -> existsb is_compare (new_events w w') = false)
    /\ (get_prop res "success" = Ok (VBool true) ->
        exists row rest user,
          rows = row :: rest
          /\ res = login_success user
          /\ forall k, String.eqb "password_hash" k = false ->
                       get_prop user k = get_prop row k).
Proof.
  unfold login, prop. run_step. repeat step.
  all: repeat match goal with
              | H : env_rows _ _ _ _ = _ |- _ => rewrite Hrows in H; subst rows
              end.
  all: do 2 eexists; (split; [reflexivity|]); forget_failures.
  all: events.
  all: split;
    [ each_event ltac:(first
        [ split; reflexivity
        | split; [reflexivity|do 2 eexists; split; [reflexivity|eassumption]]
        ]) |].
  all: split; [cbn; intros Hnone; first [reflexivity | discriminate]|].
  all: cbn; intros Hok; try discriminate.
  do 3 eexists. split; [reflexivity|]. split; [reflexivity|].
  intros k Hk. eapply get_prop_delete_other; eassumption.
Qed.

Lemma login_calls_witness :
  exists res w',
    run login_env (login (VStr "admin") (VStr "secret")) fresh_world
    = (Ok res, w')
    /\ Forall (login_call (VStr "admin") (VStr "secret") [admin_row])
              (new_events fresh_world w')
    /\ ([admin_row] = [] ->
        existsb is_compare (new_events fresh_world w') = false)
    /\ (get_prop res "success" = Ok (VBool true) ->
        exists row rest user,
          [admin_row] = row :: rest
          /\ res = login_success user
          /\ forall k, String.eqb "password_hash" k = false ->
                       get_prop user k = get_prop row k).
Proof.
  apply (login_calls login_env (VStr "admin") (VStr "secret") fresh_world
           [admin_row]).
  reflexivity.
Defined.

(** X11. A user name that matches no active user and a wrong password
    are answered alike: when nothing fails and the password matches no
    hash, the result is the one rejection message whether or not the
    query found a row. *)
Theorem login_rejections_alike
    (env : Env) (username password : jsval) (w : World)
    (Hquiet : forall w0 c, env_fail env w0 c = None)
    (Hrows : forall w0 row,
        In row (env_rows env w0 login_query [username]) ->
        exists fields, row = VObj fields)
    (Hwrong : forall w0 h, env_compare env w0 password h = false) :
  fst (run env (login username password) w) = Ok login_rejected.
Proof.
  unfold login, prop. run_step. exec_step. rewrite Hquiet. cbn.
  destruct (env_rows _ _ _ _) as [|row rows] eqn:Hq; cbn; [reflexivity|].
  destruct (Hrows _ row ltac:(rewrite Hq; left; reflexivity)) as [fs ->].
  cbn. exec_step. rewrite Hquiet, Hwrong. reflexivity.
Qed.

Lemma login_rejections_alike_witness :
  fst (run wrong_password_env (login (VStr "nobody") (VStr "secret"))
         fresh_world)
  = Ok login_rejected
  /\ fst (run wrong_password_env (login (VStr "admin") (VStr "secret"))
            fresh_world)
     = Ok login_rejected.
Proof.
  split.
  - apply (login_rejections_alike wrong_password_env (VStr "nobody")
             (VStr "secret") fresh_world).
    + reflexivity.
    + intros w0 row Hin. destruct Hin.
    + reflexivity.
  - apply (login_rejections_alike wrong_password_env (VStr "admin")
             (VStr "secret") fresh_world).
    + reflexivity.
    + intros w0 row [<-|[]]. eexists. reflexivity.
    + reflexivity.
Defined.

(** ** Footprints *)

Lemma calls_only_mono {R : Type} (a b : Cmd -> bool) (p : Prog R) :
  (forall c, a c = true -> b c = true) ->
  calls_only a p -> calls_only b p.
Proof.
  intros Hab. induction p as [r|e|c k IH]; cbn; [done|done|].
  intros [Hc Hk]. split; [by apply Hab|]. intros o. apply IH, Hk.
Qed.

(** The events of a run are those of the calls the program can make. *)
Lemma calls_only_run {R : Type} (allowed : Cmd -> bool) (env : Env)
    (p : Prog R) (w : World) :
  calls_only allowed p ->
  Forall (fun ev => allowed (event_cmd ev) = true)
         (new_events w (snd (run env p w))).
Proof.
  revert w. induction p as [r|e|c k IH]; intros w Hp; cbn.
  - unfold new_events. rewrite drop_all. constructor.
  - unfold new_events. rewrite drop_all. constructor.
  - destruct Hp as [Hc Hk].
    pose proof (trace_exec env c w) as Hexec.
    destruct (exec env c w) as [o w1]. cbn [fst snd] in Hexec.
    pose proof (run_extends env (k o) w1) as Hext.
    specialize (IH o w1 (Hk o)).
    rewrite Hexec, <- app_assoc in Hext.
    rewrite (new_events_app _ _ _ Hext).
    apply List.Forall_cons; [exact Hc|].
    apply List.Forall_cons; [exact Hc|exact IH].
Qed.

(** The calls of a program, read off its text: each call is checked, and
    each choice the program makes is followed both ways. *)
Ltac calls_step :=
  cbn;
  lazymatch goal with
  | |- True => exact I
  | |- _ /\ _ => split; [reflexivity|intros ?]
  | |- calls_only _ ?p => let b := blocker p in destruct b
  end.

Ltac calls :=
  unfold ensureBackupDirectory, setupGoogleDrive, uploadToGoogleDrive, prop;
  run_step; repeat calls_step.

Lemma handler_calls (op : Facade) : calls_only (footprint op) (handler op).
Proof.
  destruct op; cbn [handler].
  - unfold backup_database. calls.
  - unfold backup_database_enhanced. calls.
  - unfold restore_database. calls.
  - unfold repair_database. calls.
  - unfold setup_auto_backup, scheduleAutoBackup. calls.
Qed.

Lemma callback_calls (creds : jsval) :
  calls_only callback_footprint (callback_handler creds).
Proof. unfold callback_handler, autoBackupCallback. calls. Qed.

(** X12. The calls each operation of the façade can make, whatever its
    arguments and whatever the calls answer: only [restore-database]
    restores and only [repair-database] repairs; only the enhanced backup
    talks to Google Drive; [setup-auto-backup] touches the schedule and
    the console and nothing else, and no other operation touches the
    schedule; no operation closes the database or queries it. *)
Theorem handler_footprint (env : Env) (op : Facade) (w : World) :
  Forall (fun ev => footprint op (event_cmd ev) = true)
         (new_events w (snd (run env (handler op) w))).
Proof. apply calls_only_run, handler_calls. Qed.

(** ** The schedule under interleaving *)

Lemma perform_off_schedule (env : Env) (c : Cmd) (w : World) :
  schedule_call c = false ->
  tasks (snd (perform env c w)) = tasks w
  /\ backupSchedule (snd (perform env c w)) = backupSchedule w.
Proof.
  destruct c; cbn; intros Hc; try discriminate;
    unfold db_backup, db_restore, db_repair, db_close, db_query, fallible;
    try (destruct (env_fail env w _); split; reflexivity);
    try (split; reflexivity).
  destruct p; try (split; reflexivity).
  destruct (env_fail env w _); split; reflexivity.
Qed.

Lemma complete_off_schedule (env : Env) (c : Cmd) (w : World) :
  schedule_call c = false ->
  tasks (snd (complete env c w)) = tasks w
  /\ backupSchedule (snd (complete env c w)) = backupSchedule w.
Proof.
  intros Hc. unfold complete.
  pose proof (perform_off_schedule env c w Hc) as Hp.
  destruct (perform env c w) as [o w']. exact Hp.
Qed.

Lemma off_schedule_false (c : Cmd) :
  off_schedule c = true -> schedule_call c = false.
Proof. unfold off_schedule. by destruct (schedule_call c). Qed.

Lemma run_off_schedule {R : Type} (env : Env) (p : Prog R) (w : World) :
  calls_only off_schedule p ->
  tasks (snd (run env p w)) = tasks w
  /\ backupSchedule (snd (run env p w)) = backupSchedule w.
Proof.
  revert w. induction p as [r|e|c k IH]; intros w Hp; cbn; [done|done|].
  destruct Hp as [Hc Hk]. apply off_schedule_false in Hc.
  pose proof (complete_off_schedule env c (issue c w) Hc) as Hexec.
  unfold exec. destruct (complete env c (issue c w)) as [o w1].
  destruct (IH o w1 (Hk o)) as [Ht Hb]. cbn in Hexec.
  destruct Hexec as [Ht1 Hb1]. split; congruence.
Qed.

Lemma advance_off_schedule {R : Type} (env : Env) (p : Prog R) (w : World) :
  calls_only off_schedule p ->
  tasks (snd (advance env p w)) = tasks w
  /\ backupSchedule (snd (advance env p w)) = backupSchedule w
  /\ task_calls_only off_schedule (fst (advance env p w)).
Proof.
  revert w. induction p as [r|e|c k IH]; intros w Hp; cbn; [done|done|].
  destruct Hp as [Hc Hk]. destruct (awaited c); [by cbn|].
  apply off_schedule_false in Hc.
  pose proof (complete_off_schedule env c (issue c w) Hc) as Hexec.
  unfold exec. destruct (complete env c (issue c w)) as [o w1].
  destruct (IH o w1 (Hk o)) as (Ht & Hb & Hq). cbn in Hexec.
  destruct Hexec as [Ht1 Hb1]. repeat split; [congruence|congruence|exact Hq].
Qed.

Lemma resume_off_schedule {R : Type} (env : Env) (t : Task R) (w : World) :
  task_calls_only off_schedule t ->
  tasks (snd (resume env t w)) = tasks w
  /\ backupSchedule (snd (resume env t w)) = backupSchedule w
  /\ task_calls_only off_schedule (fst (resume env t w)).
Proof.
  destruct t as [o|c k]; cbn; [done|]. intros [Hc Hk].
  apply off_schedule_false in Hc.
  pose proof (complete_off_schedule env c w Hc) as Hexec.
  destruct (complete env c w) as [o w1]. cbn in Hexec.
  destruct (advance_off_schedule env (k o) w1 (Hk o)) as (Ht & Hb & Hq).
  destruct Hexec as [Ht1 Hb1]. repeat split; [congruence|congruence|exact Hq].
Qed.

(** A handler that awaits nothing is done when it was started. *)
Lemma advance_never_awaited {R : Type} (env : Env) (p : Prog R) (w : World) :
  calls_only never_awaited p ->
  advance env p w = (Done (fst (run env p w)), snd (run env p w)).
Proof.
  revert w. induction p as [r|e|c k IH]; intros w Hp; cbn; [done|done|].
  destruct Hp as [Hc Hk]. unfold never_awaited in Hc.
  destruct (awaited c); [discriminate|].
  destruct (exec env c w) as [o w1]. apply IH, Hk.
Qed.

Lemma schedule_owned_same (w w' : World) :
  tasks w' = tasks w -> backupSchedule w' = backupSchedule w ->
  schedule_owned w -> schedule_owned w'.
Proof.
  intros Ht Hb Hown i t Hi Hr. rewrite Ht in Hi. rewrite Hb. eauto.
Qed.

Lemma spawn_off_schedule (env : Env) (p : Prog jsval) (l : Loop) :
  calls_only off_schedule p ->
  schedule_owned (world l) -> pool_off_schedule l ->
  schedule_owned (world (spawn env p l)) /\ pool_off_schedule (spawn env p l).
Proof.
  intros Hp Hown Hpool. unfold spawn, pool_off_schedule.
  destruct (advance_off_schedule env p (world l) Hp) as (Ht & Hb & Hq).
  destruct (advance env p (world l)) as [t w']. cbn in *. split.
  - by apply (schedule_owned_same (world l)).
  - apply Forall_app. split; [exact Hpool|]. by constructor.
Qed.

Lemma turn_schedule_owned (env : Env) (tn : Turn) (l : Loop) :
  schedule_owned (world l) -> pool_off_schedule l ->
  schedule_owned (world (turn env tn l)) /\ pool_off_schedule (turn env tn l).
Proof.
  intros Hown Hpool. destruct tn as [op|t|position]; cbn [turn].
  - destruct op as [| | | |s c];
      try (apply spawn_off_schedule; [|done|done];
           eapply calls_only_mono; [|apply handler_calls];
           by intros []).
    assert (Hsync : calls_only never_awaited (setup_auto_backup s c)).
    { eapply calls_only_mono;
        [|apply (handler_calls (SetupAutoBackup s c))]. by intros []. }
    unfold spawn, pool_off_schedule.
    rewrite (advance_never_awaited _ _ _ Hsync), setup_auto_backup_run.
    cbn [fst snd world pool]. split.
    + by apply scheduleAutoBackup_owned.
    + apply Forall_app. split; [exact Hpool|]. by constructor.
  - generalize (due_tasks t (world l)). intros cbs.
    revert l Hown Hpool. induction cbs as [|task cbs IH]; intros l Hown Hpool;
      cbn [start_callbacks]; [done|].
    destruct (spawn_off_schedule env
                (callback_handler (captured_credentials task)) l)
      as [Hown' Hpool']; [|done|done|by apply IH].
    eapply calls_only_mono; [|apply callback_calls]. by intros [].
  - destruct (pool l !! position) as [t|] eqn:Ht; [|done].
    assert (Hq : task_calls_only off_schedule t).
    { unfold pool_off_schedule in Hpool.
      rewrite Forall_lookup in Hpool. by eapply Hpool. }
    destruct (resume_off_schedule env t (world l) Hq) as (Htasks & Hb & Hq').
    destruct (resume env t (world l)) as [t' w']. cbn in *. split.
    + by apply (schedule_owned_same (world l)).
    + unfold pool_off_schedule. cbn. by apply Forall_insert.
Qed.

(** X13. At most one trigger, however the process is driven.  From a
    state in which [backupSchedule] holds every running task and no
    handler is under way, any sequence of requests to the façade, looks
    of the cron library at its tasks and completions of calls in flight,
    in any order, leads to a state in which [backupSchedule] still holds
    every running task, so that at most one task is running. *)
Theorem one_trigger_under_interleaving
    (env : Env) (tns : list Turn) (w : World)
    (Howned : schedule_owned w) :
  let l := turns env tns (mkLoop w []) in
  schedule_owned (world l) /\ length (active (world l)) <= 1.
Proof.
  cbn zeta.
  assert (Hinv : schedule_owned (world (turns env tns (mkLoop w [])))
                 /\ pool_off_schedule (turns env tns (mkLoop w []))).
  { unfold turns.
    assert (Hstart : schedule_owned (world (mkLoop w []))
                     /\ pool_off_schedule (mkLoop w []))
      by (split; [exact Howned|constructor]).
    revert Hstart. generalize (mkLoop w []). clear Howned.
    induction tns as [|tn tns IH]; intros l [Hown Hpool]; cbn [fold_left].
    - done.
    - apply IH. by apply turn_schedule_owned. }
  destruct Hinv as [Hown _]. split; [exact Hown|].
  by apply owned_at_most_one.
Qed.

Lemma one_trigger_under_interleaving_witness :
  let l := turns quiet_env
             [Invoke (SetupAutoBackup (VStr "daily") VNull);
              Invoke BackupDatabase;
              Invoke (SetupAutoBackup (VStr "weekly") VNull);
              Tick monday_2am; Settle 1; Settle 3;
              Invoke (SetupAutoBackup (VStr "monthly") VNull)]
             (mkLoop fresh_world []) in
  schedule_owned (world l) /\ length (active (world l)) <= 1.
Proof.
  apply (one_trigger_under_interleaving quiet_env
           [Invoke (SetupAutoBackup (VStr "daily") VNull);
            Invoke BackupDatabase;
            Invoke (SetupAutoBackup (VStr "weekly") VNull);
            Tick monday_2am; Settle 1; Settle 3;
            Invoke (SetupAutoBackup (VStr "monthly") VNull)]
           fresh_world).
  apply initial_owned.
Defined.

(** ** Quitting *)

Lemma will_quit_spec (env : Env) (w : World) :
  exists o w',
    run env will_quit w = (o, w')
    /\ tasks w' = stop_current w
    /\ backupSchedule w' = backupSchedule w
    /\ dirs w' = dirs w /\ files w' = files w
    /\ count is_close (new_events w w') = 1
    /\ (forall task,
          count (is_stop_of task) (new_events w w') =
          match backupSchedule w with
          | Some current => if Nat.eqb task current then 1 else 0
          | None => 0
          end)
    /\ (forall e, o = Exn e <-> In (End DbClose (Some e)) (new_events w w')).
Proof.
  unfold will_quit, stop_current. run_step. exec_step.
  destruct (backupSchedule w) as [current|] eqn:Hb; cbn; exec_step.
  all: env_case; cbn.
  all: do 2 eexists; (split; [reflexivity|]); forget_failures.
  all: world; rewrite ?Hb.
  all: repeat (split; [reflexivity|]).
  all: events.
  all: split; [reflexivity|].
  all: split; [intros task; cbn; try destruct (Nat.eqb task current);
               reflexivity|].
  all: intros e'; split; [intros He; inversion He; subst; find_in
                         |intros Hin; cbn in Hin; in_cases Hin; reflexivity].
Qed.

(** X14. Quitting stops the schedule and closes the database.  From a
    state in which [backupSchedule] holds every running task,
    [will-quit] stops that task (once) and leaves no task running, so
    that no later look of the cron library at its tasks does anything;
    it closes the database exactly once, also when a schedule was
    stopped first; and it throws exactly when the close failed, with
    the error of the close. *)
Theorem will_quit_stops_schedule
    (env : Env) (w : World) (Howned : schedule_owned w) :
  let r := run env will_quit w in
  active (snd r) = []
  /\ (forall env' ts, cron_ticks env' ts (snd r) = snd r)
  /\ count is_close (new_events w (snd r)) = 1
  /\ (forall task,
        count (is_stop_of task) (new_events w (snd r)) =
        match backupSchedule w with
        | Some current => if Nat.eqb task current then 1 else 0
        | None => 0
        end)
  /\ (forall e, fst r = Exn e <->
                In (End DbClose (Some e)) (new_events w (snd r)))
  /\ dirs (snd r) = dirs w /\ files (snd r) = files w.
Proof.
  destruct (will_quit_spec env w)
    as (o & w' & Hrun & Ht & Hb & Hd & Hf & Hclose & Hstop & Hthrow).
  cbn zeta. rewrite Hrun. cbn [fst snd].
  assert (Hidle : active w' = []).
  { unfold active. rewrite Ht.
    apply filter_none, stop_current_inactive, Howned. }
  split; [exact Hidle|].
  split; [intros env' ts; by apply cron_ticks_idle|].
  auto.
Qed.

Lemma will_quit_stops_schedule_witness :
  let r := run quiet_env will_quit daily_world in
  active (snd r) = []
  /\ (forall env' ts, cron_ticks env' ts (snd r) = snd r)
  /\ count is_close (new_events daily_world (snd r)) = 1
  /\ (forall task,
        count (is_stop_of task) (new_events daily_world (snd r)) =
        match backupSchedule daily_world with
        | Some current => if Nat.eqb task current then 1 else 0
        | None => 0
        end)
  /\ (forall e, fst r = Exn e <->
                In (End DbClose (Some e)) (new_events daily_world (snd r)))
  /\ dirs (snd r) = dirs daily_world /\ files (snd r) = files daily_world.
Proof.
  apply (will_quit_stops_schedule quiet_env daily_world).
  apply (scheduleAutoBackup_owned quiet_env (VStr "daily") VNull fresh_world).
  apply initial_owned.
Defined.

(** ** Backups of the same second *)

Lemma append_inv_head (a b c : string) : a +:+ b = a +:+ c -> b = c.
Proof.
  induction a as [|x a IH]; [done|].
  rewrite !append_cons. intros H. injection H as H. by apply IH.
Qed.

Lemma append_inj (a b c d : string) :
  String.length a = String.length c ->
  a +:+ b = c +:+ d -> a = c /\ b = d.
Proof.
  revert c. induction a as [|x a IH]; intros [|y c] Hlen; try discriminate.
  - done.
  - rewrite !append_cons. intros H. injection H as -> H.
    injection Hlen as Hlen. destruct (IH c Hlen H) as [-> ->]. done.
Qed.

Lemma pad_length (width n : nat) : String.length (pad width n) = width.
Proof.
  revert n. induction width as [|width IH]; intros n; [done|].
  change (pad (S width) n)
    with (pad width (n / 10) +:+ String (digit (n mod 10)) EmptyString).
  rewrite length_append, IH. cbn. lia.
Qed.

Lemma digit_inj (a b : nat) : a < 10 -> b < 10 -> digit a = digit b -> a = b.
Proof.
  intros Ha Hb H. unfold digit in H.
  apply (f_equal nat_of_ascii) in H.
  rewrite !nat_ascii_embedding in H by lia. lia.
Qed.

Lemma single_inj (x y : ascii) :
  String x EmptyString = String y EmptyString -> x = y.
Proof. by intros [= ->]. Qed.

Lemma pad_inj (width a b : nat) :
  a < 10 ^ width -> b < 10 ^ width -> pad width a = pad width b -> a = b.
Proof.
  revert a b. induction width as [|width IH]; intros a b Ha Hb H.
  - cbn in Ha, Hb. lia.
  - change (pad (S width) a)
      with (pad width (a / 10) +:+ String (digit (a mod 10)) EmptyString)
      in H.
    change (pad (S width) b)
      with (pad width (b / 10) +:+ String (digit (b mod 10)) EmptyString)
      in H.
    apply append_inj in H as [Hhigh Hlow];
      [|by rewrite !pad_length].
    apply single_inj, digit_inj in Hlow; [|by apply Nat.mod_upper_bound..].
    rewrite Nat.pow_succ_r' in Ha, Hb.
    apply IH in Hhigh;
      [|apply Nat.Div0.div_lt_upper_bound; lia..].
    rewrite (Nat.div_mod_eq a 10), (Nat.div_mod_eq b 10). lia.
Qed.

Lemma iso_seconds_inj (d1 d2 : DateTime) :
  calendar d1 -> calendar d2 ->
  iso_seconds d1 = iso_seconds d2 -> to_second d1 = to_second d2.
Proof.
  intros (Hy1 & Hm1 & Hd1 & Hh1 & Hi1 & Hs1) (Hy2 & Hm2 & Hd2 & Hh2 & Hi2 & Hs2).
  unfold iso_seconds, iso_date, iso_year, to_second.
  replace (year d1 <? 100 * 100)%nat with true
    by (symmetry; apply Nat.ltb_lt; lia).
  replace (year d2 <? 100 * 100)%nat with true
    by (symmetry; apply Nat.ltb_lt; lia).
  rewrite !append_assoc. intros H.
  repeat match type of H with
         | _ +:+ _ = _ +:+ _ =>
             let Hhead := fresh "Hhead" in
             apply append_inj in H as [Hhead H];
             [|rewrite ?pad_length; reflexivity]
         end.
  repeat match goal with
         | Heq : pad _ _ = pad _ _ |- _ =>
             apply pad_inj in Heq; [|cbn; lia..]
         end.
  congruence.
Qed.

Lemma backup_path_by_second
    (w : World) (prefix : string) (d1 d2 : DateTime)
    (Hfirst : calendar d1) (Hsecond : calendar d2) :
  backup_path w prefix d1 = backup_path w prefix d2
  <-> to_second d1 = to_second d2.
Proof.
  unfold backup_path, path_join. rewrite !timestamp_iso_seconds. split.
  - intros H. do 3 apply append_inv_head in H.
    assert (Hlen : forall d, calendar d ->
                     String.length (iso_seconds d) = 19).
    { intros d (Hy & _). unfold iso_seconds, iso_date, iso_year.
      replace (year d <? 100 * 100)%nat with true
        by (symmetry; apply Nat.ltb_lt; lia).
      rewrite !length_append, !pad_length. reflexivity. }
    apply append_inj in H as [H _]; [|by rewrite !Hlen].
    by apply iso_seconds_inj.
  - unfold to_second, iso_seconds, iso_date. intros H.
    injection H as -> -> -> -> -> ->. reflexivity.
Qed.

Lemma backup_path_same_data (w1 w2 : World) (prefix : string) (d : DateTime) :
  userData w1 = userData w2 ->
  backup_path w1 prefix d = backup_path w2 prefix d.
Proof. unfold backup_path. by intros ->. Qed.

(** X15. The file of a backup is named by the clock the handler reads,
    to the second and no finer.  For clocks of the years 0 to 9999 and
    the same [userData]: two runs of [backup-database] ask the Storage
    Backend for the same path exactly when the clocks they read agree in
    year, month, day, hour, minute and second, and so do two runs of the
    callback of a cron task; milliseconds never matter.  A manual and a
    scheduled backup never ask for the same path. *)
Theorem backup_paths_by_second
    (env1 env2 : Env) (creds1 creds2 : jsval) (w1 w2 : World)
    (Hdata : userData w1 = userData w2)
    (Hfirst : calendar (manual_clock env1 w1)
              /\ calendar (scheduled_clock env1 w1))
    (Hsecond : calendar (manual_clock env2 w2)
               /\ calendar (scheduled_clock env2 w2)) :
  (forall p1 p2,
     In (Begin (DbBackup p1))
        (new_events w1 (snd (run env1 backup_database w1))) ->
     In (Begin (DbBackup p2))
        (new_events w2 (snd (run env2 backup_database w2))) ->
     (p1 = p2 <->
      to_second (manual_clock env1 w1) = to_second (manual_clock env2 w2)))
  /\ (forall p1 p2,
        In (Begin (DbBackup p1))
           (new_events w1 (snd (run env1 (autoBackupCallback creds1) w1))) ->
        In (Begin (DbBackup p2))
           (new_events w2 (snd (run env2 (autoBackupCallback creds2) w2))) ->
        (p1 = p2 <->
         to_second (scheduled_clock env1 w1)
         = to_second (scheduled_clock env2 w2)))
  /\ (forall p1 p2,
        In (Begin (DbBackup p1))
           (new_events w1 (snd (run env1 backup_database w1))) ->
        In (Begin (DbBackup p2))
           (new_events w2 (snd (run env2 (autoBackupCallback creds2) w2))) ->
        p1 <> p2).
Proof.
  destruct Hfirst as [Hm1 Hs1]. destruct Hsecond as [Hm2 Hs2].
  destruct (backup_database_stamped env1 w1)
    as (r1 & v1 & Hrun1 & Hst1 & _).
  destruct (backup_database_stamped env2 w2)
    as (r2 & v2 & Hrun2 & Hst2 & _).
  destruct (autoBackupCallback_stamped env1 creds1 w1)
    as (u1 & Hcb1 & Hsc1 & _).
  destruct (autoBackupCallback_stamped env2 creds2 w2)
    as (u2 & Hcb2 & Hsc2 & _).
  rewrite Hrun1, Hrun2, Hcb1, Hcb2. cbn [snd].
  rewrite List.Forall_forall in Hst1, Hst2, Hsc1, Hsc2.
  split; [|split].
  - intros p1 p2 H1 H2.
    destruct (Hst1 _ H1) as [-> _]. destruct (Hst2 _ H2) as [-> _].
    rewrite <- (backup_path_same_data w1 w2) by exact Hdata.
    rewrite <- (backup_path_by_second w1 "gym-backup-") by assumption.
    split; [by intros [= ->]|by intros ->].
  - intros p1 p2 H1 H2.
    destruct (Hsc1 _ H1) as [-> _]. destruct (Hsc2 _ H2) as [-> _].
    rewrite <- (backup_path_same_data w1 w2) by exact Hdata.
    rewrite <- (backup_path_by_second w1 "gym-auto-backup-") by assumption.
    split; [by intros [= ->]|by intros ->].
  - intros p1 p2 H1 H2.
    destruct (Hst1 _ H1) as [-> _]. destruct (Hsc2 _ H2) as [-> _].
    rewrite <- (backup_path_same_data w1 w2) by exact Hdata.
    unfold backup_path, path_join. intros [= H].
    do 2 apply append_inv_head in H.
    rewrite !append_cons in H. discriminate.
Qed.

Lemma backup_paths_by_second_witness :
  VStr "/home/gym/backups/gym-backup-2024-01-15T10-30-45.db"
  = VStr "/home/gym/backups/gym-backup-2024-01-15T10-30-45.db"
  <-> to_second (manual_clock quiet_env fresh_world)
      = to_second (manual_clock later_env fresh_world).
Proof.
  refine (proj1 (backup_paths_by_second quiet_env later_env VNull VNull
                   fresh_world fresh_world _ _ _) _ _ _ _).
  - reflexivity.
  - split; unfold calendar; cbn; lia.
  - split; unfold calendar; cbn; lia.
  - vm_compute. find_in.
  - vm_compute. find_in.
Defined.

(** * The rest of the main process *)

Ltac handler_step := unfold mbind, Handler_bind, mret, Handler_ret; cbn.

Ltac desk :=
  cbn [core mainWindow maximized journal record_call set_core set_maximized].

Ltac made :=
  unfold new_calls; desk; rewrite <- ?app_assoc; rewrite drop_app_length;
  cbn [app].

Ltac shell_step :=
  unfold shell_exec, shell_perform, db_run, db_any, on_window, shell_fallible;
  cbn.

Ltac shell_case :=
  match goal with
  | |- context [shell_fail ?sh ?d ?c] =>
      let H := fresh "Hfail" in destruct (shell_fail sh d c) eqn:H
  end.

(** ** Dialogs *)

(** X16. [show-confirm] never shows a dialog whose cancel button is
    button 0.  With options that are an object (or any value other than
    [null] and [undefined]) it shows exactly one message box, of type
    [question], whose [cancelId] is the caller's when that is truthy and
    1 otherwise, so that a caller's [cancelId: 0] becomes 1; it returns
    what the dialog answers and throws what the dialog throws.  With
    [null] or [undefined] options it throws a [TypeError] and shows
    nothing. *)
Theorem show_confirm_cancel_id (sh : Shell) (options : jsval) (d : Desk) :
  exists o d',
    serve sh (show_confirm options) d = (o, d')
    /\ match get_prop options "cancelId" with
       | Exn e =>
           o = Exn e /\ new_calls d d' = [Called ReadMainWindow None]
       | Ok cancelId =>
           exists box failure,
             new_calls d d' =
               [Called ReadMainWindow None;
                Called (ShowMessageBox (mainWindow d) box) failure]
             /\ box_type box = VStr "question"
             /\ box_cancelId box =
                  Some (if truthy cancelId then cancelId else VNum 1)
             /\ box_cancelId box <> Some (VNum 0)
             /\ (forall e, failure = Some e <-> o = Exn e)
             /\ (failure = None -> exists d0, o = Ok (shell_response sh d0))
       end.
Proof.
  unfold show_confirm, field. handler_step.
  destruct options; cbn; shell_step.
  1,2: do 2 eexists; (split; [reflexivity|]);
       (split; [reflexivity|made; reflexivity]).
  all: shell_case; cbn.
  all: do 2 eexists; (split; [reflexivity|]); do 2 eexists.
  all: (split; [made; reflexivity|]); cbn.
  all: split; [reflexivity|].
  all: split; [reflexivity|].
  all: split;
    [ first
        [ discriminate
        | unfold or_else;
          destruct (truthy (default VUndefined (assoc "cancelId" fields)))
            eqn:Htruthy; [|discriminate];
          intros [= Hzero]; rewrite Hzero in Htruthy; discriminate ] |].
  all: split; [intros e'; split; intros [= <-]; reflexivity
              |intros Hnone; try discriminate; eexists; reflexivity].
Qed.

(** X17. [show-message] and [show-confirm] need their options: with
    [null] or [undefined] they throw a [TypeError] before any dialog is
    shown.  [show-error] needs nothing: whatever its two arguments are,
    it shows exactly one message box of type [error] with the one button,
    and a falsy title or message (the empty string too) is replaced by
    the default text. *)
Theorem dialogs_without_options
    (sh : Shell) (options title message : jsval) (d : Desk)
    (Hnone : options = VNull \/ options = VUndefined) :
  let shown h := List.filter is_message_box (new_calls d (snd (serve sh h d))) in
  (fst (serve sh (show_message options) d) = Exn TypeError
   /\ shown (show_message options) = [])
  /\ (fst (serve sh (show_confirm options) d) = Exn TypeError
      /\ shown (show_confirm options) = [])
  /\ exists failure,
       shown (show_error title message) =
         [Called (ShowMessageBox (mainWindow d)
                    (mkMessageBox (VStr "error")
                       (if truthy title then title else VStr "خطأ")
                       (if truthy message then message
                        else VStr "حدث خطأ غير متوقع")
                       None (Labels ["موافق"]) None None))
                 failure].
Proof.
  cbn zeta. split; [|split].
  - destruct Hnone as [-> | ->]; (split; [reflexivity|]); cbn; made;
      reflexivity.
  - destruct Hnone as [-> | ->]; (split; [reflexivity|]); cbn; made;
      reflexivity.
  - unfold show_error. handler_step. shell_step. shell_case; cbn.
    all: eexists; made; reflexivity.
Qed.

Lemma dialogs_without_options_witness :
  let shown h :=
    List.filter is_message_box
      (new_calls no_window (snd (serve quiet_shell h no_window))) in
  (fst (serve quiet_shell (show_message VUndefined) no_window) = Exn TypeError
   /\ shown (show_message VUndefined) = [])
  /\ (fst (serve quiet_shell (show_confirm VUndefined) no_window)
      = Exn TypeError
      /\ shown (show_confirm VUndefined) = [])
  /\ exists failure,
       shown (show_error (VStr "") VUndefined) =
         [Called (ShowMessageBox false
                    (mkMessageBox (VStr "error") (VStr "خطأ")
                       (VStr "حدث خطأ غير متوقع")
                       None (Labels ["موافق"]) None None))
                 failure].
Proof.
  apply (dialogs_without_options quiet_shell VUndefined (VStr "") VUndefined
           no_window).
  right. reflexivity.
Defined.

(** ** Window control *)

(** X18. Before there is a window, [window-minimize] and [window-close]
    do nothing and return [true], but [window-maximize] throws a
    [TypeError]: its [return] reads the window outside the test that
    guards the rest.  None of the three changes anything. *)
Theorem window_handlers_without_window
    (sh : Shell) (d : Desk) (Hnone : mainWindow d = false) :
  let quiet h :=
    existsb is_window_method (new_calls d (snd (serve sh h d))) = false
    /\ maximized (snd (serve sh h d)) = maximized d in
  fst (serve sh window_minimize d) = Ok (VBool true)
  /\ fst (serve sh window_close d) = Ok (VBool true)
  /\ fst (serve sh window_maximize d) = Exn TypeError
  /\ quiet window_minimize /\ quiet window_close /\ quiet window_maximize.
Proof.
  cbn zeta.
  unfold window_minimize, window_close, window_maximize. handler_step.
  shell_step. rewrite Hnone. cbn. shell_step. rewrite Hnone. cbn.
  repeat split; made; reflexivity.
Qed.

Lemma window_handlers_without_window_witness :
  let quiet h :=
    existsb is_window_method
      (new_calls no_window (snd (serve quiet_shell h no_window))) = false
    /\ maximized (snd (serve quiet_shell h no_window)) = maximized no_window in
  fst (serve quiet_shell window_minimize no_window) = Ok (VBool true)
  /\ fst (serve quiet_shell window_close no_window) = Ok (VBool true)
  /\ fst (serve quiet_shell window_maximize no_window) = Exn TypeError
  /\ quiet window_minimize /\ quiet window_close /\ quiet window_maximize.
Proof.
  apply (window_handlers_without_window quiet_shell no_window).
  reflexivity.
Defined.

(** X19. With a window and no call failing, [window-maximize] toggles:
    it maximizes a window that is not maximized and restores one that
    is, returns the new state, and a second call brings the first state
    back. *)
Theorem window_maximize_toggles
    (sh : Shell) (d : Desk)
    (Hwindow : mainWindow d = true)
    (Hquiet : forall d0 c, shell_fail sh d0 c = None) :
  let r := serve sh window_maximize d in
  fst r = Ok (VBool (negb (maximized d)))
  /\ maximized (snd r) = negb (maximized d)
  /\ mainWindow (snd r) = true
  /\ fst (serve sh window_maximize (snd r)) = Ok (VBool (maximized d))
  /\ maximized (snd (serve sh window_maximize (snd r))) = maximized d.
Proof.
  assert (Hone : forall d1, mainWindow d1 = true ->
            fst (serve sh window_maximize d1) = Ok (VBool (negb (maximized d1)))
            /\ maximized (snd (serve sh window_maximize d1))
               = negb (maximized d1)
            /\ mainWindow (snd (serve sh window_maximize d1)) = true).
  { intros d1 Hd1. unfold window_maximize. handler_step.
    repeat (shell_step; desk; rewrite ?Hd1, ?Hquiet; cbn).
    destruct (maximized d1) eqn:Hmax; cbn;
      repeat (shell_step; desk; rewrite ?Hd1, ?Hquiet; cbn); auto. }
  cbn zeta. destruct (Hone d Hwindow) as (Hres & Hmax & Hwin).
  destruct (Hone _ Hwin) as (Hres' & Hmax' & _).
  rewrite Hres', Hmax', Hmax, negb_involutive. auto.
Qed.

Lemma window_maximize_toggles_witness :
  let r := serve quiet_shell window_maximize with_window in
  fst r = Ok (VBool (negb (maximized with_window)))
  /\ maximized (snd r) = negb (maximized with_window)
  /\ mainWindow (snd r) = true
  /\ fst (serve quiet_shell window_maximize (snd r))
     = Ok (VBool (maximized with_window))
  /\ maximized (snd (serve quiet_shell window_maximize (snd r)))
     = maximized with_window.
Proof.
  apply (window_maximize_toggles quiet_shell with_window).
  - reflexivity.
  - reflexivity.
Defined.

(** ** Users *)

Ltac serve_step :=
  first [ progress (shell_step; exec_step) | shell_case; cbn ].

Ltac each_call tac :=
  repeat (apply List.Forall_cons; [cbn; first [exact I | tac]|]);
  apply List.Forall_nil.

Ltac forget_shell_failures :=
  repeat match goal with
         | H : shell_fail _ _ _ = _ |- _ => clear H
         | H : env_fail _ _ _ = _ |- _ => clear H
         end.

(** ** The debug handlers and raw queries *)

Ltac serve_blocker t :=
  lazymatch t with
  | serve _ ?p _ => serve_blocker p
  | guarded ?p _ => serve_blocker p
  | handler_bind ?p _ => serve_blocker p
  | settled ?o => serve_blocker o
  | embed ?p => blocker p
  | (if ?b then _ else _) => serve_blocker b
  | (match ?x with Some _ => _ | None => _ end) => serve_blocker x
  | (match ?x with Ok _ => _ | Exn _ => _ end) => serve_blocker x
  | (match ?x with (_, _) => _ end) => serve_blocker x
  | (match ?x with [] => _ | _ :: _ => _ end) => serve_blocker x
  | (match ?x with
     | VUndefined => _ | VNull => _ | VBool _ => _
     | VNum _ => _ | VStr _ => _ | VObj _ => _
     end) => serve_blocker x
  | andb ?a _ => serve_blocker a
  | negb ?a => serve_blocker a
  | get_prop ?v _ => v
  | _ => t
  end.

Ltac serve_case :=
  lazymatch goal with
  | |- exists res d', ?R = _ /\ _ =>
      let b := serve_blocker R in
      lazymatch b with
      | (_, _) => fail
      | _ =>
          lazymatch type of b with
          | Handler _ => fail
          | Prog _ => fail
          | _ => first [ is_var b; destruct b | destruct b eqn:? ]; cbn
          end
      end
  end.



(** ** Backups from the menu and the save dialog *)

Lemma replace_colons_dots_app (a b : string) :
  replace_colons_dots (a +:+ b)
  = replace_colons_dots a +:+ replace_colons_dots b.
Proof.
  induction a as [|x a IH]; [reflexivity|].
  rewrite append_cons. cbn. rewrite append_cons. f_equal. exact IH.
Qed.

Lemma replace_colons_dots_plain (s : string) :
  all_plain s = true -> replace_colons_dots s = s.
Proof.
  induction s as [|c s IH]; cbn; [reflexivity|].
  unfold plain. intros H.
  apply andb_true_iff in H as [Hc Hs].
  apply andb_true_iff in Hc as [Hc _].
  apply andb_true_iff in Hc as [Hcolon Hdot].
  apply negb_true_iff in Hcolon, Hdot. rewrite Hcolon, Hdot. cbn.
  f_equal. by apply IH.
Qed.

Lemma iso_dashed_spec (d : DateTime) :
  replace_colons_dots (toISOString d) = iso_dashed d.
Proof.
  unfold toISOString, iso_dashed, iso_seconds.
  rewrite !replace_colons_dots_app.
  rewrite !(replace_colons_dots_plain (pad _ _)) by apply all_plain_pad.
  rewrite (replace_colons_dots_plain (iso_date d))
    by apply all_plain_iso_date.
  rewrite !append_assoc. reflexivity.
Qed.

Lemma iso_dashed_longer (d : DateTime) :
  String.length (iso_dashed d) = String.length (timestamp d) + 5.
Proof.
  rewrite timestamp_iso_seconds. unfold iso_dashed.
  rewrite !length_append, pad_length. cbn. lia.
Qed.

Ltac serve_with tac :=
  repeat first [ progress (shell_step; exec_step; tac) | serve_case ].

Lemma no_T_app (a b : string) : no_T (a +:+ b) = no_T a && no_T b.
Proof.
  induction a as [|x a IH]; [reflexivity|].
  rewrite append_cons. cbn. rewrite IH. by rewrite andb_assoc.
Qed.

Lemma no_T_pad (width n : nat) : no_T (pad width n) = true.
Proof.
  revert n. induction width as [|width IH]; intros n; [reflexivity|].
  change (pad (S width) n)
    with (pad width (n / 10) +:+ String (digit (n mod 10)) EmptyString).
  rewrite no_T_app, IH.
  assert (Hlt : n mod 10 < 10) by (apply Nat.mod_upper_bound; lia).
  remember (n mod 10) as m eqn:Hm. clear Hm.
  do 10 (destruct m as [|m]; [reflexivity|]). lia.
Qed.

Lemma before_T_app (a b : string) :
  no_T a = true -> before_T (a +:+ "T" +:+ b) = a.
Proof.
  induction a as [|x a IH]; [reflexivity|].
  rewrite append_cons. cbn. intros H.
  apply andb_true_iff in H as [Hx Ha].
  apply negb_true_iff in Hx. rewrite Hx. f_equal. by apply IH.
Qed.

Lemma before_T_iso (d : DateTime) : before_T (toISOString d) = iso_date d.
Proof.
  unfold toISOString. apply before_T_app.
  unfold iso_date, iso_year.
  destruct (year d <? 100 * 100)%nat; rewrite ?no_T_app, ?no_T_pad;
    reflexivity.
Qed.

(** X25. [choose-backup-path] only asks: it proposes the name
    [gym-backup-YYYY-MM-DD.db] of the day, backs nothing up and creates
    no file, and never throws.  A dialog that was closed is answered
    with [{canceled: true}], a chosen path with that path, a failure
    with [{error: message}]. *)
Theorem choose_backup_path_proposes
    (sh : Shell) (d : Desk) (now : DateTime) (picked : SaveDialogResult)
    (Hnow : forall w0, env_now (shell_core sh) w0 = now)
    (Hpicked : forall d0, shell_save sh d0 = picked) :
  exists res d',
    serve sh choose_backup_path d = (Ok res, d')
    /\ Forall (choose_path_call now) (new_calls d d')
    /\ files (core d') = files (core d)
    /\ (existsb has_failure (new_calls d d') = false ->
        res = if save_canceled picked
              then VObj [("canceled", VBool true)]
              else VObj [("success", VBool true);
                         ("filePath", save_filePath picked)])
    /\ Forall (fun en => match en with
                         | Called _ (Some e) => res = error_result e
                         | _ => True
                         end) (new_calls d d').
Proof.
  unfold choose_backup_path, console_error. handler_step.
  serve_with ltac:(rewrite ?Hnow, ?Hpicked).
  all: do 2 eexists; (split; [reflexivity|]); forget_shell_failures.
  all: made.
  all: rewrite ?before_T_iso.
  all: split; [each_call ltac:(reflexivity)|].
  all: split; [desk; world; reflexivity|].
  all: split; [cbn; intros Hquiet; first [discriminate | reflexivity]|].
  all: each_call ltac:(reflexivity).
Qed.

Lemma choose_backup_path_proposes_witness :
  exists res d',
    serve quiet_shell choose_backup_path with_window = (Ok res, d')
    /\ Forall (choose_path_call (mkDateTime 2024 1 15 10 30 45 123))
              (new_calls with_window d')
    /\ files (core d') = files (core with_window)
    /\ (existsb has_failure (new_calls with_window d') = false ->
        res = VObj [("success", VBool true);
                    ("filePath", VStr "/media/usb/gym.db")])
    /\ Forall (fun en => match en with
                         | Called _ (Some e) => res = error_result e
                         | _ => True
                         end) (new_calls with_window d').
Proof.
  apply (choose_backup_path_proposes quiet_shell with_window
           (mkDateTime 2024 1 15 10 30 45 123)
           (mkSaveDialogResult false (VStr "/media/usb/gym.db"))).
  - reflexivity.
  - reflexivity.
Defined.

(** ** Closing *)

(** X26. Closing the window asks first, except on macOS.  On [darwin]
    the close handler shows no dialog and never prevents the close, and
    the application stays when its last window is closed.  Elsewhere
    the close handler shows exactly one dialog, whose default and whose
    cancel button are both button 1, and it prevents the close exactly
    when the answer is button 1; an answer of button 0, or any other,
    lets the window close, and the application quits when its last
    window is closed. *)
Theorem on_close_asks
    (sh : Shell) (d : Desk) (choice : Z)
    (Hchoice : forall d0, shell_choice sh d0 = choice)
    (Hquiet : forall d0 c, shell_fail sh d0 c = None) :
  exists d',
    serve sh on_close d = (Ok tt, d')
    /\ Forall stays_open_by_default (new_calls d d')
    /\ count_calls is_sync_box (new_calls d d')
       = (if String.eqb (shell_platform sh) "darwin" then 0 else 1)
    /\ existsb is_prevent (new_calls d d')
       = negb (String.eqb (shell_platform sh) "darwin") && (choice =? 1)%Z
    /\ existsb is_quit (new_calls d (snd (serve sh window_all_closed d)))
       = negb (String.eqb (shell_platform sh) "darwin").
Proof.
  unfold on_close, window_all_closed. handler_step. shell_step.
  destruct (String.eqb (shell_platform sh) "darwin") eqn:Hplatform; cbn.
  - eexists. split; [reflexivity|]. made.
    split; [each_call ltac:(idtac)|]. repeat split; reflexivity.
  - shell_step. rewrite Hquiet, Hchoice. cbn.
    destruct (choice =? 1)%Z eqn:Hone; cbn; shell_step.
    all: eexists; (split; [reflexivity|]); made.
    all: split; [each_call ltac:(split; reflexivity)|].
    all: repeat split; try reflexivity.
    all: rewrite drop_app_length; reflexivity.
Qed.

Lemma on_close_asks_witness :
  exists d',
    serve quiet_shell on_close with_window = (Ok tt, d')
    /\ Forall stays_open_by_default (new_calls with_window d')
    /\ count_calls is_sync_box (new_calls with_window d')
       = (if String.eqb (shell_platform quiet_shell) "darwin" then 0 else 1)
    /\ existsb is_prevent (new_calls with_window d')
       = negb (String.eqb (shell_platform quiet_shell) "darwin")
         && (1 =? 1)%Z
    /\ existsb is_quit
         (new_calls with_window
            (snd (serve quiet_shell window_all_closed with_window)))
       = negb (String.eqb (shell_platform quiet_shell) "darwin").
Proof.
  apply (on_close_asks quiet_shell with_window 1%Z).
  - reflexivity.
  - reflexivity.
Defined.

(** X27. The restore from the menu goes by the chosen files alone: it
    restores the first chosen file whenever there is one (it does not
    look at [canceled]), and with no file chosen it restores nothing and
    shows nothing.  The application is relaunched and exited only after
    a restore that succeeded, and, when no call fails, exactly when a
    file was chosen and the answer to the offer of a restart is button
    0.  An error box shows the message of a failure. *)
Theorem menu_restore_restarts
    (sh : Shell) (d : Desk) (picked : OpenDialogResult) (answered : jsval)
    (Hpicked : forall d0, shell_open sh d0 = picked)
    (Hanswered : forall d0, shell_response sh d0 = answered) :
  exists o d',
    serve sh menu_restore d = (o, d')
    /\ Forall (menu_restore_call picked (new_calls d d')) (new_calls d d')
    /\ (filePaths picked = [] ->
        existsb is_restore_call (new_calls d d') = false
        /\ existsb is_message_box (new_calls d d') = false)
    /\ (existsb has_failure (new_calls d d') = false ->
        let restart :=
          match filePaths picked with
          | [] => false
          | _ :: _ => is_num (value_of answered "response") 0
          end in
        existsb is_restore_call (new_calls d d')
        = match filePaths picked with [] => false | _ :: _ => true end
        /\ existsb is_relaunch (new_calls d d') = restart
        /\ existsb is_exit (new_calls d d') = restart).
Proof.
  unfold menu_restore, detached, console_error, ensureBackupDirectory, field,
    value_of.
  handler_step. run_step.
  serve_with ltac:(rewrite ?Hpicked, ?Hanswered).
  all: do 2 eexists; (split; [reflexivity|]); forget_shell_failures.
  all: made.
  all: split;
    [ each_call ltac:(first
        [ reflexivity
        | solve [eexists; find_in]
        | solve [do 2 eexists; split; [find_in|reflexivity]]
        | match goal with
          | H : filePaths _ = _ |- _ => rewrite H; reflexivity
          end ]) |].
  all: split;
    [ cbn; intros Hnone;
      first [ split; reflexivity
            | match goal with
              | H : filePaths _ = _ |- _ =>
                  rewrite Hnone in H; discriminate
              end
            | discriminate ] |].
  all: cbn; intros Hquiet; try discriminate.
  all: repeat match goal with
              | H : _ = _ |- _ => rewrite H
              end.
  all: repeat split; reflexivity.
Qed.

Lemma menu_restore_restarts_witness :
  exists o d',
    serve quiet_shell menu_restore with_window = (o, d')
    /\ Forall (menu_restore_call (mkOpenDialogResult false ["/backups/old.db"])
                 (new_calls with_window d'))
              (new_calls with_window d')
    /\ (filePaths (mkOpenDialogResult false ["/backups/old.db"]) = [] ->
        existsb is_restore_call (new_calls with_window d') = false
        /\ existsb is_message_box (new_calls with_window d') = false)
    /\ (existsb has_failure (new_calls with_window d') = false ->
        existsb is_restore_call (new_calls with_window d') = true
        /\ existsb is_relaunch (new_calls with_window d') = true
        /\ existsb is_exit (new_calls with_window d') = true).
Proof.
  apply (menu_restore_restarts quiet_shell with_window
           (mkOpenDialogResult false ["/backups/old.db"])
           (VObj [("response", VNum 0)])).
  - reflexivity.
  - reflexivity.
Defined.

(** ** Users, backups from the menu and raw queries: what is done *)

(** X20. [create-user] stores the hash, not the password.  With user
    data that can be read and no call failing, it makes exactly three
    calls: [bcrypt.hash] of the password with 12 rounds, a line on the
    console with the user name and the length of the hash, and the one
    [INSERT], whose parameters are the user name, the hash that
    [bcrypt] answered, the full name, the role, the gym and the active
    flag; it returns [success: true] with what the database answered.
    The handler never throws: a failed call is answered with
    [success: false], the text [Failed to create user] and the message
    of the error, and with user data that is [null] or [undefined] it
    makes no call but the one to the console and answers likewise with
    the message of the error it printed. *)
Theorem create_user_stores_hash
    (sh : Shell) (userData : jsval) (d : Desk) (hash : string)
    (result : jsval)
    (Hhash : forall d0 password, shell_hash sh d0 password 12 = hash)
    (Hresult : forall d0, shell_changes sh d0 = result) :
  exists res d',
    serve sh (create_user userData) d = (Ok res, d')
    /\ Forall (create_user_call userData hash) (new_calls d d')
    /\ Forall (failure_answered res "Failed to create user") (new_calls d d')
    /\ (userData = VNull \/ userData = VUndefined ->
        exists e,
          new_calls d d'
          = [Called (Core (ConsoleError "Create user error:" e)) None]
          /\ res = user_failed "Failed to create user" e)
    /\ (userData <> VNull -> userData <> VUndefined ->
        existsb has_failure (new_calls d d') = false ->
        new_calls d d'
        = [Called (BcryptHash (value_of userData "password") 12) None;
           Called (ConsoleLogArgs
                     [Plain (VStr "Creating user with hashed password:");
                      Plain (VObj [("username",
                                    value_of userData "username");
                                   ("hashedLength",
                                    VNum (Z.of_nat (String.length hash)))])])
                  None;
           Called (DbRun insert_user
                     [value_of userData "username"; VStr hash;
                      value_of userData "full_name";
                      value_of userData "role"; value_of userData "gym_id";
                      value_of userData "is_active"])
                  None]
        /\ res = user_done result).
Proof.
  unfold create_user, field, console_error, value_of. handler_step.
  destruct userData; cbn;
    serve_with ltac:(rewrite ?Hhash, ?Hresult).
  all: do 2 eexists; (split; [reflexivity|]); forget_shell_failures.
  all: made.
  all: split; [each_call ltac:(first [reflexivity | split; reflexivity])|].
  all: split; [each_call ltac:(reflexivity)|].
  all: split;
    [ intros [Hnone|Hnone];
      first [discriminate | eexists; split; reflexivity] |].
  all: cbn; intros Hnull Hundefined Hquiet;
    first [ discriminate | congruence | split; reflexivity ].
Qed.

Lemma create_user_stores_hash_witness :
  exists res d',
    serve quiet_shell (create_user new_user) with_window = (Ok res, d')
    /\ new_calls with_window d'
       = [Called (BcryptHash (VStr "secret") 12) None;
          Called (ConsoleLogArgs
                    [Plain (VStr "Creating user with hashed password:");
                     Plain (VObj [("username", VStr "coach");
                                  ("hashedLength", VNum 29)])])
                 None;
          Called (DbRun insert_user
                    [VStr "coach"; VStr "$2a$12$abcdefghijklmnopqrstuv";
                     VStr "Coach"; VStr "staff"; VNum 1; VNum 1])
                 None]
    /\ res = user_done (VObj [("changes", VNum 1)]).
Proof.
  destruct (create_user_stores_hash quiet_shell new_user with_window
              "$2a$12$abcdefghijklmnopqrstuv" (VObj [("changes", VNum 1)]))
    as (res & d' & Hrun & _ & _ & _ & Hdone).
  - reflexivity.
  - reflexivity.
  - exists res, d'. split; [exact Hrun|].
    apply Hdone; [discriminate|discriminate|].
    pose proof (f_equal snd Hrun) as Hstate. cbn [snd] in Hstate.
    subst d'. vm_compute. reflexivity.
Defined.

(** X21. [update-user] touches the stored hash only when a password is
    given.  With user data that can be read and no call failing: when
    the password is falsy (absent, [null] or the empty string) the
    handler makes one call, the [UPDATE] that does not mention
    [password_hash]; when it is truthy the handler makes two, the
    [bcrypt.hash] of the password with 12 rounds and the [UPDATE] that
    stores the hash [bcrypt] answered.  In both the user id is the last
    parameter and the result is [success: true] with what the database
    answered.  The handler never throws: a failed call is answered with
    [success: false], the text [Failed to update user] and the message
    of the error, and with user data that is [null] or [undefined] no
    call but the one to the console is made. *)
Theorem update_user_keeps_hash
    (sh : Shell) (userId userData : jsval) (d : Desk) (hash : string)
    (result : jsval)
    (Hhash : forall d0 password, shell_hash sh d0 password 12 = hash)
    (Hresult : forall d0, shell_changes sh d0 = result) :
  exists res d',
    serve sh (update_user userId userData) d = (Ok res, d')
    /\ Forall (update_user_call userId userData hash) (new_calls d d')
    /\ Forall (failure_answered res "Failed to update user") (new_calls d d')
    /\ index 0 "password_hash" update_user_keep_password = None
    /\ (userData = VNull \/ userData = VUndefined ->
        exists e,
          new_calls d d'
          = [Called (Core (ConsoleError "Update user error:" e)) None]
          /\ res = user_failed "Failed to update user" e)
    /\ (userData <> VNull -> userData <> VUndefined ->
        existsb has_failure (new_calls d d') = false ->
        new_calls d d'
        = (if truthy (value_of userData "password") then
             [Called (BcryptHash (value_of userData "password") 12) None;
              Called (DbRun update_user_with_password
                        [value_of userData "username"; VStr hash;
                         value_of userData "full_name";
                         value_of userData "role";
                         value_of userData "gym_id";
                         value_of userData "is_active"; userId])
                     None]
           else
             [Called (DbRun update_user_keep_password
                        [value_of userData "username";
                         value_of userData "full_name";
                         value_of userData "role";
                         value_of userData "gym_id";
                         value_of userData "is_active"; userId])
                     None])
        /\ res = user_done result).
Proof.
  unfold update_user, field, console_error, value_of. handler_step.
  destruct userData; cbn;
    serve_with ltac:(rewrite ?Hhash, ?Hresult).
  all: do 2 eexists; (split; [reflexivity|]); forget_shell_failures.
  all: made.
  all: split;
    [ each_call ltac:(
        repeat match goal with
               | H : truthy _ = _ |- _ => rewrite H
               end;
        first [ reflexivity
              | split; reflexivity
              | split; [reflexivity|split; reflexivity] ]) |].
  all: split; [each_call ltac:(reflexivity)|].
  all: split; [reflexivity|].
  all: split;
    [ intros [Hnone|Hnone];
      first [discriminate | eexists; split; reflexivity] |].
  all: cbn; intros Hnull Hundefined Hquiet;
    first [ discriminate | congruence | split; reflexivity ].
Qed.

Lemma update_user_keeps_hash_witness :
  exists res d',
    serve quiet_shell
      (update_user (VNum 7) (VObj [("username", VStr "coach");
                                   ("password", VStr "")]))
      with_window
    = (Ok res, d')
    /\ new_calls with_window d'
       = [Called (DbRun update_user_keep_password
                    [VStr "coach"; VUndefined; VUndefined; VUndefined;
                     VUndefined; VNum 7])
                 None]
    /\ res = user_done (VObj [("changes", VNum 1)]).
Proof.
  destruct (update_user_keeps_hash quiet_shell (VNum 7)
              (VObj [("username", VStr "coach"); ("password", VStr "")])
              with_window "$2a$12$abcdefghijklmnopqrstuv"
              (VObj [("changes", VNum 1)]))
    as (res & d' & Hrun & _ & _ & _ & _ & Hdone).
  - reflexivity.
  - reflexivity.
  - exists res, d'. split; [exact Hrun|].
    apply Hdone; [discriminate|discriminate|].
    pose proof (f_equal snd Hrun) as Hstate. cbn [snd] in Hstate.
    subst d'. vm_compute. reflexivity.
Defined.

(** X23. The raw handlers ask the database what they were asked, and
    return what it answers.  When no call fails, [database-query] and
    [database-run] make one call, with the query and the parameters as
    the renderer sent them, and return its answer as it is;
    [debug-users] asks for [SELECT * FROM users] and then for
    [SELECT * FROM gyms] and returns the two answers as [users] and
    [gyms]; [debug-passwords] asks for
    [SELECT username, password_hash FROM users] and returns the answer,
    hashes included, as [users].  None of them throws: a failed call is
    answered with [{error: message}]. *)
Theorem raw_handlers_pass_through
    (sh : Shell) (query params : jsval) (d : Desk) (answers : Call -> Reply)
    (Hanswers : forall d0 c, shell_any sh d0 c = answers c) :
  let served (h : Handler Reply) (asked : list Call) (expected : Reply) :=
    exists res d',
      serve sh h d = (Ok res, d')
      /\ Forall (failure_returned res) (new_calls d d')
      /\ (existsb has_failure (new_calls d d') = false ->
          new_calls d d' = map (fun c => Called c None) asked
          /\ res = expected) in
  let users := DbQueryAny (VStr "SELECT * FROM users") VUndefined in
  let gyms := DbQueryAny (VStr "SELECT * FROM gyms") VUndefined in
  let hashes :=
    DbQueryAny (VStr "SELECT username, password_hash FROM users")
               VUndefined in
  served (database_query query params) [DbQueryAny query params]
         (answers (DbQueryAny query params))
  /\ served (database_run query params) [DbRunAny query params]
            (answers (DbRunAny query params))
  /\ served debug_users [users; gyms]
            (Fields [("users", answers users); ("gyms", answers gyms)])
  /\ served debug_passwords [hashes] (Fields [("users", answers hashes)])
  /\ Forall (passed_on query params)
            (new_calls d (snd (serve sh (database_query query params) d)))
  /\ Forall (passed_on query params)
            (new_calls d (snd (serve sh (database_run query params) d))).
Proof.
  cbn zeta.
  unfold database_query, database_run, debug_users, debug_passwords,
    console_error.
  handler_step.
  repeat split.
  1-4: serve_with ltac:(rewrite ?Hanswers);
       do 2 eexists; (split; [reflexivity|]); forget_shell_failures; made;
       (split; [each_call ltac:(reflexivity)|]);
       cbn; intros Hquiet; first [discriminate | split; reflexivity].
  all: shell_step; shell_case; cbn; shell_step; exec_step; made;
       each_call ltac:(split; reflexivity).
Qed.

Lemma raw_handlers_pass_through_witness :
  exists res d',
    serve quiet_shell debug_users no_window = (Ok res, d')
    /\ new_calls no_window d'
       = [Called (DbQueryAny (VStr "SELECT * FROM users") VUndefined) None;
          Called (DbQueryAny (VStr "SELECT * FROM gyms") VUndefined) None]
    /\ res = Fields [("users", Rows [admin_row]); ("gyms", Rows [gym_row])].
Proof.
  destruct (raw_handlers_pass_through quiet_shell VNull VNull no_window
              quiet_answer)
    as (_ & _ & (res & d' & Hrun & _ & Hdone) & _).
  - reflexivity.
  - exists res, d'. split; [exact Hrun|].
    apply Hdone.
    pose proof (f_equal snd Hrun) as Hstate. cbn [snd] in Hstate.
    subst d'. vm_compute. reflexivity.
Defined.

Lemma menu_backup_spec
    (sh : Shell) (d : Desk) (now : DateTime)
    (Hnow : forall w0, env_now (shell_core sh) w0 = now) :
  exists o d',
    serve sh menu_backup d = (o, d')
    /\ Forall (menu_backup_call (core d) now (new_calls d d'))
              (new_calls d d')
    /\ (existsb has_failure (new_calls d d') = true ->
        existsb is_message_box (new_calls d d') = true
        \/ existsb is_error_box (new_calls d d') = true)
    /\ (existsb has_failure (new_calls d d') = false ->
        o = Ok tt
        /\ count_calls is_backup_call (new_calls d d') = 1
        /\ count_calls is_message_box (new_calls d d') = 1
        /\ existsb is_error_box (new_calls d d') = false).
Proof.
  unfold menu_backup, detached, console_error, ensureBackupDirectory.
  handler_step. run_step. serve_with ltac:(rewrite ?Hnow).
  all: do 2 eexists; (split; [reflexivity|]); forget_shell_failures.
  all: made.
  all: rewrite ?iso_dashed_spec.
  all: split;
    [ each_call ltac:(first
        [ reflexivity
        | solve [split; [reflexivity|eexists; split; [reflexivity|find_in]]]
        | solve [do 2 eexists; split; [find_in|reflexivity]] ]) |].
  all: split;
    [ cbn; intros Hfailed;
      first [discriminate | left; reflexivity | right; reflexivity] |].
  all: cbn; intros Hquiet; first [discriminate | repeat split; reflexivity].
Qed.

(** X24. The backup from the menu names its file otherwise than the
    backup handlers do.  At the clock the handler reads it asks the
    Storage Backend for [gym-backup-YYYY-MM-DDTHH-mm-ss-sssZ.db] in the
    backup directory (the dot of the ISO string is replaced too, and
    nothing is cut), which is never a path that [backup-database] asks
    for at the same clock.  When no call fails it makes exactly one
    backup and shows exactly one information box, which names the path
    of the backup, and no error box.  The information box is shown only
    after a backup that succeeded; an error box shows the message of a
    failure; every failure leads to one of the two boxes. *)
Theorem menu_backup_name
    (sh : Shell) (d : Desk) (now : DateTime)
    (Hnow : forall w0, env_now (shell_core sh) w0 = now) :
  exists o d',
    serve sh menu_backup d = (o, d')
    /\ Forall (menu_backup_call (core d) now (new_calls d d'))
              (new_calls d d')
    /\ (existsb has_failure (new_calls d d') = true ->
        existsb is_message_box (new_calls d d') = true
        \/ existsb is_error_box (new_calls d d') = true)
    /\ (existsb has_failure (new_calls d d') = false ->
        o = Ok tt
        /\ count_calls is_backup_call (new_calls d d') = 1
        /\ count_calls is_message_box (new_calls d d') = 1
        /\ existsb is_error_box (new_calls d d') = false)
    /\ (forall p failure q,
          In (Called (Core (DbBackup p)) failure) (new_calls d d') ->
          In (Begin (DbBackup q))
             (new_events (core d)
                (snd (run (shell_core sh) backup_database (core d)))) ->
          p <> q).
Proof.
  destruct (menu_backup_spec sh d now Hnow)
    as (o & d' & Hrun & Hcalls & Hfailed & Hquiet).
  exists o, d'. repeat (split; [assumption|]).
  intros p failure q Hp Hq.
  rewrite List.Forall_forall in Hcalls.
  specialize (Hcalls _ Hp). cbn in Hcalls. subst p.
  destruct (backup_database_stamped (shell_core sh) (core d))
    as (res & w' & Hmanual & Hstamped & _).
  rewrite Hmanual in Hq. cbn [snd] in Hq.
  rewrite List.Forall_forall in Hstamped.
  destruct (Hstamped _ Hq) as [-> _].
  unfold manual_clock. rewrite Hnow.
  unfold backup_path, path_join. intros [= H].
  do 3 apply append_inv_head in H.
  apply (f_equal String.length) in H.
  rewrite !length_append, iso_dashed_longer in H. lia.
Qed.

Lemma menu_backup_name_witness :
  exists o d',
    serve quiet_shell menu_backup with_window = (o, d')
    /\ o = Ok tt
    /\ List.filter is_backup_call (new_calls with_window d')
       = [Called (Core (DbBackup
            (VStr "/home/gym/backups/gym-backup-2024-01-15T10-30-45-123Z.db")))
            None]
    /\ count_calls is_message_box (new_calls with_window d') = 1.
Proof.
  destruct (menu_backup_name quiet_shell with_window
              (mkDateTime 2024 1 15 10 30 45 123))
    as (o & d' & Hrun & _ & _ & Hdone & _).
  - reflexivity.
  - exists o, d'. split; [exact Hrun|].
    pose proof (f_equal snd Hrun) as Hstate. cbn [snd] in Hstate.
    subst d'.
    destruct Hdone as (Hok & _ & Hbox & _); [vm_compute; reflexivity|].
    split; [exact Hok|]. split; [vm_compute; reflexivity|exact Hbox].
Defined.
